
(** * SmartDine POS: access control and order lifecycle

    A shallow embedding of the permission engine, the step-up
    authentication gate and the order lifecycle of the server, with the
    properties of its specification stated and proved over it.

    The file has three parts.  Part I embeds the source, one module per
    source file; Part II states and proves the properties of the
    specification; Part III proves further properties of the code. *)

From Stdlib Require Import Floats ZArith Ascii.
From stdpp Require Import gmap strings list.

Local Open Scope string_scope.

(* ================================================================== *)
(** * Part I: the program                                              *)
(* ================================================================== *)

(** ** Exceptions

    A computation that may throw: [Ok a] is a normal completion,
    [Throw e] an exception carrying its message. *)

Inductive Exc (A : Type) : Type :=
  | Ok (a : A)
  | Throw (e : string).

Arguments Ok {A} a.
Arguments Throw {A} e.

#[global] Instance Exc_ret : MRet Exc := λ A a, Ok a.

#[global] Instance Exc_bind : MBind Exc := λ A B f m,
  match m with
  | Ok a => f a
  | Throw e => Throw e
  end.

(** [try { body } catch (error) { handler }] *)
Definition try_catch {A : Type} (body : Exc A) (handler : string → A) : A :=
  match body with
  | Ok a => a
  | Throw e => handler e
  end.

(** ** The JavaScript operations the source relies on *)

Module Js.

(** [Array.prototype.includes] on an array of strings. *)
Definition includes (l : list string) (s : string) : bool :=
  bool_decide (s ∈ l).

(** A string is falsy exactly when it is empty; [undefined] is falsy. *)
Definition truthy (s : option string) : bool :=
  match s with
  | Some v => negb (bool_decide (v = ""))
  | None => false
  end.

(** Reading [obj[key]] on an object literal: the object's own
    properties first, then those every object inherits from
    [Object.prototype], else [undefined]. *)
Inductive Property (A : Type) : Type :=
  | Own (v : A)
  | Inherited
  | Undefined.

Arguments Own {A} v.
Arguments Inherited {A}.
Arguments Undefined {A}.

Definition objectPrototypeKeys : list string :=
  [ "constructor"; "__proto__"; "hasOwnProperty"; "isPrototypeOf";
    "propertyIsEnumerable"; "toLocaleString"; "toString"; "valueOf";
    "__defineGetter__"; "__defineSetter__"; "__lookupGetter__";
    "__lookupSetter__" ].

Fixpoint ownProperty {A : Type} (obj : list (string * A)) (key : string)
  : option A :=
  match obj with
  | [] => None
  | (k, v) :: rest => if bool_decide (k = key) then Some v else ownProperty rest key
  end.

Definition getProperty {A : Type} (obj : list (string * A)) (key : string)
  : Property A :=
  match ownProperty obj key with
  | Some v => Own v
  | None => if includes objectPrototypeKeys key then Inherited else Undefined
  end.

(** The string a member of [Object.prototype] converts to, as Node
    prints it: [__proto__] is the prototype object itself,
    [constructor] is the function [Object], and every other member is
    the native function of its own name. *)
Definition inheritedText (key : string) : string :=
  if bool_decide (key = "__proto__") then "[object Object]"
  else if bool_decide (key = "constructor")
       then "function Object() { [native code] }"
       else "function " +:+ key +:+ "() { [native code] }".

(** An operand of [<] or [>=] that is either a number or an object.
    The comparison converts an object to a primitive, which for the
    objects met here (the members of [Object.prototype]) is a string,
    [text]. *)
Inductive NumOrObject : Type :=
  | Num (n : Z)
  | Obj (text : string).

(** [a < b].  Two numbers are compared as numbers and two strings by
    their code units; a string against a number is converted to a
    number, which for the strings met here (none is a numeral) is NaN,
    and a comparison with NaN is false. *)
Definition lt (a b : NumOrObject) : bool :=
  match a, b with
  | Num x, Num y => bool_decide (x < y)%Z
  | Obj s, Obj t => String.ltb s t
  | _, _ => false
  end.

(** [const [first] = s.split(sep)]: the part of [s] before the first
    separator, or all of [s] when it has none. *)
Fixpoint splitFirst (sep : ascii) (s : string) : string :=
  match s with
  | EmptyString => EmptyString
  | String c rest =>
      if bool_decide (c = sep) then EmptyString else String c (splitFirst sep rest)
  end.

Fixpoint contains (sep : ascii) (s : string) : bool :=
  match s with
  | EmptyString => false
  | String c rest => bool_decide (c = sep) || contains sep rest
  end.

(** [Number.prototype.toString] on a natural number. *)
Definition digitChar (d : N) : ascii :=
  ascii_of_N (48 + d).

Fixpoint toStringAux (fuel : nat) (n : N) (acc : string) : string :=
  match fuel with
  | O => acc
  | S fuel' =>
      let acc' := String (digitChar (n mod 10)) acc in
      if bool_decide (n / 10 = 0)%N then acc' else toStringAux fuel' (n / 10) acc'
  end.

(** A number has no more decimal digits than binary ones, so its
    binary size is fuel enough. *)
Definition toString (n : N) : string :=
  toStringAux (S (N.size_nat n)) n "".

Fixpoint repeatChar (c : ascii) (n : nat) : string :=
  match n with
  | O => ""
  | S n' => String c (repeatChar c n')
  end.

(** [s.padStart(width, c)] for a one-character pad string. *)
Definition padStart (width : nat) (c : ascii) (s : string) : string :=
  repeatChar c (width - String.length s) +:+ s.

(** [s.slice(-k)]: the last [k] characters, or all of [s] when it is
    shorter. *)
Definition sliceLast (k : nat) (s : string) : string :=
  String.substring (String.length s - k) k s.

(** [s.trim()]: white space removed at both ends (the white space of
    ASCII: space, tab, line feed, vertical tab, form feed, carriage
    return). *)
Definition isWhiteSpace (c : ascii) : bool :=
  let n := N_of_ascii c in
  bool_decide (n = 32 ∨ (9 ≤ n ∧ n ≤ 13))%N.

Fixpoint trimStart (s : string) : string :=
  match s with
  | EmptyString => EmptyString
  | String c rest => if isWhiteSpace c then trimStart rest else s
  end.

Definition trim (s : string) : string :=
  String.rev (trimStart (String.rev (trimStart s))).

(** [s.split(sep)] for a one-character separator: the pieces between
    the separators, empty pieces included; the empty string gives one
    empty piece. *)
Fixpoint split (sep : ascii) (s : string) : list string :=
  match s with
  | EmptyString => [ EmptyString ]
  | String c rest =>
      if bool_decide (c = sep) then EmptyString :: split sep rest
      else
        match split sep rest with
        | piece :: pieces => String c piece :: pieces
        | [] => [ String c EmptyString ]
        end
  end.

(** [s.startsWith(p)] *)
Definition startsWith (p s : string) : bool := String.prefix p s.

(** [l.filter(f)] and [l.some(f)] for a callback that may throw: the
    callback runs on the elements in order, [some] stops at the first
    element it accepts, and an exception of the callback ends the
    call. *)
Fixpoint filterExc {A : Type} (f : A → Exc bool) (l : list A) : Exc (list A) :=
  match l with
  | [] => Ok []
  | x :: rest =>
      match f x with
      | Throw e => Throw e
      | Ok keep =>
          match filterExc f rest with
          | Throw e => Throw e
          | Ok kept => Ok (if keep then x :: kept else kept)
          end
      end
  end.

Fixpoint someExc {A : Type} (f : A → Exc bool) (l : list A) : Exc bool :=
  match l with
  | [] => Ok false
  | x :: rest =>
      match f x with
      | Throw e => Throw e
      | Ok found => if found then Ok true else someExc f rest
      end
  end.

(** [[...new Set(l)]]: the elements of [l] in the order of their first
    occurrence. *)
Fixpoint uniqueFrom (seen l : list string) : list string :=
  match l with
  | [] => []
  | x :: rest =>
      if includes seen x then uniqueFrom seen rest
      else x :: uniqueFrom (x :: seen) rest
  end.

Definition unique (l : list string) : list string := uniqueFrom [] l.

(** [a >= b], where [None] is [undefined], which converts to NaN:
    true when [a < b] is false and neither side is NaN. *)
Definition ge (a b : option NumOrObject) : bool :=
  match a, b with
  | Some (Num x), Some (Num y) => bool_decide (y ≤ x)%Z
  | Some (Obj s), Some (Obj t) => negb (String.ltb s t)
  | _, _ => false
  end.

End Js.


(** ** middleware/auth: roles, permissions and the step-up gate *)

Module Auth.
Import Js.

(** The authenticated principal a request carries ([req.user]): the
    user document, by the paths the code below reads or writes.
    [restaurantId] is the empty string when the document has none, and
    [updatedAt] is the time stamp of the schema's [timestamps] option,
    in milliseconds. *)
Record User : Type := {
  _id : string;
  role : string;
  permissions : option (list string);
  restaurantId : string;
  isActive : bool;
  updatedAt : Z
}.

Record AuthRequest : Type := {
  user : option User;
  additionalAuthHeader : option string   (* req.headers['x-additional-auth'] *)
}.

(** What a middleware does with a request: hand it on with [next()],
    or answer with [res.status(status).json({error: {code}})]. *)
Inductive MiddlewareResult : Type :=
  | Next
  | Respond (status : nat) (code : string).

Definition ROLE_HIERARCHY : list (string * Z) :=
  [ ("customer", 1%Z); ("kitchen", 2%Z); ("waiter", 3%Z);
    ("manager", 4%Z); ("admin", 5%Z) ].

Definition ROLE_PERMISSIONS : list (string * list string) :=
  [ ("customer",
      [ "order:create"; "order:view:own"; "menu:view";
        "profile:view:own"; "profile:update:own" ]);
    ("kitchen",
      [ "order:view"; "order:update:status"; "kitchen:view";
        "kitchen:update"; "menu:view"; "inventory:view" ]);
    ("waiter",
      [ "order:create"; "order:view"; "order:update"; "order:delete";
        "table:view"; "table:update"; "menu:view"; "customer:view";
        "customer:create"; "payment:process"; "inventory:view" ]);
    ("manager",
      [ "order:*"; "table:*"; "menu:*"; "customer:*"; "payment:*";
        "inventory:*"; "employee:view"; "employee:create";
        "employee:update"; "analytics:view"; "reports:view";
        "settings:view"; "settings:update" ]);
    ("admin", [ "*" ]) ].

Definition SENSITIVE_OPERATIONS : list string :=
  [ "user:delete"; "payment:refund"; "inventory:delete";
    "settings:security"; "data:export"; "system:backup" ].

(** [ROLE_PERMISSIONS[userRole] || []].  An inherited property is a
    truthy value that is no array: calling [includes] on it throws. *)
Definition rolePermissionsOf (userRole : string) : Exc (list string) :=
  match getProperty ROLE_PERMISSIONS userRole with
  | Own l => Ok l
  | Undefined => Ok []
  | Inherited => Throw "TypeError: rolePermissions.includes is not a function"
  end.

Definition hasPermission (userRole permission : string)
    (userPermissions : option (list string)) : Exc bool :=
  if bool_decide (userRole = "admin") then Ok true
  else
    rolePermissions ← rolePermissionsOf userRole;
    if includes rolePermissions "*" then Ok true
    else if includes rolePermissions permission then Ok true
    else
      let resource := splitFirst ":" permission in
      if includes rolePermissions (resource +:+ ":*") then Ok true
      else
        match userPermissions with
        | Some ups => if includes ups permission then Ok true else Ok false
        | None => Ok false
        end.

(** [ROLE_HIERARCHY[role] || 0] *)
Definition roleLevelOf (r : string) : NumOrObject :=
  match getProperty ROLE_HIERARCHY r with
  | Own n => if bool_decide (n = 0%Z) then Num 0 else Num n
  | Undefined => Num 0
  | Inherited => Obj (inheritedText r)
  end.

Definition requirePermission (permission : string) (req : AuthRequest)
  : Exc MiddlewareResult :=
  match user req with
  | None => Ok (Respond 401 "NO_USER")
  | Some u =>
      granted ← hasPermission (role u) permission (permissions u);
      if negb granted then Ok (Respond 403 "INSUFFICIENT_PERMISSIONS")
      else Ok Next
  end.

Definition requireRoleLevel (minimumRole : string) (req : AuthRequest)
  : MiddlewareResult :=
  match user req with
  | None => Respond 401 "NO_USER"
  | Some u =>
      let userLevel := roleLevelOf (role u) in
      let requiredLevel := roleLevelOf minimumRole in
      if lt userLevel requiredLevel then Respond 403 "INSUFFICIENT_ROLE_LEVEL"
      else Next
  end.

Definition isSensitiveOperation (operation : string) : bool :=
  includes SENSITIVE_OPERATIONS operation.

(** The payload of a verified additional-auth token.  [iat] is its
    issued-at time in seconds, which a payload need not carry. *)
Record AdditionalAuthClaims : Type := {
  userId : string;
  operation : string;
  iat : option Z
}.

Section StepUp.

(** [jwt.verify(token, process.env.JWT_SECRET)]: the token library,
    which returns the payload or throws. *)
Variable jwt_verify : string → Exc AdditionalAuthClaims.

(** [now] is the value [Date.now()] reads, in milliseconds.  When the
    payload has no [iat], [decoded.iat * 1000] is NaN and so is the
    token's age, and [tokenAge > 5 * 60 * 1000] is false. *)
Definition requireAdditionalAuth (op : string) (now : Z) (req : AuthRequest)
  : MiddlewareResult :=
  match user req with
  | None => Respond 401 "NO_USER"
  | Some u =>
      if includes SENSITIVE_OPERATIONS op then
        if negb (truthy (additionalAuthHeader req)) then
          Respond 403 "ADDITIONAL_AUTH_REQUIRED"
        else
          try_catch
            (decoded ← jwt_verify (default "" (additionalAuthHeader req));
             if bool_decide (userId decoded ≠ _id u)
                || bool_decide (operation decoded ≠ op)
             then Throw "Invalid additional auth token"
             else
               match iat decoded with
               | Some issuedAt =>
                   let tokenAge := (now - issuedAt * 1000)%Z in
                   if bool_decide (tokenAge > 5 * 60 * 1000)%Z
                   then Throw "Additional auth token expired"
                   else Ok Next
               | None => Ok Next
               end)
            (λ _, Respond 403 "INVALID_ADDITIONAL_AUTH")
      else Next
  end.

End StepUp.

Definition authorize (roles : list string) (req : AuthRequest) : MiddlewareResult :=
  match user req with
  | None => Respond 401 "NO_USER"
  | Some u =>
      if negb (includes roles (role u)) then Respond 403 "INSUFFICIENT_PERMISSIONS"
      else Next
  end.

Definition requireAllPermissions (permissions' : list string) (req : AuthRequest)
  : Exc MiddlewareResult :=
  match user req with
  | None => Ok (Respond 401 "NO_USER")
  | Some u =>
      missingPermissions ←
        filterExc (λ permission,
                     granted ← hasPermission (role u) permission (permissions u);
                     Ok (negb granted))
                  permissions';
      if bool_decide (0 < length missingPermissions)%nat
      then Ok (Respond 403 "INSUFFICIENT_PERMISSIONS")
      else Ok Next
  end.

Definition requireAnyPermission (permissions' : list string) (req : AuthRequest)
  : Exc MiddlewareResult :=
  match user req with
  | None => Ok (Respond 401 "NO_USER")
  | Some u =>
      hasAnyPermission ←
        someExc (λ permission, hasPermission (role u) permission (permissions u))
                permissions';
      if negb hasAnyPermission then Ok (Respond 403 "INSUFFICIENT_PERMISSIONS")
      else Ok Next
  end.

(** [getUserPermissions]: spreading [ROLE_PERMISSIONS[userRole] || []]
    throws when the value is an inherited property, which is no
    iterable. *)
Definition getUserPermissions (userRole : string)
    (userPermissions : option (list string)) : Exc (list string) :=
  rolePermissions ←
    match getProperty ROLE_PERMISSIONS userRole with
    | Own l => Ok l
    | Undefined => Ok []
    | Inherited => Throw "TypeError: rolePermissions is not iterable"
    end;
  let customPermissions := default [] userPermissions in
  Ok (unique (rolePermissions ++ customPermissions)).

(** The payload of a verified access token. *)
Record AccessClaims : Type := {
  claim_id : string;
  claim_email : string;
  claim_role : string;
  claim_restaurantId : string
}.

Section Session.

(** [jwt.verify(token, process.env.JWT_SECRET)] on an access token, and
    [User.findById(id).select('-password')]. *)
Variable jwt_verify : string → Exc AccessClaims.
Variable User_findById : string → Exc (option User).

(** The bearer token of a request: [authorization] is the value of
    [req.headers.authorization]. *)
Definition bearerToken (authorization : option string) : option string :=
  if truthy authorization && startsWith "Bearer" (default "" authorization)
  then split " " (default "" authorization) !! 1%nat
  else None.

(** [authMiddleware], with the value it leaves in [req.user]. *)
Definition authMiddleware (authorization : option string)
  : MiddlewareResult * option User :=
  let token := bearerToken authorization in
  if negb (truthy token) then (Respond 401 "NO_TOKEN", None)
  else
    try_catch
      (decoded ← jwt_verify (default "" token);
       found ← User_findById (claim_id decoded);
       match found with
       | None => Ok (Respond 401 "USER_NOT_FOUND", None)
       | Some u =>
           if negb (isActive u) then Ok (Respond 401 "USER_INACTIVE", Some u)
           else Ok (Next, Some u)
       end)
      (λ _, (Respond 401 "INVALID_TOKEN", None)).

End Session.

End Auth.


(** ** services/authService: the coarse additional-auth check *)

Module AuthService.
Import Js.

Section Service.

(** [User.findById(userId)]: the user store, which returns the user,
    [null], or throws. *)
Variable User_findById : string → Exc (option Auth.User).

Definition sensitiveActions : list string :=
  [ "delete_user"; "modify_permissions"; "access_financial_reports";
    "modify_system_settings"; "export_customer_data" ].

Definition requireAdditionalAuth (userId action : string) : bool :=
  try_catch
    (found ← User_findById userId;
     match found with
     | None => Throw "User not found"
     | Some u =>
         if includes sensitiveActions action
            && includes [ "admin"; "manager" ] (Auth.role u)
         then Ok true
         else Ok false
     end)
    (λ _, true).

End Service.

Section Tokens.

Variable jwt_verify : string → Exc Auth.AccessClaims.
Variable User_findById : string → Exc (option Auth.User).

(** The hierarchy table [validateRole] declares for itself. *)
Definition roleHierarchy : list (string * Z) :=
  [ ("customer", 1%Z); ("kitchen", 2%Z); ("waiter", 3%Z);
    ("manager", 4%Z); ("admin", 5%Z) ].

(** [roleHierarchy[r]] as an operand of [>=]: a number when the table
    has the role, a member of [Object.prototype] when the role names
    one, else [undefined]. *)
Definition roleHierarchyLevel (r : string) : option NumOrObject :=
  match getProperty roleHierarchy r with
  | Own n => Some (Num n)
  | Inherited => Some (Obj (inheritedText r))
  | Undefined => None
  end.

Definition validateRole (token requiredRole : string) : bool :=
  try_catch
    (decoded ← jwt_verify token;
     let userRoleLevel := roleHierarchyLevel (Auth.claim_role decoded) in
     let requiredRoleLevel := roleHierarchyLevel requiredRole in
     Ok (ge userRoleLevel requiredRoleLevel))
    (λ _, false).

Definition verifyToken (token : string) : option Auth.User :=
  try_catch
    (decoded ← jwt_verify token;
     found ← User_findById (Auth.claim_id decoded);
     match found with
     | None => Ok None
     | Some u => if negb (Auth.isActive u) then Ok None else Ok (Some u)
     end)
    (λ _, None).

End Tokens.

Section Accounts.

(** The users collection, by the canonical text of the [_id] of its
    documents.  [castObjectId] is the cast of the persistence library
    from a string to an object id, by the canonical text of the id it
    gives; [User.findById] throws on a string that does not cast. *)
Variable castObjectId : string → option string.

(** Whether the paths of the stored document that [Auth.User] leaves
    out (username, email, password, profile) pass the validators of
    the schema; it is told by the [_id] of the document, as nothing
    below writes these paths. *)
Variable otherPathsValid : string → bool.

Definition findById (users : gmap string Auth.User) (userId : string)
  : Exc (option Auth.User) :=
  match castObjectId userId with
  | Some key => Ok (users !! key)
  | None => Throw "CastError"
  end.

Definition set_isActive (v : bool) (u : Auth.User) : Auth.User :=
  {| Auth._id := Auth._id u; Auth.role := Auth.role u;
     Auth.permissions := Auth.permissions u;
     Auth.restaurantId := Auth.restaurantId u; Auth.isActive := v;
     Auth.updatedAt := Auth.updatedAt u |}.

Definition set_updatedAt (v : Z) (u : Auth.User) : Auth.User :=
  {| Auth._id := Auth._id u; Auth.role := Auth.role u;
     Auth.permissions := Auth.permissions u;
     Auth.restaurantId := Auth.restaurantId u; Auth.isActive := Auth.isActive u;
     Auth.updatedAt := v |}.

(** The validators of the user schema on a loaded document: [role] is
    one of the schema's enum, and [restaurantId] is required unless
    the role is admin. *)
Definition validUser (u : Auth.User) : bool :=
  includes [ "admin"; "manager"; "waiter"; "kitchen"; "customer" ] (Auth.role u)
  && (bool_decide (Auth.role u = "admin")
      || negb (bool_decide (Auth.restaurantId u = "")))
  && otherPathsValid (Auth._id u).

(** [user.isActive = v; await user.save()] on the loaded document [u]:
    the document is validated; when the assignment changed nothing
    there is nothing to write; else the [timestamps] option sets
    [updatedAt] to the time of the save, [now], and the document is
    written.  The schema's own pre-save hook returns at once, as the
    password is not modified. *)
Definition assignIsActiveAndSave (users : gmap string Auth.User) (now : Z)
    (u : Auth.User) (v : bool) : Exc (gmap string Auth.User) :=
  let u' := set_isActive v u in
  if negb (validUser u') then Throw "ValidationError"
  else if bool_decide (Auth.isActive u = v) then Ok users
  else Ok (<[ Auth._id u := set_updatedAt now u' ]> users).

(** [deactivateUser]; an exception is logged and thrown again. *)
Definition deactivateUser (users : gmap string Auth.User) (now : Z) (userId : string)
  : Exc (gmap string Auth.User) :=
  found ← findById users userId;
  match found with
  | None => Throw "User not found"
  | Some u => assignIsActiveAndSave users now u false
  end.

Definition activateUser (users : gmap string Auth.User) (now : Z) (userId : string)
  : Exc (gmap string Auth.User) :=
  found ← findById users userId;
  match found with
  | None => Throw "User not found"
  | Some u => assignIsActiveAndSave users now u true
  end.

End Accounts.

End AuthService.


(** ** models/Order: the order document and its pre-save hooks *)

Module OrderModel.
Import Js.

Inductive OrderStatus : Type :=
  | pending | confirmed | preparing | ready | served | cancelled.

Inductive PaymentStatus : Type :=
  | payment_pending | paid | failed | refunded | partial.

#[global] Instance OrderStatus_eq_dec : EqDecision OrderStatus.
Proof. solve_decision. Defined.

Definition statusName (s : OrderStatus) : string :=
  match s with
  | pending => "pending"
  | confirmed => "confirmed"
  | preparing => "preparing"
  | ready => "ready"
  | served => "served"
  | cancelled => "cancelled"
  end.

Definition allStatuses : list OrderStatus :=
  [ pending; confirmed; preparing; ready; served; cancelled ].

(** The schema's [enum] on [status]: a string is cast to the status it
    names, and any other string is a validation error. *)
Definition parseStatus (s : string) : option OrderStatus :=
  List.find (λ st, bool_decide (statusName st = s)) allStatuses.

Definition paymentStatusName (s : PaymentStatus) : string :=
  match s with
  | payment_pending => "pending"
  | paid => "paid"
  | failed => "failed"
  | refunded => "refunded"
  | partial => "partial"
  end.

Definition parsePaymentStatus (s : string) : option PaymentStatus :=
  List.find (λ st, bool_decide (paymentStatusName st = s))
    [ payment_pending; paid; failed; refunded; partial ].

(** A [Date], by its fields in the server's local time, as
    [getFullYear], [getMonth] (0-based), [getDate], [getHours], ...
    read them. *)
Record Date : Type := {
  getFullYear : N;
  getMonth : N;
  getDate : N;
  getHours : N;
  getMinutes : N;
  getSeconds : N;
  getMilliseconds : N
}.

(** [date.setHours(h, m, s, ms)] *)
Definition setHours (d : Date) (h m s ms : N) : Date :=
  {| getFullYear := getFullYear d; getMonth := getMonth d; getDate := getDate d;
     getHours := h; getMinutes := m; getSeconds := s; getMilliseconds := ms |}.

(** Dates are compared as instants.  Within one time zone the order
    of instants is the order of the local fields, which [ordinal]
    encodes: days are numbered through 31-day months of 12-month
    years, and the time of day is counted in milliseconds. *)
Definition dayNumber (d : Date) : N :=
  ((getFullYear d * 12 + getMonth d) * 31 + (getDate d - 1))%N.

Definition millisOfDay (d : Date) : N :=
  (((getHours d * 60 + getMinutes d) * 60 + getSeconds d) * 1000
   + getMilliseconds d)%N.

Definition ordinal (d : Date) : N :=
  (dayNumber d * 86400000 + millisOfDay d)%N.

Definition date_gte (a b : Date) : bool := bool_decide (ordinal b ≤ ordinal a)%N.
Definition date_lte (a b : Date) : bool := bool_decide (ordinal a ≤ ordinal b)%N.

(** An item of an order, as the document holds it: the values after
    the schema's cast, which trims [name], [notes] and the
    customizations and turns [menuItemId] into an object id.  An object
    id is held by its canonical text, and [menuItemId] is the empty
    string when the item has none. *)
Record OrderItem : Type := {
  menuItemId : string;
  name : string;
  price : float;
  quantity : float;
  customizations : list string;
  itemNotes : option string
}.

(** An order, by the paths of its schema and [createdAt].  Object ids
    ([tableId], [customerId], [createdBy]) are held by their canonical
    text; [restaurantId] and [createdBy] are the empty string when the
    document has none.  The time stamp [updatedAt], which the
    [timestamps] option rewrites on every write and nothing of the
    source reads, is left out: two orders are the same here when they
    agree on every other path. *)
Record Order : Type := {
  orderNumber : option string;
  restaurantId : string;
  tableId : option string;
  customerId : option string;
  items : list OrderItem;
  subtotal : float;
  tax : float;
  discount : float;
  total : float;
  status : OrderStatus;
  paymentStatus : PaymentStatus;
  paymentMethod : option string;
  notes : option string;
  createdBy : string;
  createdAt : Date
}.

Definition set_orderNumber (v : string) (o : Order) : Order :=
  {| orderNumber := Some v; restaurantId := restaurantId o; tableId := tableId o;
     customerId := customerId o; items := items o; subtotal := subtotal o;
     tax := tax o; discount := discount o; total := total o; status := status o;
     paymentStatus := paymentStatus o; paymentMethod := paymentMethod o;
     notes := notes o; createdBy := createdBy o; createdAt := createdAt o |}.

Definition set_items (v : list OrderItem) (o : Order) : Order :=
  {| orderNumber := orderNumber o; restaurantId := restaurantId o; tableId := tableId o;
     customerId := customerId o; items := v; subtotal := subtotal o;
     tax := tax o; discount := discount o; total := total o; status := status o;
     paymentStatus := paymentStatus o; paymentMethod := paymentMethod o;
     notes := notes o; createdBy := createdBy o; createdAt := createdAt o |}.

Definition set_subtotal (v : float) (o : Order) : Order :=
  {| orderNumber := orderNumber o; restaurantId := restaurantId o; tableId := tableId o;
     customerId := customerId o; items := items o; subtotal := v;
     tax := tax o; discount := discount o; total := total o; status := status o;
     paymentStatus := paymentStatus o; paymentMethod := paymentMethod o;
     notes := notes o; createdBy := createdBy o; createdAt := createdAt o |}.

Definition set_tax (v : float) (o : Order) : Order :=
  {| orderNumber := orderNumber o; restaurantId := restaurantId o; tableId := tableId o;
     customerId := customerId o; items := items o; subtotal := subtotal o;
     tax := v; discount := discount o; total := total o; status := status o;
     paymentStatus := paymentStatus o; paymentMethod := paymentMethod o;
     notes := notes o; createdBy := createdBy o; createdAt := createdAt o |}.

Definition set_discount (v : float) (o : Order) : Order :=
  {| orderNumber := orderNumber o; restaurantId := restaurantId o; tableId := tableId o;
     customerId := customerId o; items := items o; subtotal := subtotal o;
     tax := tax o; discount := v; total := total o; status := status o;
     paymentStatus := paymentStatus o; paymentMethod := paymentMethod o;
     notes := notes o; createdBy := createdBy o; createdAt := createdAt o |}.

Definition set_total (v : float) (o : Order) : Order :=
  {| orderNumber := orderNumber o; restaurantId := restaurantId o; tableId := tableId o;
     customerId := customerId o; items := items o; subtotal := subtotal o;
     tax := tax o; discount := discount o; total := v; status := status o;
     paymentStatus := paymentStatus o; paymentMethod := paymentMethod o;
     notes := notes o; createdBy := createdBy o; createdAt := createdAt o |}.

Definition set_status (v : OrderStatus) (o : Order) : Order :=
  {| orderNumber := orderNumber o; restaurantId := restaurantId o; tableId := tableId o;
     customerId := customerId o; items := items o; subtotal := subtotal o;
     tax := tax o; discount := discount o; total := total o; status := v;
     paymentStatus := paymentStatus o; paymentMethod := paymentMethod o;
     notes := notes o; createdBy := createdBy o; createdAt := createdAt o |}.

Definition set_paymentStatus (v : PaymentStatus) (o : Order) : Order :=
  {| orderNumber := orderNumber o; restaurantId := restaurantId o; tableId := tableId o;
     customerId := customerId o; items := items o; subtotal := subtotal o;
     tax := tax o; discount := discount o; total := total o; status := status o;
     paymentStatus := v; paymentMethod := paymentMethod o;
     notes := notes o; createdBy := createdBy o; createdAt := createdAt o |}.

Definition set_notes (v : string) (o : Order) : Order :=
  {| orderNumber := orderNumber o; restaurantId := restaurantId o; tableId := tableId o;
     customerId := customerId o; items := items o; subtotal := subtotal o;
     tax := tax o; discount := discount o; total := total o; status := status o;
     paymentStatus := paymentStatus o; paymentMethod := paymentMethod o;
     notes := Some v; createdBy := createdBy o; createdAt := createdAt o |}.

Definition set_createdAt (v : Date) (o : Order) : Order :=
  {| orderNumber := orderNumber o; restaurantId := restaurantId o; tableId := tableId o;
     customerId := customerId o; items := items o; subtotal := subtotal o;
     tax := tax o; discount := discount o; total := total o; status := status o;
     paymentStatus := paymentStatus o; paymentMethod := paymentMethod o;
     notes := notes o; createdBy := createdBy o; createdAt := v |}.

Definition set_restaurantId (v : string) (o : Order) : Order :=
  {| orderNumber := orderNumber o; restaurantId := v; tableId := tableId o;
     customerId := customerId o; items := items o; subtotal := subtotal o;
     tax := tax o; discount := discount o; total := total o; status := status o;
     paymentStatus := paymentStatus o; paymentMethod := paymentMethod o;
     notes := notes o; createdBy := createdBy o; createdAt := createdAt o |}.

Definition set_tableId (v : string) (o : Order) : Order :=
  {| orderNumber := orderNumber o; restaurantId := restaurantId o; tableId := Some v;
     customerId := customerId o; items := items o; subtotal := subtotal o;
     tax := tax o; discount := discount o; total := total o; status := status o;
     paymentStatus := paymentStatus o; paymentMethod := paymentMethod o;
     notes := notes o; createdBy := createdBy o; createdAt := createdAt o |}.

Definition set_customerId (v : string) (o : Order) : Order :=
  {| orderNumber := orderNumber o; restaurantId := restaurantId o; tableId := tableId o;
     customerId := Some v; items := items o; subtotal := subtotal o;
     tax := tax o; discount := discount o; total := total o; status := status o;
     paymentStatus := paymentStatus o; paymentMethod := paymentMethod o;
     notes := notes o; createdBy := createdBy o; createdAt := createdAt o |}.

Definition set_paymentMethod (v : string) (o : Order) : Order :=
  {| orderNumber := orderNumber o; restaurantId := restaurantId o; tableId := tableId o;
     customerId := customerId o; items := items o; subtotal := subtotal o;
     tax := tax o; discount := discount o; total := total o; status := status o;
     paymentStatus := paymentStatus o; paymentMethod := Some v;
     notes := notes o; createdBy := createdBy o; createdAt := createdAt o |}.

Definition set_createdBy (v : string) (o : Order) : Order :=
  {| orderNumber := orderNumber o; restaurantId := restaurantId o; tableId := tableId o;
     customerId := customerId o; items := items o; subtotal := subtotal o;
     tax := tax o; discount := discount o; total := total o; status := status o;
     paymentStatus := paymentStatus o; paymentMethod := paymentMethod o;
     notes := notes o; createdBy := v; createdAt := createdAt o |}.

(** The collection: stored orders by the canonical text of their
    [_id]. *)
Abbreviation Collection := (gmap string Order).

(** A document in memory: the stored fields together with what the
    persistence library tracks about it ([isNew], the modified
    paths). *)
Record OrderDocument : Type := {
  _id : string;
  fields : Order;
  isNew : bool;
  modifiedPaths : list string
}.

Definition isModified (doc : OrderDocument) (path : string) : bool :=
  includes (modifiedPaths doc) path.

Definition with_fields (doc : OrderDocument) (o : Order) : OrderDocument :=
  {| _id := _id doc; fields := o; isNew := isNew doc;
     modifiedPaths := modifiedPaths doc |}.

(** [countDocuments({ createdAt: { $gte: from, $lte: to }, restaurantId })] *)
Definition countDocuments (db : Collection) (from to : Date) (rid : string) : N :=
  N.of_nat (size (filter (λ kv : string * Order,
                  date_gte (createdAt kv.2) from = true
                  ∧ date_lte (createdAt kv.2) to = true
                  ∧ restaurantId kv.2 = rid) db)).

(** First pre-save hook: generate the order number of a new document.
    [now] is the value [new Date()] reads. *)
Definition preSaveOrderNumber (db : Collection) (now : Date) (doc : OrderDocument)
  : OrderDocument :=
  if isNew doc && negb (truthy (orderNumber (fields doc))) then
    let date := now in
    let year := sliceLast 2 (toString (getFullYear date)) in
    let month := padStart 2 "0" (toString (getMonth date + 1)%N) in
    let day := padStart 2 "0" (toString (getDate date)) in
    let date := setHours date 0 0 0 0 in
    let todayStart := date in
    let date := setHours date 23 59 59 999 in
    let todayEnd := date in
    let count := countDocuments db todayStart todayEnd (restaurantId (fields doc)) in
    with_fields doc
      (set_orderNumber
         (year +:+ month +:+ day +:+ "-" +:+ padStart 4 "0" (toString (count + 1)%N))
         (fields doc))
  else doc.

(** [items.reduce((sum, item) => sum + (item.price * item.quantity), 0)] *)
Definition itemsSum (l : list OrderItem) : float :=
  fold_left (λ sum item, (sum + price item * quantity item)%float) l 0%float.

(** Second pre-save hook: recompute subtotal and total. *)
Definition preSaveTotal (doc : OrderDocument) : OrderDocument :=
  if isModified doc "items" || isModified doc "subtotal"
     || isModified doc "tax" || isModified doc "discount"
  then
    let o := fields doc in
    let o := if isModified doc "items" then set_subtotal (itemsSum (items o)) o else o in
    let o := set_total (subtotal o + tax o - discount o)%float o in
    with_fields doc o
  else doc.

(** *** The validators of the schema *)

Definition minZero (v : float) : bool := PrimFloat.leb 0 v.

Definition whenSet {A : Type} (valid : A → bool) (v : option A) : bool :=
  match v with
  | Some a => valid a
  | None => true
  end.

(** The validators of [OrderItemSchema]: [menuItemId] and [name] are
    required, [price] is at least 0, [quantity] at least 1, and
    [notes] has at most 200 characters. *)
Definition validItem (it : OrderItem) : bool :=
  negb (bool_decide (menuItemId it = ""))
  && negb (bool_decide (name it = ""))
  && minZero (price it)
  && PrimFloat.leb 1 (quantity it)
  && whenSet (λ s, bool_decide (String.length s ≤ 200)%nat) (itemNotes it).

(** [items]: at least one item, and every item valid. *)
Definition validItems (l : list OrderItem) : bool :=
  bool_decide (0 < length l)%nat && forallb validItem l.

Definition paymentMethods : list string :=
  [ "cash"; "card"; "upi"; "wallet"; "netbanking" ].

Definition validNotes (s : string) : bool :=
  bool_decide (String.length s ≤ 500)%nat.

(** The validators of [OrderSchema] on a document: the required paths
    are there (a required string is not empty), the amounts are at
    least 0, the items are valid, the payment method is one of the
    enum, and the notes have at most 500 characters.  [status] and
    [paymentStatus] are of their enum by their type. *)
Definition validOrder (o : Order) : bool :=
  truthy (orderNumber o)
  && negb (bool_decide (restaurantId o = ""))
  && validItems (items o)
  && minZero (subtotal o)
  && minZero (tax o)
  && minZero (discount o)
  && minZero (total o)
  && whenSet (includes paymentMethods) (paymentMethod o)
  && whenSet validNotes (notes o)
  && negb (bool_decide (createdBy o = "")).

(** The unique index on [orderNumber]: no other document of the
    collection has the number of [o]. *)
Definition uniqueOrderNumber (db : Collection) (id : string) (o : Order) : bool :=
  bool_decide (map_Forall (λ k o', k = id ∨ orderNumber o' ≠ orderNumber o) db).

(** *** Saving a document *)

(** [doc.save()].  The library validates the document as it is handed
    in, all of its paths, before it runs the hooks registered with
    [pre('save')], which run in the order they are registered; the
    [timestamps] option stamps a new document with its creation time.
    Then the document is written: a new document is inserted, which
    fails when the collection has a document of its [_id]; a document
    that is not new is updated, which fails when the collection has it
    no more.  The unique index on [orderNumber] is checked when the
    number is written, that is for a new document and for one whose
    [orderNumber] is modified. *)
Definition save (db : Collection) (now : Date) (doc : OrderDocument)
  : Exc (Collection * OrderDocument) :=
  if negb (validOrder (fields doc)) then Throw "ValidationError"
  else
    let doc := preSaveOrderNumber db now doc in
    let doc := preSaveTotal doc in
    let o := if isNew doc then set_createdAt now (fields doc) else fields doc in
    if isNew doc && bool_decide (is_Some (db !! _id doc))
    then Throw "MongoServerError: E11000 duplicate key"
    else if negb (isNew doc) && bool_decide (db !! _id doc = None)
    then Throw "DocumentNotFoundError"
    else if (isNew doc || isModified doc "orderNumber")
            && negb (uniqueOrderNumber db (_id doc) o)
    then Throw "MongoServerError: E11000 duplicate key"
    else
      Ok (<[ _id doc := o ]> db,
          {| _id := _id doc; fields := o; isNew := false; modifiedPaths := [] |}).

(** *** Queries *)

(** The update a request carries: the paths of the schema that its
    body sets, each with a value of the type of the path (the library
    drops every other key of the body, and [createdAt] with them, which
    cannot be changed once set). *)
Record OrderUpdate : Type := {
  upd__id : option string;
  upd_orderNumber : option string;
  upd_restaurantId : option string;
  upd_tableId : option string;
  upd_customerId : option string;
  upd_items : option (list OrderItem);
  upd_subtotal : option float;
  upd_tax : option float;
  upd_discount : option float;
  upd_total : option float;
  upd_status : option string;
  upd_paymentStatus : option string;
  upd_paymentMethod : option string;
  upd_notes : option string;
  upd_createdBy : option string
}.

Definition setWhen {A : Type} (v : option A) (set : A → Order → Order) (o : Order)
  : Order :=
  match v with
  | Some a => set a o
  | None => o
  end.

(** The validators [runValidators: true] applies to the paths an
    update sets, on the values the cast has given them. *)
Definition validUpdate (u : OrderUpdate) : bool :=
  whenSet (λ s, negb (bool_decide (s = ""))) (upd_orderNumber u)
  && whenSet (λ s, negb (bool_decide (s = ""))) (upd_restaurantId u)
  && whenSet validItems (upd_items u)
  && whenSet minZero (upd_subtotal u)
  && whenSet minZero (upd_tax u)
  && whenSet minZero (upd_discount u)
  && whenSet minZero (upd_total u)
  && whenSet (λ s, bool_decide (is_Some (parseStatus s))) (upd_status u)
  && whenSet (λ s, bool_decide (is_Some (parsePaymentStatus s))) (upd_paymentStatus u)
  && whenSet (includes paymentMethods) (upd_paymentMethod u)
  && whenSet validNotes (upd_notes u).

(** The update applied to a stored order, path by path.  No save hook
    runs here: the stored [subtotal] and [total] change only when the
    update sets them. *)
Definition applyUpdate (u : OrderUpdate) (o : Order) : Order :=
  let o := setWhen (upd_orderNumber u) set_orderNumber o in
  let o := setWhen (upd_restaurantId u) set_restaurantId o in
  let o := setWhen (upd_tableId u) set_tableId o in
  let o := setWhen (upd_customerId u) set_customerId o in
  let o := setWhen (upd_items u) set_items o in
  let o := setWhen (upd_subtotal u) set_subtotal o in
  let o := setWhen (upd_tax u) set_tax o in
  let o := setWhen (upd_discount u) set_discount o in
  let o := setWhen (upd_total u) set_total o in
  let o := setWhen (upd_status u ≫= parseStatus) set_status o in
  let o := setWhen (upd_paymentStatus u ≫= parsePaymentStatus) set_paymentStatus o in
  let o := setWhen (upd_paymentMethod u) set_paymentMethod o in
  let o := setWhen (upd_notes u) set_notes o in
  let o := setWhen (upd_createdBy u) set_createdBy o in
  o.

Section Store.

(** The cast of the persistence library from a string to an object id,
    by the canonical text of the id it gives; [None] for a string that
    does not cast.  Two strings that cast to one id name one
    document. *)
Variable castObjectId : string → option string.

(** The cast of a path of type object id in a query or an update: a
    string that does not cast is a [CastError]. *)
Definition castPath (v : option string) : Exc (option string) :=
  match v with
  | None => Ok None
  | Some s =>
      match castObjectId s with
      | Some id => Ok (Some id)
      | None => Throw "CastError"
      end
  end.

(** The cast of an item of the body to a subdocument: strings are
    trimmed, and a [menuItemId] that does not cast leaves the item
    without one, which the validators report. *)
Definition castItem (it : OrderItem) : OrderItem :=
  {| menuItemId := default "" (castObjectId (menuItemId it));
     name := trim (name it);
     price := price it;
     quantity := quantity it;
     customizations := trim <$> customizations it;
     itemNotes := trim <$> itemNotes it |}.

(** The cast of an update by the schema. *)
Definition castUpdate (u : OrderUpdate) : Exc OrderUpdate :=
  match castPath (upd__id u), castPath (upd_tableId u),
        castPath (upd_customerId u), castPath (upd_createdBy u) with
  | Ok id, Ok table, Ok customer, Ok creator =>
      Ok {| upd__id := id;
            upd_orderNumber := trim <$> upd_orderNumber u;
            upd_restaurantId := upd_restaurantId u;
            upd_tableId := table;
            upd_customerId := customer;
            upd_items := (λ l : list OrderItem, castItem <$> l) <$> upd_items u;
            upd_subtotal := upd_subtotal u;
            upd_tax := upd_tax u;
            upd_discount := upd_discount u;
            upd_total := upd_total u;
            upd_status := upd_status u;
            upd_paymentStatus := upd_paymentStatus u;
            upd_paymentMethod := upd_paymentMethod u;
            upd_notes := trim <$> upd_notes u;
            upd_createdBy := creator |}
  | _, _, _, _ => Throw "CastError"
  end.

(** [Order.findOne({ _id: id, restaurantId: rid })]: the document
    found, with its [_id], or [null]; a [CastError] when [id] does not
    cast. *)
Definition findOne (db : Collection) (id rid : string)
  : Exc (option (string * Order)) :=
  match castObjectId id with
  | None => Throw "CastError"
  | Some key =>
      match db !! key with
      | Some o => if bool_decide (restaurantId o = rid) then Ok (Some (key, o)) else Ok None
      | None => Ok None
      end
  end.

(** [Order.findById(id)] *)
Definition findById (db : Collection) (id : string) : Exc (option Order) :=
  match castObjectId id with
  | None => Throw "CastError"
  | Some key => Ok (db !! key)
  end.

(** An update may name the [_id] of the document it meets, and no
    other: the store refuses to change an [_id]. *)
Definition keepsId (key : string) (u : OrderUpdate) : bool :=
  whenSet (λ id, bool_decide (id = key)) (upd__id u).

(** [Order.findByIdAndUpdate(id, update, { new: true, runValidators: true })]:
    the identifier and the update are cast and the update is validated
    before the store is asked; then the updated order is returned, or
    [null] when there is none.  The store refuses an update that
    changes the [_id], and one that sets an [orderNumber] another
    document has. *)
Definition findByIdAndUpdate (db : Collection) (id : string) (u : OrderUpdate)
  : Exc (Collection * option Order) :=
  match castObjectId id with
  | None => Throw "CastError"
  | Some key =>
      match castUpdate u with
      | Throw e => Throw e
      | Ok u' =>
          if negb (validUpdate u') then Throw "ValidationError"
          else
            match db !! key with
            | None => Ok (db, None)
            | Some o =>
                let o' := applyUpdate u' o in
                if negb (keepsId key u')
                then Throw "MongoServerError: immutable field _id"
                else if bool_decide (is_Some (upd_orderNumber u'))
                        && negb (uniqueOrderNumber db key o')
                then Throw "MongoServerError: E11000 duplicate key"
                else Ok (<[ key := o' ]> db, Some o')
            end
      end
  end.

(** [Order.findByIdAndDelete(id)]: returns the deleted order, or
    [null] when there is none. *)
Definition findByIdAndDelete (db : Collection) (id : string)
  : Exc (Collection * option Order) :=
  match castObjectId id with
  | None => Throw "CastError"
  | Some key => Ok (delete key db, db !! key)
  end.

End Store.

End OrderModel.


(** ** controllers/orderController *)

Module OrderController.
Import Js OrderModel.

Record RequestUser : Type := {
  id : string;
  restaurantId : string
}.

(** A request, with the body of type [B] its route expects. *)
Record Request (B : Type) : Type := {
  user : RequestUser;
  params_id : string;
  body : B
}.

Arguments user {B} _.
Arguments params_id {B} _.
Arguments body {B} _.

(** Modelled from the spec: the class [ErrorResponse]
    (utils/errorResponse) and the wrapper [asyncHandler]
    (middleware/asyncHandler) are not among the sources.  An
    [ErrorResponse] is taken to carry its message and its status code
    (400 for validation and state-machine violations, 404 for a missing
    order), and [asyncHandler] to hand an exception of the handler to
    [next].  A handler ends with
    [res.status(status).json({ success: true, data })], with
    [next(new ErrorResponse(message, statusCode))], or with an
    exception.  The answer carries the order as it is stored:
    [populate], which replaces the references of the answer by the
    documents they name, is left out. *)
Inductive Outcome : Type :=
  | Json (status : nat) (data : option Order)
  | NextError (message : string) (statusCode : nat)
  | NextThrown (e : string).

Section Handlers.

Variable castObjectId : string → option string.

Definition getOrderById (db : Collection) (req : Request unit) : Outcome :=
  match findOne castObjectId db (params_id req) (restaurantId (user req)) with
  | Throw e => NextThrown e
  | Ok None => NextError "Order not found" 404
  | Ok (Some (_, order)) => Json 200 (Some order)
  end.

Definition updateOrder (db : Collection) (req : Request OrderUpdate)
  : Collection * Outcome :=
  match findOne castObjectId db (params_id req) (restaurantId (user req)) with
  | Throw e => (db, NextThrown e)
  | Ok None => (db, NextError "Order not found" 404)
  | Ok (Some (_, order)) =>
      if bool_decide (status order = served) || bool_decide (status order = cancelled)
      then (db, NextError "Cannot update served or cancelled orders" 400)
      else
        match findByIdAndUpdate castObjectId db (params_id req) (body req) with
        | Throw e => (db, NextThrown e)
        | Ok (db', order') => (db', Json 200 order')
        end
  end.

Definition validTransitions (s : OrderStatus) : list OrderStatus :=
  match s with
  | pending => [ confirmed; cancelled ]
  | confirmed => [ preparing; cancelled ]
  | preparing => [ ready; cancelled ]
  | ready => [ served ]
  | served => []
  | cancelled => []
  end.

(** The body carries the requested [status], if any.  Assigning a
    string to [order.status] casts it through the schema's enum, and
    [order.save()] saves the document found, with [status] its one
    modified path. *)
Definition updateOrderStatus (db : Collection) (now : Date)
    (req : Request (option string)) : Collection * Outcome :=
  let status' := body req in
  if negb (truthy status') then (db, NextError "Status is required" 400)
  else
    let newStatus := default "" status' in
    match findOne castObjectId db (params_id req) (restaurantId (user req)) with
    | Throw e => (db, NextThrown e)
    | Ok None => (db, NextError "Order not found" 404)
    | Ok (Some (key, order)) =>
        if negb (includes (statusName <$> validTransitions (status order)) newStatus)
        then
          (db, NextError ("Cannot change status from " +:+ statusName (status order)
                          +:+ " to " +:+ newStatus) 400)
        else
          match parseStatus newStatus with
          | None => (db, NextThrown "ValidationError")
          | Some st =>
              let doc := {| _id := key; fields := set_status st order;
                            isNew := false; modifiedPaths := [ "status" ] |} in
              match save db now doc with
              | Throw e => (db, NextThrown e)
              | Ok (db', doc') => (db', Json 200 (Some (fields doc')))
              end
          end
    end.

Definition deleteOrder (db : Collection) (req : Request unit)
  : Collection * Outcome :=
  match findOne castObjectId db (params_id req) (restaurantId (user req)) with
  | Throw e => (db, NextThrown e)
  | Ok None => (db, NextError "Order not found" 404)
  | Ok (Some (_, order)) =>
      if bool_decide (status order ≠ pending) && bool_decide (status order ≠ cancelled)
      then (db, NextError "Can only delete pending or cancelled orders" 400)
      else
        match findByIdAndDelete castObjectId db (params_id req) with
        | Throw e => (db, NextThrown e)
        | Ok (db', _) => (db', Json 200 None)
        end
  end.

End Handlers.

End OrderController.


(** ** services/orderService *)

Module OrderService.
Import Js OrderModel.

(** The service's result envelope. *)
Inductive ApiResponse : Type :=
  | Success (data : option Order)
  | Failure (code message : string).

Section Service.

(** [mongoose.Types.ObjectId.isValid], and the cast of the persistence
    library from a string to an object id. *)
Variable isValid : string → bool.
Variable castObjectId : string → option string.

Definition getOrderById (db : Collection) (orderId : string) : ApiResponse :=
  if negb (isValid orderId) then Failure "INVALID_ID" "Invalid order ID format"
  else
    match findById castObjectId db orderId with
    | Throw e => Failure "ORDER_FETCH_ERROR" e
    | Ok None => Failure "ORDER_NOT_FOUND" "Order not found"
    | Ok (Some order) => Success (Some order)
    end.

Definition updateOrder (db : Collection) (orderId : string) (updates : OrderUpdate)
  : Collection * ApiResponse :=
  if negb (isValid orderId) then (db, Failure "INVALID_ID" "Invalid order ID format")
  else
    match findByIdAndUpdate castObjectId db orderId updates with
    | Throw e => (db, Failure "ORDER_UPDATE_ERROR" e)
    | Ok (db', None) => (db', Failure "ORDER_NOT_FOUND" "Order not found")
    | Ok (db', Some order) => (db', Success (Some order))
    end.

Definition deleteOrder (db : Collection) (orderId : string)
  : Collection * ApiResponse :=
  if negb (isValid orderId) then (db, Failure "INVALID_ID" "Invalid order ID format")
  else
    match findByIdAndDelete castObjectId db orderId with
    | Throw e => (db, Failure "ORDER_DELETE_ERROR" e)
    | Ok (db', None) => (db', Failure "ORDER_NOT_FOUND" "Order not found")
    | Ok (db', Some _) => (db', Success None)
    end.

End Service.

End OrderService.


(** ** routes/orders: the routes that change the status of an order and
    delete one *)

Module OrdersRoutes.
Import Js OrderModel.

(** A request as it reaches the route's own middleware.  The router's
    first middleware, [protect], is not among the sources; what it
    leaves in [req.user] is what this request carries. *)
Record RouteRequest (B : Type) : Type := {
  user : option Auth.User;
  params_id : string;
  body : B
}.

Arguments user {B} _.
Arguments params_id {B} _.
Arguments body {B} _.

(** The answer of the route: that of [authorize], or that of the
    handler. *)
Inductive RouteOutcome : Type :=
  | Denied (status : nat) (code : string)
  | Handled (outcome : OrderController.Outcome).

(** The request the handler sees, [req.user] being [u]. *)
Definition handlerRequest {B : Type} (u : Auth.User) (req : RouteRequest B)
  : OrderController.Request B :=
  {| OrderController.user :=
       {| OrderController.id := Auth._id u;
          OrderController.restaurantId := Auth.restaurantId u |};
     OrderController.params_id := params_id req;
     OrderController.body := body req |}.

(** [authorize(...roles), handler]: the handler runs when [authorize]
    calls [next()]; it reads [req.user.id] and [req.user.restaurantId],
    which throws when there is no [req.user]. *)
Definition authorized {B : Type} (roles : list string)
    (handler : Collection → OrderController.Request B → Collection * OrderController.Outcome)
    (db : Collection) (req : RouteRequest B) : Collection * RouteOutcome :=
  match Auth.authorize roles
          {| Auth.user := user req; Auth.additionalAuthHeader := None |} with
  | Auth.Respond status code => (db, Denied status code)
  | Auth.Next =>
      match user req with
      | None => (db, Handled (OrderController.NextThrown "TypeError"))
      | Some u =>
          let '(db', outcome) := handler db (handlerRequest u req) in
          (db', Handled outcome)
      end
  end.

Section Routes.

Variable castObjectId : string → option string.

(** [router.patch('/:id/status', authorize('admin', 'manager', 'waiter', 'kitchen'), updateOrderStatus)] *)
Definition patchStatus (now : Date) (db : Collection) (req : RouteRequest (option string))
  : Collection * RouteOutcome :=
  authorized [ "admin"; "manager"; "waiter"; "kitchen" ]
    (λ db' req', OrderController.updateOrderStatus castObjectId db' now req') db req.

(** [router.delete('/:id', authorize('admin', 'manager'), deleteOrder)] *)
Definition deleteRoute (db : Collection) (req : RouteRequest unit)
  : Collection * RouteOutcome :=
  authorized [ "admin"; "manager" ] (OrderController.deleteOrder castObjectId) db req.

End Routes.

(** The route answered with [res.status(200).json(...)]. *)
Definition answered200 (out : RouteOutcome) : bool :=
  match out with
  | Handled (OrderController.Json _ _) => true
  | _ => false
  end.

End OrdersRoutes.


(** ** Decimal digits, as the specification counts them *)

Module Decimal.
Import Js.

(** [fixedDigits width n]: the [width] low-order decimal digits of [n],
    most significant first. *)
Fixpoint fixedDigits (width : nat) (n : N) : string :=
  match width with
  | O => ""
  | S w => fixedDigits w (n / 10) +:+ String (digitChar (n mod 10)) ""
  end.

Fixpoint pow10 (width : nat) : N :=
  match width with
  | O => 1
  | S w => 10 * pow10 w
  end.

(** Reading a decimal numeral back: the value of the digits, most
    significant first. *)
Definition digitValue (c : ascii) : N := (N_of_ascii c - 48)%N.

Fixpoint parseFrom (value : N) (s : string) : N :=
  match s with
  | EmptyString => value
  | String c rest => parseFrom (value * 10 + digitValue c) rest
  end.

Definition parseDecimal (s : string) : N := parseFrom 0 s.

End Decimal.


(** ** The specification's vocabulary for orders

    These definitions follow the words of the specification; the
    properties of Part II compare the program with them. *)

Module OrderSpec.
Import Js Decimal OrderModel.

(** The status transition table. *)
Inductive Transition : OrderStatus → OrderStatus → Prop :=
  | pending_confirmed : Transition pending confirmed
  | pending_cancelled : Transition pending cancelled
  | confirmed_preparing : Transition confirmed preparing
  | confirmed_cancelled : Transition confirmed cancelled
  | preparing_ready : Transition preparing ready
  | preparing_cancelled : Transition preparing cancelled
  | ready_served : Transition ready served.

(** A date whose fields are those of a calendar day and a time of
    day. *)
Definition calendarDate (d : Date) : Prop :=
  (getMonth d < 12 ∧ 1 ≤ getDate d ∧ getDate d ≤ 31 ∧ getHours d < 24
   ∧ getMinutes d < 60 ∧ getSeconds d < 60 ∧ getMilliseconds d < 1000)%N.

Definition sameLocalDay (a b : Date) : Prop :=
  getFullYear a = getFullYear b ∧ getMonth a = getMonth b ∧ getDate a = getDate b.

#[global] Instance sameLocalDay_dec (a b : Date) : Decision (sameLocalDay a b).
Proof. unfold sameLocalDay. apply _. Defined.

(** The number of orders of tenant [rid] created within the local
    calendar day of [day]. *)
Definition ordersCreatedOn (db : Collection) (rid : string) (day : Date) : N :=
  N.of_nat (size (filter (λ kv : string * Order,
                            restaurantId kv.2 = rid
                            ∧ sameLocalDay (createdAt kv.2) day) db)).

(** [YYMMDD-NNNN]: two-digit year, month and day, a hyphen, and the
    sequence number on four digits. *)
Definition orderNumberFormat (day : Date) (sequence : N) : string :=
  fixedDigits 2 (getFullYear day) +:+ fixedDigits 2 (getMonth day + 1)
  +:+ fixedDigits 2 (getDate day) +:+ "-" +:+ fixedDigits 4 sequence.

(** The sum of [price × quantity] over the items, taken in their
    order, added to [sum]. *)
Fixpoint lineTotals (sum : float) (l : list OrderItem) : float :=
  match l with
  | [] => sum
  | it :: rest => lineTotals (sum + price it * quantity it) rest
  end.

(** The sequence number read back from an order number: the value of
    the numeral that follows its first seven characters. *)
Definition sequenceOf (number : string) : N :=
  parseDecimal (String.substring 7 (String.length number - 7) number).

End OrderSpec.


(** ** Requests to the order routes, handled one after the other *)

Module OrderCalls.
Import Js OrderModel OrderController.

(** A request to one of the routes that change an order:
    [PUT /:id], [PATCH /:id/status] (with the time at which it is
    handled) and [DELETE /:id]. *)
Inductive Call : Type :=
  | PutOrder (req : Request OrderUpdate)
  | PatchStatus (now : Date) (req : Request (option string))
  | DeleteOrder (req : Request unit).

Definition caller (c : Call) : RequestUser :=
  match c with
  | PutOrder req => user req
  | PatchStatus _ req => user req
  | DeleteOrder req => user req
  end.

Definition target (c : Call) : string :=
  match c with
  | PutOrder req => params_id req
  | PatchStatus _ req => params_id req
  | DeleteOrder req => params_id req
  end.

Definition isPut (c : Call) : bool :=
  match c with
  | PutOrder _ => true
  | _ => false
  end.

Section Calls.

Variable castObjectId : string → option string.

Definition handle (db : Collection) (c : Call) : Collection * Outcome :=
  match c with
  | PutOrder req => updateOrder castObjectId db req
  | PatchStatus now req => updateOrderStatus castObjectId db now req
  | DeleteOrder req => deleteOrder castObjectId db req
  end.

Fixpoint handleAll (db : Collection) (calls : list Call) : Collection * list Outcome :=
  match calls with
  | [] => (db, [])
  | c :: rest =>
      let '(db', out) := handle db c in
      let '(db'', outs) := handleAll db' rest in
      (db'', out :: outs)
  end.

End Calls.

(** The handler answered with [res.status(200).json(...)]. *)
Definition succeeded (out : Outcome) : bool :=
  match out with
  | Json _ _ => true
  | _ => false
  end.

(** The number of requests granted, among the answers given. *)
Definition granted (outs : list Outcome) : nat :=
  length (List.filter succeeded outs).

(** The number of requests an order in a given status can still be
    granted when none of them is a [PUT]: the longest way through the
    transition table, with the deletion of a pending or cancelled
    order as a last step. *)
Definition grantsLeft (st : option OrderStatus) : nat :=
  match st with
  | Some pending => 4
  | Some confirmed => 3
  | Some preparing => 2
  | Some ready => 1
  | Some served => 0
  | Some cancelled => 1
  | None => 0
  end.

End OrderCalls.


(** ** Sample data, for the instances the properties are run on *)

Module Sample.
Import Js Auth.

(** A token library that knows two tokens for user ["u1"] and the
    operation ["user:delete"]: one issued at second 1714557600, and one
    whose payload has no issued-at time. *)
Definition sample_jwt_verify (token : string) : Exc AdditionalAuthClaims :=
  if bool_decide (token = "signed-token")
  then Ok {| userId := "u1"; operation := "user:delete"; iat := Some 1714557600%Z |}
  else if bool_decide (token = "signed-token-without-iat")
  then Ok {| userId := "u1"; operation := "user:delete"; iat := None |}
  else Throw "JsonWebTokenError: invalid signature".

Definition sample_user : User :=
  {| _id := "u1"; role := "admin"; permissions := Some []; restaurantId := "";
     isActive := true; updatedAt := 1714000000000 |}.

Definition sample_request : AuthRequest :=
  {| user := Some sample_user; additionalAuthHeader := Some "signed-token" |}.

(** A user store that holds a manager and a waiter, and throws on an
    identifier it cannot cast. *)
Definition sample_manager : User :=
  {| _id := "u2"; role := "manager"; permissions := Some [];
     restaurantId := "r1"; isActive := true; updatedAt := 1714000000000 |}.

Definition sample_waiter : User :=
  {| _id := "u3"; role := "waiter"; permissions := Some [];
     restaurantId := "r1"; isActive := true; updatedAt := 1714000000000 |}.

Definition sample_findById (userId : string) : Exc (option User) :=
  if bool_decide (userId = "u2") then Ok (Some sample_manager)
  else if bool_decide (userId = "u3") then Ok (Some sample_waiter)
  else if bool_decide (userId = "not-an-id") then Throw "CastError"
  else Ok None.

(** Requests of users of the several roles. *)
Definition user_of (userId userRole : string) (extra : list string) : User :=
  {| _id := userId; role := userRole; permissions := Some extra;
     restaurantId := "T"; isActive := true; updatedAt := 1714000000000 |}.

Definition request_of (userRole : string) : AuthRequest :=
  {| user := Some (user_of "u7" userRole []); additionalAuthHeader := None |}.

(** A token library that knows the access tokens of the manager and of
    the waiter. *)
Definition sample_access_verify (token : string) : Exc AccessClaims :=
  if bool_decide (token = "access-u2")
  then Ok {| claim_id := "u2"; claim_email := "manager@example.com";
             claim_role := "manager"; claim_restaurantId := "r1" |}
  else if bool_decide (token = "access-u3")
  then Ok {| claim_id := "u3"; claim_email := "waiter@example.com";
             claim_role := "waiter"; claim_restaurantId := "r1" |}
  else Throw "JsonWebTokenError: invalid signature".

(** The users collection of the manager and the waiter.  The strings
    that cast to a key are those of two characters, of which the first
    may be written in either case. *)
Definition sample_users : gmap string User :=
  <[ "u2" := sample_manager ]> (<[ "u3" := sample_waiter ]> ∅).

Definition sample_cast (userId : string) : option string :=
  match userId with
  | String c (String d EmptyString) =>
      Some (String (if bool_decide (c = "U"%char) then "u"%char else c)
              (String d EmptyString))
  | _ => None
  end.

End Sample.


Module SampleOrders.
Import Js OrderModel.

Definition at_time (y mo d h mi sec ms : N) : Date :=
  {| getFullYear := y; getMonth := mo; getDate := d; getHours := h;
     getMinutes := mi; getSeconds := sec; getMilliseconds := ms |}.

(** 1 May 2024, 12:30:15.250 local time (months count from 0). *)
Definition may_first_noon : Date := at_time 2024 4 1 12 30 15 250.

Definition tea : OrderItem :=
  {| menuItemId := "65f000000000000000000a01"; name := "Tea"; price := 40;
     quantity := 2; customizations := []; itemNotes := None |}.

Definition cake : OrderItem :=
  {| menuItemId := "65f000000000000000000a02"; name := "Cake"; price := 20;
     quantity := 1; customizations := []; itemNotes := None |}.

Definition scone : OrderItem :=
  {| menuItemId := "65f000000000000000000a03"; name := "Scone"; price := 25;
     quantity := 2; customizations := []; itemNotes := None |}.

(** An order of 100 plus 10 of tax, with its discount and total. *)
Definition order_of (number : option string) (tenant : string) (st : OrderStatus)
    (disc tot : float) (created : Date) : Order :=
  {| orderNumber := number; restaurantId := tenant; tableId := None;
     customerId := None; items := [ tea; cake ]; subtotal := 100; tax := 10;
     discount := disc; total := tot; status := st; paymentStatus := payment_pending;
     paymentMethod := None; notes := None; createdBy := "65f000000000000000000b01";
     createdAt := created |}.

Definition id1 : string := "65f000000000000000000001".
Definition id2 : string := "65f000000000000000000002".
Definition id3 : string := "65f000000000000000000003".
Definition id4 : string := "65f000000000000000000004".
Definition id5 : string := "65f000000000000000000005".

(** Tenant T has two orders on 1 May 2024 and one on the eve; tenant U
    has one on 1 May 2024.  No two orders have one number. *)
Definition first_order : Order :=
  order_of (Some "240501-0001") "T" pending 5 105 (at_time 2024 4 1 0 0 0 0).

Definition served_order : Order :=
  order_of (Some "240501-0002") "T" served 5 105 (at_time 2024 4 1 23 59 59 999).

Definition ready_order : Order :=
  order_of (Some "240430-0001") "T" ready 5 105 (at_time 2024 3 30 23 59 59 999).

Definition other_tenant_order : Order :=
  order_of (Some "240501-0501") "U" cancelled 5 105 (at_time 2024 4 1 10 0 0 0).

Definition sample_orders : Collection :=
  <[ id1 := first_order ]>
  (<[ id2 := served_order ]>
  (<[ id3 := ready_order ]>
  (<[ id4 := other_tenant_order ]> ∅))).

(** A new order of tenant T, not yet numbered. *)
Definition new_order : OrderDocument :=
  {| _id := id5;
     fields := order_of None "T" pending 5 0 may_first_noon;
     isNew := true;
     modifiedPaths := [ "restaurantId"; "items"; "subtotal"; "tax"; "discount";
                        "total"; "createdBy" ] |}.

(** The first order of tenant T, loaded, with its discount set anew. *)
Definition rediscounted (disc : float) : OrderDocument :=
  {| _id := id1;
     fields := order_of (Some "240501-0001") "T" pending disc 105
                 (at_time 2024 4 1 0 0 0 0);
     isNew := false;
     modifiedPaths := [ "discount" ] |}.

(** Requests of a user of tenant [tenant] on the order [id]. *)
Definition request {B : Type} (tenant id : string) (b : B) : OrderController.Request B :=
  {| OrderController.user :=
       {| OrderController.id := "65f000000000000000000b01";
          OrderController.restaurantId := tenant |};
     OrderController.params_id := id;
     OrderController.body := b |}.

Definition no_update : OrderUpdate :=
  {| upd__id := None; upd_orderNumber := None; upd_restaurantId := None;
     upd_tableId := None; upd_customerId := None; upd_items := None;
     upd_subtotal := None; upd_tax := None; upd_discount := None;
     upd_total := None; upd_status := None; upd_paymentStatus := None;
     upd_paymentMethod := None; upd_notes := None; upd_createdBy := None |}.

Definition status_update (st : string) : OrderUpdate :=
  {| upd__id := None; upd_orderNumber := None; upd_restaurantId := None;
     upd_tableId := None; upd_customerId := None; upd_items := None;
     upd_subtotal := None; upd_tax := None; upd_discount := None;
     upd_total := None; upd_status := Some st; upd_paymentStatus := None;
     upd_paymentMethod := None; upd_notes := None; upd_createdBy := None |}.

Definition notes_update (text : string) : OrderUpdate :=
  {| upd__id := None; upd_orderNumber := None; upd_restaurantId := None;
     upd_tableId := None; upd_customerId := None; upd_items := None;
     upd_subtotal := None; upd_tax := None; upd_discount := None;
     upd_total := None; upd_status := None; upd_paymentStatus := None;
     upd_paymentMethod := None; upd_notes := Some text; upd_createdBy := None |}.

Definition discount_update (disc : float) : OrderUpdate :=
  {| upd__id := None; upd_orderNumber := None; upd_restaurantId := None;
     upd_tableId := None; upd_customerId := None; upd_items := None;
     upd_subtotal := None; upd_tax := None; upd_discount := Some disc;
     upd_total := None; upd_status := None; upd_paymentStatus := None;
     upd_paymentMethod := None; upd_notes := None; upd_createdBy := None |}.

Definition items_update (l : list OrderItem) : OrderUpdate :=
  {| upd__id := None; upd_orderNumber := None; upd_restaurantId := None;
     upd_tableId := None; upd_customerId := None; upd_items := Some l;
     upd_subtotal := None; upd_tax := None; upd_discount := None;
     upd_total := None; upd_status := None; upd_paymentStatus := None;
     upd_paymentMethod := None; upd_notes := None; upd_createdBy := None |}.

(** Identifiers of 24 hexadecimal digits are valid object ids. *)
Definition isHexDigit (c : ascii) : bool :=
  let n := N_of_ascii c in
  bool_decide ((48 ≤ n ∧ n ≤ 57) ∨ (97 ≤ n ∧ n ≤ 102) ∨ (65 ≤ n ∧ n ≤ 70))%N.

Fixpoint allHex (s : string) : bool :=
  match s with
  | EmptyString => true
  | String c rest => isHexDigit c && allHex rest
  end.

Definition hex24 (s : string) : bool :=
  bool_decide (String.length s = 24%nat) && allHex s.

(** The cast to an object id: a string of 24 hexadecimal digits casts
    to the id whose text is the string with its letters in lower
    case; no other string casts. *)
Definition lowerCase (c : ascii) : ascii :=
  let n := N_of_ascii c in
  if bool_decide (65 ≤ n ∧ n ≤ 90)%N then ascii_of_N (n + 32) else c.

Fixpoint toLowerCase (s : string) : string :=
  match s with
  | EmptyString => EmptyString
  | String c rest => String (lowerCase c) (toLowerCase rest)
  end.

Definition objectId (s : string) : option string :=
  if hex24 s then Some (toLowerCase s) else None.

(** The first order of tenant T, named with capital letters. *)
Definition id1_capitals : string := "65F000000000000000000001".

(** The first order of tenant T, loaded, with its items set anew. *)
Definition reordered (l : list OrderItem) : OrderDocument :=
  {| _id := id1;
     fields := set_items l first_order;
     isNew := false;
     modifiedPaths := [ "items" ] |}.

(** The new order of tenant T, handed in with a number of its own. *)
Definition numbered_order (number : string) : OrderDocument :=
  {| _id := id5;
     fields := order_of (Some number) "T" pending 5 105 may_first_noon;
     isNew := true;
     modifiedPaths := [ "orderNumber"; "restaurantId"; "items"; "subtotal"; "tax";
                        "discount"; "total"; "createdBy" ] |}.

(** The first order of tenant T as a discount of 200 leaves it: with a
    total of -90. *)
Definition overdiscounted_order : Order :=
  order_of (Some "240501-0001") "T" pending 200 (-90) (at_time 2024 4 1 0 0 0 0).

Definition overdiscounted_orders : Collection :=
  <[ id1 := overdiscounted_order ]> sample_orders.

(** The evening of 1 May 2024. *)
Definition may_first_evening : Date := at_time 2024 4 1 18 0 0 0.

(** Requests of a user of tenant T for the order of tenant U, and one
    for an order of their own. *)
Definition calls_of_T : list OrderCalls.Call :=
  [ OrderCalls.PutOrder (request "T" id4 (notes_update "moved"));
    OrderCalls.PatchStatus may_first_noon (request "T" id4 (Some "confirmed"));
    OrderCalls.DeleteOrder (request "T" id4 ());
    OrderCalls.PatchStatus may_first_noon (request "T" id1 (Some "confirmed")) ].

(** Requests of a user of tenant T and of one of tenant U. *)
Definition sample_calls : list OrderCalls.Call :=
  [ OrderCalls.PutOrder (request "T" id4 (notes_update "moved"));
    OrderCalls.PatchStatus may_first_noon (request "T" id4 (Some "confirmed"));
    OrderCalls.DeleteOrder (request "T" id4 ());
    OrderCalls.PutOrder (request "U" id2 (status_update "pending"));
    OrderCalls.PatchStatus may_first_noon (request "T" id2 (Some "cancelled"));
    OrderCalls.DeleteOrder (request "T" id2 ());
    OrderCalls.PatchStatus may_first_noon (request "T" id1 (Some "confirmed")) ].

(** The first order of tenant T taken through its whole life, with
    requests the handlers refuse in between. *)
Definition life_of_first_order : list OrderCalls.Call :=
  [ OrderCalls.PatchStatus may_first_noon (request "T" id1 (Some "served"));
    OrderCalls.PatchStatus may_first_noon (request "T" id1 (Some "confirmed"));
    OrderCalls.DeleteOrder (request "T" id1 ());
    OrderCalls.PatchStatus may_first_noon (request "T" id1 (Some "preparing"));
    OrderCalls.PatchStatus may_first_noon (request "U" id1 (Some "ready"));
    OrderCalls.PatchStatus may_first_evening (request "T" id1 (Some "ready"));
    OrderCalls.PatchStatus may_first_evening (request "T" id1 (Some "served"));
    OrderCalls.PatchStatus may_first_evening (request "T" id1 (Some "cancelled"));
    OrderCalls.DeleteOrder (request "T" id1 ()) ].

(** Users of tenant T, by role, as the order routes see them. *)
Definition route_user (r : string) : Auth.User :=
  {| Auth._id := "65f000000000000000000b01"; Auth.role := r;
     Auth.permissions := None; Auth.restaurantId := "T";
     Auth.isActive := true; Auth.updatedAt := 1714000000000 |}.

Definition route_request {B : Type} (role' : option string) (id : string) (b : B)
  : OrdersRoutes.RouteRequest B :=
  {| OrdersRoutes.user := route_user <$> role';
     OrdersRoutes.params_id := id;
     OrdersRoutes.body := b |}.

End SampleOrders.


(* ================================================================== *)
(** * Part II: properties                                              *)
(* ================================================================== *)

(** ** Strings and tables *)

Section JsFacts.
Import Js.

Lemma includes_true (l : list string) (s : string) :
  includes l s = true ↔ s ∈ l.
Proof. unfold includes. apply bool_decide_eq_true. Qed.

Lemma includes_false (l : list string) (s : string) :
  includes l s = false ↔ s ∉ l.
Proof. unfold includes. apply bool_decide_eq_false. Qed.

Lemma splitFirst_no_separator (sep : ascii) (s : string) :
  contains sep s = false → splitFirst sep s = s.
Proof.
  induction s as [|c rest IH]; simpl; [done|].
  case_bool_decide; simpl; [done|].
  intros Hrest. by rewrite IH.
Qed.

Lemma truthy_Some (s : string) : s ≠ "" → truthy (Some s) = true.
Proof. intros Hs. simpl. by rewrite bool_decide_eq_false_2. Qed.

End JsFacts.


(** ** Decimal rendering *)

Section DecimalFacts.
Import Js Decimal.

Lemma div10_spec (n : N) :
  ∃ q r : N, (n / 10 = q ∧ n mod 10 = r ∧ n = 10 * q + r ∧ r < 10)%N.
Proof.
  exists (n / 10)%N, (n mod 10)%N. repeat split.
  - apply N.div_mod'.
  - by apply N.mod_lt.
Qed.

Ltac div10 n :=
  let q := fresh "q" in
  let r := fresh "r" in
  let Hq := fresh "Hq" in
  let Hr := fresh "Hr" in
  destruct (div10_spec n) as (q & r & Hq & Hr & ? & ?);
  rewrite ?Hq, ?Hr in *.

Lemma append_cons (x : ascii) (a b : string) :
  String x a +:+ b = String x (a +:+ b).
Proof. reflexivity. Qed.

Lemma append_nil_l (b : string) : "" +:+ b = b.
Proof. reflexivity. Qed.

Lemma append_nil_r (a : string) : a +:+ "" = a.
Proof.
  induction a as [|x a IH]; [done|]. by rewrite append_cons, IH.
Qed.

Lemma append_assoc (a b c : string) : (a +:+ b) +:+ c = a +:+ (b +:+ c).
Proof.
  induction a as [|x a IH]; [done|]. by rewrite !append_cons, IH.
Qed.

Lemma append_length (a b : string) :
  String.length (a +:+ b) = (String.length a + String.length b)%nat.
Proof.
  induction a as [|x a IH]; [done|]. rewrite append_cons. simpl. by rewrite IH.
Qed.

Lemma substring_all (s : string) : String.substring 0 (String.length s) s = s.
Proof. induction s as [|c s IH]; simpl; [done|]. f_equal. exact IH. Qed.

Lemma substring_skip (p s : string) (k : nat) :
  String.substring (String.length p) k (p +:+ s) = String.substring 0 k s.
Proof. induction p as [|c p IH]; [done|]. rewrite append_cons. exact IH. Qed.

Lemma sliceLast_suffix (p s : string) :
  sliceLast (String.length s) (p +:+ s) = s.
Proof.
  unfold sliceLast. rewrite append_length.
  replace (String.length p + String.length s - String.length s)%nat
    with (String.length p) by lia.
  rewrite substring_skip. apply substring_all.
Qed.

Lemma pow10_pos (w : nat) : (0 < pow10 w)%N.
Proof. induction w as [|w IH]; simpl pow10; lia. Qed.

Lemma fixedDigits_length (w : nat) (n : N) : String.length (fixedDigits w n) = w.
Proof.
  revert n. induction w as [|w IH]; intros n; simpl; [done|].
  rewrite append_length, IH. simpl. lia.
Qed.

(** A number below [10^w] has a zero as its digit of weight [10^w]. *)
Lemma fixedDigits_leading_zero (w : nat) (n : N) :
  (n < pow10 w)%N → fixedDigits (S w) n = String "0" (fixedDigits w n).
Proof.
  revert n. induction w as [|w IH]; intros n Hn.
  - simpl in Hn. assert (n = 0%N) as -> by lia. reflexivity.
  - change (fixedDigits (S (S w)) n)
      with (fixedDigits (S w) (n / 10) +:+ String (digitChar (n mod 10)) "").
    rewrite IH; [reflexivity|].
    simpl pow10 in Hn. div10 n. lia.
Qed.

(** The accumulator is kept as the tail of the result. *)
Lemma toStringAux_acc (fuel : nat) (n : N) (acc : string) :
  ∃ front, toStringAux fuel n acc = front +:+ acc.
Proof.
  revert n acc. induction fuel as [|fuel IH]; intros n acc; simpl.
  - by exists "".
  - case_bool_decide.
    + by exists (String (digitChar (n mod 10)) "").
    + destruct (IH (n / 10)%N (String (digitChar (n mod 10)) acc)) as [front ->].
      exists (front +:+ String (digitChar (n mod 10)) "").
      by rewrite append_assoc.
Qed.

(** With fuel for its [w] digits, a [w]-digit number is rendered as its
    [w] low-order digits. *)
Lemma toStringAux_digits (w fuel : nat) (n : N) (acc : string) :
  (S w ≤ fuel)%nat → (n < pow10 (S w))%N → (w = 0%nat ∨ pow10 w ≤ n)%N →
  toStringAux fuel n acc = fixedDigits (S w) n +:+ acc.
Proof.
  revert fuel n acc. induction w as [|w IH]; intros fuel n acc Hfuel Hlt Hge.
  - destruct fuel as [|fuel]; [lia|]. simpl in *.
    rewrite bool_decide_eq_true_2; [done|]. div10 n. lia.
  - destruct Hge as [|Hge]; [lia|].
    destruct fuel as [|fuel]; [lia|].
    change (toStringAux (S fuel) n acc)
      with (let acc' := String (digitChar (n mod 10)) acc in
            if bool_decide (n / 10 = 0)%N then acc'
            else toStringAux fuel (n / 10) acc').
    change (fixedDigits (S (S w)) n)
      with (fixedDigits (S w) (n / 10) +:+ String (digitChar (n mod 10)) "").
    cbv zeta.
    pose proof (pow10_pos w) as Hpos.
    change (pow10 (S (S w))) with (10 * (10 * pow10 w))%N in Hlt.
    change (pow10 (S w)) with (10 * pow10 w)%N in Hge.
    rewrite bool_decide_eq_false_2 by (div10 n; lia).
    rewrite IH.
    + by rewrite append_assoc.
    + lia.
    + change (pow10 (S w)) with (10 * pow10 w)%N. div10 n. lia.
    + right. div10 n. lia.
Qed.

(** The binary size of a number bounds its decimal width. *)
Lemma size_nat_pow10 (w : nat) (p : positive) :
  (pow10 w ≤ Npos p)%N → (w < Pos.size_nat p)%nat.
Proof.
  revert p. induction w as [|w IH]; intros p Hp.
  - destruct p; simpl; lia.
  - change (pow10 (S w)) with (10 * pow10 w)%N in Hp.
    pose proof (pow10_pos w) as Hpos.
    destruct p as [p|p|]; simpl.
    + apply ->Nat.succ_lt_mono. apply IH. lia.
    + apply ->Nat.succ_lt_mono. apply IH. lia.
    + lia.
Qed.

Lemma toString_digits (w : nat) (n : N) :
  (n < pow10 (S w))%N → (w = 0%nat ∨ pow10 w ≤ n)%N →
  toString n = fixedDigits (S w) n.
Proof.
  intros Hlt Hge. unfold toString.
  rewrite (toStringAux_digits w _ n "" ); [| |done|done].
  - apply append_nil_r.
  - destruct Hge as [->|Hge]; [lia|].
    destruct n as [|p]; [pose proof (pow10_pos w); lia|].
    simpl. pose proof (size_nat_pow10 w p Hge). lia.
Qed.

Lemma padStart_length (w : nat) (c : ascii) (s : string) :
  String.length (padStart w c s) = (w `max` String.length s)%nat.
Proof.
  unfold padStart. rewrite append_length.
  assert (∀ k, String.length (repeatChar c k) = k) as ->.
  { induction k as [|k IH]; simpl; [done|]. by rewrite IH. }
  lia.
Qed.

Lemma padStart_succ (w : nat) (c : ascii) (s : string) :
  (String.length s ≤ w)%nat → padStart (S w) c s = String c (padStart w c s).
Proof.
  intros Hlen. unfold padStart.
  replace (S w - String.length s)%nat with (S (w - String.length s)) by lia.
  reflexivity.
Qed.

(** Padding with zeros to [w] places gives the [w] low-order digits of
    a number that has no more than [w] digits. *)
Lemma padStart_fixedDigits (w : nat) (n : N) :
  (n < pow10 (S w))%N → padStart (S w) "0" (toString n) = fixedDigits (S w) n.
Proof.
  induction w as [|w IH]; intros Hlt.
  - rewrite (toString_digits 0 n Hlt) by by left. reflexivity.
  - destruct (decide (pow10 (S w) ≤ n)%N) as [Hge|Hsmall].
    + rewrite (toString_digits (S w) n Hlt) by by right.
      unfold padStart. rewrite fixedDigits_length.
      by replace (S (S w) - S (S w))%nat with 0%nat by lia.
    + assert (n < pow10 (S w))%N as Hlt' by lia.
      specialize (IH Hlt').
      assert (String.length (toString n) ≤ S w)%nat as Hlen.
      { pose proof (padStart_length (S w) "0" (toString n)) as Hpad.
        rewrite IH, fixedDigits_length in Hpad. lia. }
      rewrite (padStart_succ _ _ _ Hlen), IH.
      by rewrite (fixedDigits_leading_zero (S w) n Hlt').
Qed.

(** The last two characters of a number of two digits or more are its
    two low-order digits. *)
Lemma sliceLast_toString (n : N) :
  (10 ≤ n)%N → sliceLast 2 (toString n) = fixedDigits 2 n.
Proof.
  intros Hn. unfold toString.
  destruct n as [|p]; [lia|].
  assert (1 < Pos.size_nat p)%nat as Hsize.
  { apply (size_nat_pow10 1 p). exact Hn. }
  simpl N.size_nat. destruct (Pos.size_nat p) as [|[|fuel]]; [lia|lia|].
  set (m := Npos p) in *.
  change (toStringAux (S (S (S fuel))) m "")
    with (if bool_decide (m / 10 = 0)%N then String (digitChar (m mod 10)) ""
          else toStringAux (S (S fuel)) (m / 10) (String (digitChar (m mod 10)) "")).
  rewrite bool_decide_eq_false_2 by (div10 m; lia).
  change (toStringAux (S (S fuel)) (m / 10) (String (digitChar (m mod 10)) ""))
    with (let acc' := String (digitChar ((m / 10) mod 10))
                        (String (digitChar (m mod 10)) "") in
          if bool_decide (m / 10 / 10 = 0)%N then acc'
          else toStringAux (S fuel) (m / 10 / 10) acc').
  cbv zeta.
  change (fixedDigits 2 m)
    with (String (digitChar ((m / 10) mod 10)) (String (digitChar (m mod 10)) "")).
  set (suffix := String (digitChar ((m / 10) mod 10)) (String (digitChar (m mod 10)) "")).
  case_bool_decide.
  - apply (sliceLast_suffix "" suffix).
  - destruct (toStringAux_acc (S fuel) (m / 10 / 10)%N suffix) as [front ->].
    apply (sliceLast_suffix front suffix).
Qed.

End DecimalFacts.


(** ** The permission engine *)

Section PermissionFacts.
Import Js Auth.

Lemma rolePermissionsOf_unknown (r : string) :
  getProperty ROLE_PERMISSIONS r = Undefined → rolePermissionsOf r = Ok [].
Proof. unfold rolePermissionsOf. by intros ->. Qed.

(** The two static tables have the same keys. *)
Lemma tables_same_keys (r : string) :
  is_Some (ownProperty ROLE_PERMISSIONS r) ↔ is_Some (ownProperty ROLE_HIERARCHY r).
Proof.
  unfold ROLE_PERMISSIONS, ROLE_HIERARCHY. simpl.
  repeat case_bool_decide; split; intros [? ?]; eauto; discriminate.
Qed.

Lemma unknown_in_both_tables (r : string) :
  getProperty ROLE_PERMISSIONS r = Undefined → getProperty ROLE_HIERARCHY r = Undefined.
Proof.
  unfold getProperty. intros H.
  destruct (ownProperty ROLE_PERMISSIONS r) eqn:Hp; [discriminate|].
  destruct (ownProperty ROLE_HIERARCHY r) eqn:Hh.
  - assert (is_Some (ownProperty ROLE_PERMISSIONS r)) as [? ?]
      by (apply tables_same_keys; eauto).
    congruence.
  - by destruct (includes objectPrototypeKeys r).
Qed.

(** Every role of the table has a level of at least 1. *)
Lemma table_level_positive (r : string) (n : Z) :
  ownProperty ROLE_HIERARCHY r = Some n → roleLevelOf r = Num n ∧ (1 ≤ n)%Z.
Proof.
  unfold roleLevelOf, getProperty. intros H. rewrite H.
  unfold ROLE_HIERARCHY in H. simpl in H.
  repeat case_bool_decide; simplify_eq; split; (done || lia).
Qed.

(** What [hasPermission] computes once the role's list is resolved. *)
Lemma hasPermission_resolved (r p : string) (extra : option (list string))
    (rp : list string) :
  r ≠ "admin" → rolePermissionsOf r = Ok rp →
  hasPermission r p extra =
    Ok (includes rp "*" || includes rp p || includes rp (splitFirst ":" p +:+ ":*")
        || from_option (λ ups, includes ups p) false extra).
Proof.
  intros Hr Hrp. unfold hasPermission.
  rewrite bool_decide_eq_false_2 by done. rewrite Hrp. simpl.
  destruct (includes rp "*"); [done|].
  destruct (includes rp p); [done|].
  destruct (includes rp _); [done|].
  destruct extra as [ups|]; simpl; [|done].
  by destruct (includes ups p).
Qed.

Lemma hasPermission_throws (r p : string) (extra : option (list string)) (e : string) :
  r ≠ "admin" → rolePermissionsOf r = Throw e → hasPermission r p extra = Throw e.
Proof.
  intros Hr Hrp. unfold hasPermission.
  rewrite bool_decide_eq_false_2 by done. by rewrite Hrp.
Qed.

End PermissionFacts.


Section PermissionClaims.
Import Js Auth.

(** C8, as stated, fails: C8 says that a permission string without a
    colon is granted only by the admin rule, by ["*"] or an exact match
    in the role's list, or by an exact match in the extra permissions.
    The manager role is granted ["order"], which has no colon, through
    its entry ["order:*"] alone. *)
Lemma hasPermission_no_colon_counterexample :
  contains ":" "order" = false
  ∧ hasPermission "manager" "order" None = Ok true
  ∧ "manager" ≠ "admin"
  ∧ ∃ rp, rolePermissionsOf "manager" = Ok rp ∧ ("*" ∉ rp) ∧ ("order" ∉ rp).
Proof.
  split; [reflexivity|]. split; [reflexivity|]. split; [done|].
  eexists. split; [reflexivity|].
  split; apply includes_false; reflexivity.
Qed.

(** C8, amended: for every permission string that contains no colon
    the resource of the wildcard-resource check is the whole string,
    so [hasPermission] returns true exactly when the role is admin, or
    the role's permission list contains ["*"], the permission itself,
    or the permission followed by [":*"], or the extra permissions
    contain the permission itself. *)
Theorem hasPermission_no_colon (r p : string) (extra : option (list string)) :
  contains ":" p = false →
  hasPermission r p extra = Ok true ↔
    r = "admin"
    ∨ ∃ rp, rolePermissionsOf r = Ok rp
            ∧ ("*" ∈ rp ∨ p ∈ rp ∨ p +:+ ":*" ∈ rp
               ∨ ∃ ups, extra = Some ups ∧ p ∈ ups).
Proof.
  intros Hp. destruct (decide (r = "admin")) as [->|Hr].
  { split; [by left | reflexivity]. }
  destruct (rolePermissionsOf r) as [rp|e] eqn:Hrp.
  - rewrite (hasPermission_resolved r p extra rp Hr Hrp).
    rewrite (splitFirst_no_separator _ _ Hp).
    split.
    + intros [= Hb]. right. exists rp. split; [done|].
      repeat (apply orb_true_iff in Hb as [Hb|Hb]).
      * left. by apply includes_true.
      * right; left. by apply includes_true.
      * right; right; left. by apply includes_true.
      * right; right; right. destruct extra as [ups|]; [|done].
        exists ups. split; [done|]. by apply includes_true.
    + intros [?|(rp' & [= <-] & Hcase)]; [done|]. f_equal.
      destruct Hcase as [H|[H|[H|(ups & -> & H)]]];
        apply includes_true in H; simpl; rewrite H;
        by rewrite ?orb_true_r.
  - rewrite (hasPermission_throws r p extra e Hr Hrp).
    split; [done|]. by intros [?|(rp & ? & _)].
Qed.

Lemma hasPermission_no_colon_witness :
  contains ":" "order" = false
  ∧ (hasPermission "manager" "order" None = Ok true ↔
       "manager" = "admin"
       ∨ ∃ rp, rolePermissionsOf "manager" = Ok rp
               ∧ ("*" ∈ rp ∨ "order" ∈ rp ∨ "order" +:+ ":*" ∈ rp
                  ∨ ∃ ups : list string, None = Some ups ∧ "order" ∈ ups)).
Proof.
  split; [reflexivity|].
  apply (hasPermission_no_colon "manager" "order" None). reflexivity.
Defined.

(** C9, as stated, fails: C9 says that the permission check of a role
    outside the role table fails for every extra-permission set.  The
    role ["guest"] has no entry, and is granted ["order:view"] once the
    extra permissions hold it. *)
Lemma unknown_role_counterexample :
  getProperty ROLE_PERMISSIONS "guest" = Undefined
  ∧ getProperty ROLE_HIERARCHY "guest" = Undefined
  ∧ hasPermission "guest" "order:view" (Some [ "order:view" ]) = Ok true.
Proof. repeat split; reflexivity. Qed.

(** C9, amended: for every role for which the static tables hold
    nothing, the permission check resolves an empty role-permission
    list and the role-level check resolves level 0; [hasPermission]
    returns true exactly when the extra permissions contain the
    requested permission itself, and false otherwise, and
    [requireRoleLevel] answers 403 INSUFFICIENT_ROLE_LEVEL for every
    minimum role of the role table. *)
Theorem unknown_role_checks (r : string) :
  getProperty ROLE_PERMISSIONS r = Undefined →
  rolePermissionsOf r = Ok []
  ∧ roleLevelOf r = Num 0
  ∧ (∀ p extra,
       hasPermission r p extra = Ok (from_option (λ ups, includes ups p) false extra))
  ∧ (∀ minimumRole req u,
       user req = Some u → role u = r →
       is_Some (ownProperty ROLE_HIERARCHY minimumRole) →
       requireRoleLevel minimumRole req = Respond 403 "INSUFFICIENT_ROLE_LEVEL").
Proof.
  intros Hr.
  assert (r ≠ "admin") as Hadmin by (intros ->; discriminate Hr).
  pose proof (rolePermissionsOf_unknown r Hr) as Hrp.
  assert (roleLevelOf r = Num 0) as Hlevel.
  { unfold roleLevelOf. by rewrite (unknown_in_both_tables r Hr). }
  split; [done|]. split; [done|]. split.
  - intros p extra. by rewrite (hasPermission_resolved r p extra [] Hadmin Hrp).
  - intros minimumRole req u Hu <- [n Hn].
    unfold requireRoleLevel. rewrite Hu, Hlevel.
    destruct (table_level_positive minimumRole n Hn) as [-> Hpos].
    simpl. by rewrite bool_decide_eq_true_2 by lia.
Qed.

Lemma unknown_role_checks_witness :
  getProperty ROLE_PERMISSIONS "guest" = Undefined
  ∧ rolePermissionsOf "guest" = Ok []
  ∧ roleLevelOf "guest" = Num 0
  ∧ (∀ p extra,
       hasPermission "guest" p extra
       = Ok (from_option (λ ups, includes ups p) false extra))
  ∧ (∀ minimumRole req u,
       user req = Some u → role u = "guest" →
       is_Some (ownProperty ROLE_HIERARCHY minimumRole) →
       requireRoleLevel minimumRole req = Respond 403 "INSUFFICIENT_ROLE_LEVEL").
Proof.
  split; [reflexivity|].
  apply (unknown_role_checks "guest"). reflexivity.
Defined.

End PermissionClaims.


(** ** The step-up gate *)

Section StepUpClaims.
Import Js Auth.

Variable jwt_verify : string → Exc AdditionalAuthClaims.

(** The gate on a sensitive operation, once the token is verified and
    bound to the caller and the operation: only its age is left. *)
Lemma requireAdditionalAuth_bound (op : string) (now : Z) (req : AuthRequest)
    (u : User) (token : string) (claims : AdditionalAuthClaims) :
  user req = Some u →
  includes SENSITIVE_OPERATIONS op = true →
  additionalAuthHeader req = Some token → token ≠ "" →
  jwt_verify token = Ok claims →
  userId claims = _id u → operation claims = op →
  requireAdditionalAuth jwt_verify op now req =
    match iat claims with
    | Some issuedAt =>
        if bool_decide (now - issuedAt * 1000 > 5 * 60 * 1000)%Z
        then Respond 403 "INVALID_ADDITIONAL_AUTH"
        else Next
    | None => Next
    end.
Proof.
  intros Hu Hop Hhdr Htok Hver Hid Hoper.
  unfold requireAdditionalAuth.
  rewrite Hu, Hop, Hhdr, (truthy_Some token Htok). simpl.
  rewrite Hver. simpl.
  rewrite (bool_decide_eq_false_2 (userId claims ≠ _id u)) by (intros H; by apply H).
  rewrite (bool_decide_eq_false_2 (operation claims ≠ op)) by (intros H; by apply H).
  simpl. destruct (iat claims) as [issuedAt|]; [|done]. by case_bool_decide.
Qed.

(** C6: on a sensitive operation, a presented token that verifies,
    whose identity and operation are the caller's and the requested
    one, and that carries its issued-at second, is answered with 403
    INVALID_ADDITIONAL_AUTH when its age, the time since its issued-at
    second, exceeds 300 seconds, and is let through otherwise; a token
    issued 301 seconds ago is rejected and one issued 299 seconds ago
    is let through. *)
Theorem stepup_token_age (op : string) (now : Z) (req : AuthRequest)
    (u : User) (token : string) (claims : AdditionalAuthClaims) (issuedAt : Z) :
  user req = Some u →
  includes SENSITIVE_OPERATIONS op = true →
  additionalAuthHeader req = Some token → token ≠ "" →
  jwt_verify token = Ok claims →
  userId claims = _id u → operation claims = op →
  iat claims = Some issuedAt →
  ((now - issuedAt * 1000 > 300 * 1000)%Z →
     requireAdditionalAuth jwt_verify op now req = Respond 403 "INVALID_ADDITIONAL_AUTH")
  ∧ ((now - issuedAt * 1000 ≤ 300 * 1000)%Z →
     requireAdditionalAuth jwt_verify op now req = Next)
  ∧ (∀ issued : Z,
       issuedAt = (issued / 1000)%Z →
       (now = issued + 301 * 1000 →
          requireAdditionalAuth jwt_verify op now req
          = Respond 403 "INVALID_ADDITIONAL_AUTH")
       ∧ (now = issued + 299 * 1000 →
          requireAdditionalAuth jwt_verify op now req = Next))%Z.
Proof.
  intros Hu Hop Hhdr Htok Hver Hid Hoper Hiat.
  rewrite (requireAdditionalAuth_bound op now req u token claims) by done.
  rewrite Hiat.
  split; [|split].
  - intros Hage. rewrite bool_decide_eq_true_2; [done | lia].
  - intros Hage. rewrite bool_decide_eq_false_2; [done | lia].
  - intros issued Hissued.
    pose proof (Z.mod_pos_bound issued 1000 ltac:(lia)) as Hmod.
    pose proof (Z.div_mod issued 1000 ltac:(lia)) as Hdiv.
    split; intros ->.
    + rewrite bool_decide_eq_true_2; [done | lia].
    + rewrite bool_decide_eq_false_2; [done | lia].
Qed.

End StepUpClaims.


Section StepUpWitness.
Import Js Auth Sample.

Lemma stepup_token_age_witness :
  requireAdditionalAuth sample_jwt_verify "user:delete" 1714557901000 sample_request
  = Respond 403 "INVALID_ADDITIONAL_AUTH"
  ∧ requireAdditionalAuth sample_jwt_verify "user:delete" 1714557899000 sample_request
    = Next
  ∧ requireAdditionalAuth sample_jwt_verify "user:delete" 1714557900000 sample_request
    = Next.
Proof.
  pose (claims := {| userId := "u1"; operation := "user:delete";
                     iat := Some 1714557600%Z |}).
  split; [|split].
  - apply (stepup_token_age sample_jwt_verify "user:delete" 1714557901000
             sample_request sample_user "signed-token" claims 1714557600);
      (reflexivity || done || (simpl; lia)).
  - apply (stepup_token_age sample_jwt_verify "user:delete" 1714557899000
             sample_request sample_user "signed-token" claims 1714557600);
      (reflexivity || done || (simpl; lia)).
  - apply (stepup_token_age sample_jwt_verify "user:delete" 1714557900000
             sample_request sample_user "signed-token" claims 1714557600);
      (reflexivity || done || (simpl; lia)).
Defined.

End StepUpWitness.


(** ** The coarse additional-auth check *)

Section AuthServiceClaims.
Import Js AuthService.

Variable User_findById : string → Exc (option Auth.User).

Lemma admin_or_manager (r : string) :
  r ∈ [ "admin"; "manager" ] ↔ r = "admin" ∨ r = "manager".
Proof. rewrite !elem_of_cons, elem_of_nil. tauto. Qed.

(** C7: [requireAdditionalAuth userId action] is true exactly when the
    action is one of the sensitive actions and the role of the user
    found is admin or manager; and when the lookup throws, or finds no
    user, it is true whatever the action. *)
Theorem requireAdditionalAuth_fail_safe (userId action : string) :
  (∀ u, User_findById userId = Ok (Some u) →
        requireAdditionalAuth User_findById userId action = true ↔
          action ∈ sensitiveActions ∧ (Auth.role u = "admin" ∨ Auth.role u = "manager"))
  ∧ (∀ e, User_findById userId = Throw e →
          requireAdditionalAuth User_findById userId action = true)
  ∧ (User_findById userId = Ok None →
     requireAdditionalAuth User_findById userId action = true).
Proof.
  unfold requireAdditionalAuth. split; [|split].
  - intros u ->. simpl. rewrite <- admin_or_manager.
    destruct (includes sensitiveActions action) eqn:Ha;
      destruct (includes ["admin"; "manager"] (Auth.role u)) eqn:Hr; simpl.
    + apply includes_true in Ha, Hr. by split.
    + apply includes_false in Hr. split; [done|]. by intros [_ ?].
    + apply includes_false in Ha. split; [done|]. by intros [? _].
    + apply includes_false in Ha. split; [done|]. by intros [? _].
  - by intros e ->.
  - by intros ->.
Qed.

End AuthServiceClaims.


Section AuthServiceWitness.
Import Js AuthService Sample.

Lemma requireAdditionalAuth_fail_safe_witness :
  requireAdditionalAuth sample_findById "u2" "delete_user" = true
  ∧ requireAdditionalAuth sample_findById "u3" "delete_user" = false
  ∧ requireAdditionalAuth sample_findById "u2" "view_menu" = false
  ∧ requireAdditionalAuth sample_findById "not-an-id" "view_menu" = true
  ∧ requireAdditionalAuth sample_findById "u9" "view_menu" = true.
Proof.
  destruct (requireAdditionalAuth_fail_safe sample_findById "u2" "delete_user")
    as (Hmanager & _ & _).
  destruct (requireAdditionalAuth_fail_safe sample_findById "u3" "delete_user")
    as (Hwaiter & _ & _).
  destruct (requireAdditionalAuth_fail_safe sample_findById "u2" "view_menu")
    as (Hmenu & _ & _).
  destruct (requireAdditionalAuth_fail_safe sample_findById "not-an-id" "view_menu")
    as (_ & Hthrows & _).
  destruct (requireAdditionalAuth_fail_safe sample_findById "u9" "view_menu")
    as (_ & _ & Hnone).
  split; [|split; [|split; [|split]]].
  - apply (Hmanager sample_manager); [reflexivity|].
    split; [|by right]. apply includes_true. reflexivity.
  - apply not_true_is_false. intros H.
    apply (Hwaiter sample_waiter) in H; [|reflexivity].
    destruct H as [_ [H|H]]; discriminate H.
  - apply not_true_is_false. intros H.
    apply (Hmenu sample_manager) in H; [|reflexivity].
    destruct H as [H _]. apply includes_true in H. discriminate H.
  - apply (Hthrows "CastError"). reflexivity.
  - apply Hnone. reflexivity.
Defined.

End AuthServiceWitness.


(** ** The order document and its hooks *)

Section OrderModelFacts.
Import Js Decimal OrderModel OrderSpec.

(** An instant lies between the first and the last millisecond of the
    local day of [now] exactly when it is on that day. *)
Lemma day_range (c now : Date) :
  calendarDate c → calendarDate now →
  date_gte c (setHours now 0 0 0 0) = true
  ∧ date_lte c (setHours (setHours now 0 0 0 0) 23 59 59 999) = true
  ↔ sameLocalDay c now.
Proof.
  unfold calendarDate, sameLocalDay, date_gte, date_lte.
  rewrite !bool_decide_eq_true.
  unfold ordinal, dayNumber, millisOfDay, setHours. simpl.
  destruct c, now; simpl. lia.
Qed.

Lemma countDocuments_day (db : Collection) (now : Date) (rid : string) :
  calendarDate now →
  map_Forall (λ _ o, calendarDate (createdAt o)) db →
  countDocuments db (setHours now 0 0 0 0)
    (setHours (setHours now 0 0 0 0) 23 59 59 999) rid
  = ordersCreatedOn db rid now.
Proof.
  intros Hnow Hdb. unfold countDocuments, ordersCreatedOn. do 2 f_equal.
  apply map_filter_ext. intros id o Ho. simpl.
  pose proof (day_range (createdAt o) now (Hdb id o Ho) Hnow) as Hrange.
  tauto.
Qed.

Lemma itemsSum_snoc (l : list OrderItem) (it : OrderItem) :
  itemsSum (l ++ [ it ]) = (itemsSum l + price it * quantity it)%float.
Proof. unfold itemsSum. by rewrite fold_left_app. Qed.

(** The first hook touches the order number alone. *)
Lemma preSaveOrderNumber_cases (db : Collection) (now : Date) (doc : OrderDocument) :
  preSaveOrderNumber db now doc = doc
  ∨ ∃ number,
      preSaveOrderNumber db now doc = with_fields doc (set_orderNumber number (fields doc)).
Proof.
  unfold preSaveOrderNumber.
  destruct (isNew doc && negb (truthy (orderNumber (fields doc)))); eauto.
Qed.

Lemma preSaveOrderNumber_old (db : Collection) (now : Date) (doc : OrderDocument) :
  isNew doc = false → preSaveOrderNumber db now doc = doc.
Proof. unfold preSaveOrderNumber. by intros ->. Qed.

Lemma preSaveTotal_unmodified (doc : OrderDocument) :
  isModified doc "items" = false → isModified doc "subtotal" = false →
  isModified doc "tax" = false → isModified doc "discount" = false →
  preSaveTotal doc = doc.
Proof. unfold preSaveTotal. by intros -> -> -> ->. Qed.

(** The second hook touches the subtotal and the total alone. *)
Lemma preSaveTotal_keeps (doc : OrderDocument) :
  _id (preSaveTotal doc) = _id doc
  ∧ isNew (preSaveTotal doc) = isNew doc
  ∧ orderNumber (fields (preSaveTotal doc)) = orderNumber (fields doc).
Proof.
  unfold preSaveTotal. destruct (_ || _); [|done].
  by destruct (isModified doc "items").
Qed.

(** The validators do not look at the status. *)
Lemma validOrder_set_status (st : OrderStatus) (o : Order) :
  validOrder (set_status st o) = validOrder o.
Proof. reflexivity. Qed.

(** A document without an order number does not pass the validators:
    [save] throws before any hook runs. *)
Lemma save_unnumbered (db : Collection) (now : Date) (doc : OrderDocument) :
  truthy (orderNumber (fields doc)) = false → save db now doc = Throw "ValidationError".
Proof.
  intros Hnone. unfold save, validOrder. by rewrite Hnone.
Qed.

(** A document that passes the validators has a number, and the first
    hook leaves it as it is. *)
Lemma validOrder_numbered (db : Collection) (now : Date) (doc : OrderDocument) :
  validOrder (fields doc) = true →
  truthy (orderNumber (fields doc)) = true ∧ preSaveOrderNumber db now doc = doc.
Proof.
  unfold validOrder. intros Hvalid.
  destruct (truthy (orderNumber (fields doc))) eqn:Hnumber; [|done].
  split; [done|]. unfold preSaveOrderNumber. rewrite Hnumber.
  by rewrite andb_false_r.
Qed.

(** What a successful [save] has done. *)
Lemma save_ok (db db' : Collection) (now : Date) (doc doc' : OrderDocument) :
  save db now doc = Ok (db', doc') →
  validOrder (fields doc) = true
  ∧ db' = <[ _id doc := fields doc' ]> db
  ∧ _id doc' = _id doc ∧ isNew doc' = false
  ∧ fields doc'
    = (if isNew doc then set_createdAt now (fields (preSaveTotal doc))
       else fields (preSaveTotal doc))
  ∧ (if isNew doc then db !! _id doc = None else is_Some (db !! _id doc)).
Proof.
  unfold save.
  destruct (validOrder (fields doc)) eqn:Hvalid; [|done]. cbn [negb].
  destruct (validOrder_numbered db now doc Hvalid) as [_ ->].
  destruct (preSaveTotal_keeps doc) as (Hid & Hnew & _).
  rewrite Hid, Hnew.
  destruct (isNew doc) eqn:Hisnew; cbn [andb orb negb].
  - case_bool_decide as Hthere; [done|].
    destruct (uniqueOrderNumber _ _ _); [|done]. cbn [negb].
    intros [= <- <-]. repeat split; try done.
    by destruct (db !! _id doc) eqn:Hlookup; [destruct Hthere; eauto|].
  - case_bool_decide as Hgone; [done|].
    destruct (isModified _ "orderNumber" && _); [done|].
    intros [= <- <-]. repeat split; try done.
    by destruct (db !! _id doc) eqn:Hlookup; [eauto|].
Qed.

(** Saving a stored document of which only the status was set: the
    document is validated and, when it passes, written as it is. *)
Lemma save_status_only (db : Collection) (now : Date) (id : string) (o : Order) :
  is_Some (db !! id) →
  save db now {| _id := id; fields := o; isNew := false; modifiedPaths := [ "status" ] |}
  = if validOrder o
    then Ok (<[ id := o ]> db,
             {| _id := id; fields := o; isNew := false; modifiedPaths := [] |})
    else Throw "ValidationError".
Proof.
  intros Hthere. unfold save. cbn [fields].
  destruct (validOrder o); [|done]. cbn [negb].
  rewrite preSaveOrderNumber_old by done.
  rewrite preSaveTotal_unmodified by done. cbn [isNew _id andb negb orb].
  rewrite bool_decide_eq_false_2; [done|].
  destruct Hthere as [? ->]. done.
Qed.

(** Saving a stored document whose number was not modified: the
    document is validated, the total hook runs, and the document is
    written. *)
Lemma save_loaded (db : Collection) (now : Date) (doc : OrderDocument) :
  isNew doc = false → is_Some (db !! _id doc) →
  isModified doc "orderNumber" = false → validOrder (fields doc) = true →
  save db now doc
  = Ok (<[ _id doc := fields (preSaveTotal doc) ]> db,
        {| _id := _id doc; fields := fields (preSaveTotal doc); isNew := false;
           modifiedPaths := [] |}).
Proof.
  intros Hold [o Hthere] Hnumber Hvalid. unfold save. rewrite Hvalid. cbn [negb].
  rewrite preSaveOrderNumber_old by done.
  destruct (preSaveTotal_keeps doc) as (-> & -> & _).
  assert (isModified (preSaveTotal doc) "orderNumber" = false) as ->.
  { unfold preSaveTotal. destruct (_ || _); [|done]. exact Hnumber. }
  rewrite Hold. cbn [andb negb orb].
  by rewrite bool_decide_eq_false_2 by (by rewrite Hthere).
Qed.

(** The sum of the items, as the specification words it, is the sum
    the hook folds. *)
Lemma itemsSum_lineTotals (l : list OrderItem) : itemsSum l = lineTotals 0 l.
Proof.
  unfold itemsSum. generalize 0%float as sum.
  induction l as [|it l IH]; intros sum; [done|]. simpl. apply IH.
Qed.

(** The second hook, on a document of which the items, the subtotal,
    the tax or the discount were modified. *)
Lemma preSaveTotal_modified (doc : OrderDocument) :
  isModified doc "items" || isModified doc "subtotal"
  || isModified doc "tax" || isModified doc "discount" = true →
  let o := fields (preSaveTotal doc) in
  items o = items (fields doc)
  ∧ subtotal o = (if isModified doc "items" then lineTotals 0 (items (fields doc))
                  else subtotal (fields doc))
  ∧ tax o = tax (fields doc)
  ∧ discount o = discount (fields doc)
  ∧ total o = (subtotal o + tax o - discount o)%float.
Proof.
  intros Hmod. unfold preSaveTotal. rewrite Hmod. rewrite <- itemsSum_lineTotals.
  by destruct (isModified doc "items").
Qed.

(** A successful [save] of such a document stores the order with its
    total recomputed, without any clamping, and with its subtotal
    recomputed when the items were modified. *)
Lemma save_recomputes (db db' : Collection) (now : Date) (doc doc' : OrderDocument) :
  save db now doc = Ok (db', doc') →
  isModified doc "items" || isModified doc "subtotal"
  || isModified doc "tax" || isModified doc "discount" = true →
  db' !! _id doc = Some (fields doc')
  ∧ items (fields doc') = items (fields doc)
  ∧ subtotal (fields doc')
    = (if isModified doc "items" then lineTotals 0 (items (fields doc))
       else subtotal (fields doc))
  ∧ total (fields doc')
    = (subtotal (fields doc') + tax (fields doc) - discount (fields doc))%float.
Proof.
  intros Hsave Hmod.
  destruct (save_ok _ _ _ _ _ Hsave) as (_ & -> & _ & _ & Hfields & _).
  destruct (preSaveTotal_modified doc Hmod) as (Hitems & Hsub & Htax & Hdisc & Htotal).
  split; [apply lookup_insert_eq|].
  rewrite Hfields.
  destruct (isNew doc); cbn [items subtotal total set_createdAt];
    rewrite Hitems, Hsub, Htotal, Hsub, Htax, Hdisc; done.
Qed.

End OrderModelFacts.

Section OrderNumberFacts.
Import Js Decimal OrderModel OrderSpec.

(** The number the first hook gives a new, unnumbered document. *)
Lemma preSaveOrderNumber_new (db : Collection) (now : Date) (doc : OrderDocument) :
  isNew doc = true → truthy (orderNumber (fields doc)) = false →
  calendarDate now → (10 ≤ getFullYear now)%N →
  map_Forall (λ _ o, calendarDate (createdAt o)) db →
  preSaveOrderNumber db now doc
  = with_fields doc
      (set_orderNumber
         (fixedDigits 2 (getFullYear now) +:+ fixedDigits 2 (getMonth now + 1)
          +:+ fixedDigits 2 (getDate now) +:+ "-"
          +:+ padStart 4 "0"
                (toString (ordersCreatedOn db (restaurantId (fields doc)) now + 1)))
         (fields doc)).
Proof.
  intros Hnew Hnone Hnow Hyear Hdb. unfold preSaveOrderNumber.
  rewrite Hnew, Hnone. simpl andb. cbv iota zeta.
  rewrite (countDocuments_day db now _ Hnow Hdb).
  rewrite (sliceLast_toString _ Hyear).
  destruct Hnow as (Hmonth & Hday1 & Hday31 & _).
  rewrite (padStart_fixedDigits 1 (getMonth now + 1)) by (simpl; lia).
  rewrite (padStart_fixedDigits 1 (getDate now)) by (simpl; lia).
  reflexivity.
Qed.

(** The hook itself computes the number the specification describes:
    the date as two-digit year, month and day, a hyphen, and one more
    than the number of orders of the tenant created within the local
    day, on four digits. *)
Lemma preSaveOrderNumber_format (db : Collection) (now : Date) (doc : OrderDocument) :
  isNew doc = true → truthy (orderNumber (fields doc)) = false →
  calendarDate now → (10 ≤ getFullYear now)%N →
  map_Forall (λ _ o, calendarDate (createdAt o)) db →
  let sequence := (ordersCreatedOn db (restaurantId (fields doc)) now + 1)%N in
  (sequence < 10000)%N →
  orderNumber (fields (preSaveOrderNumber db now doc))
  = Some (orderNumberFormat now sequence).
Proof.
  intros Hnew Hnone Hnow Hyear Hdb sequence Hsequence.
  rewrite (preSaveOrderNumber_new db now doc Hnew Hnone Hnow Hyear Hdb).
  fold sequence. unfold orderNumberFormat.
  by rewrite (padStart_fixedDigits 3 sequence) by exact Hsequence.
Qed.

End OrderNumberFacts.


(** ** The order handlers *)

Section OrderHandlerFacts.
Import Js OrderModel OrderSpec OrderController.

Variable castObjectId : string → option string.

Lemma parseStatus_name (st : OrderStatus) : parseStatus (statusName st) = Some st.
Proof. by destruct st. Qed.

Lemma statusName_inj (a b : OrderStatus) : statusName a = statusName b → a = b.
Proof.
  intros H. pose proof (parseStatus_name a) as Ha.
  rewrite H, parseStatus_name in Ha. congruence.
Qed.

(** The handler's table is the specification's. *)
Lemma validTransitions_spec (a b : OrderStatus) :
  b ∈ validTransitions a ↔ Transition a b.
Proof.
  split.
  - destruct a; simpl; rewrite ?elem_of_cons, elem_of_nil;
      intros H; destruct_or?; subst; (done || constructor).
  - destruct 1; simpl; rewrite ?elem_of_cons; tauto.
Qed.

Lemma includes_validTransitions (a : OrderStatus) (s : string) :
  includes (statusName <$> validTransitions a) s = true
  ↔ ∃ b, s = statusName b ∧ Transition a b.
Proof.
  rewrite includes_true, list_elem_of_fmap.
  split; intros (b & Hb & Ht); exists b; (split; [done|]);
    by apply validTransitions_spec.
Qed.

(** [findOne] finds the order stored under the id its argument casts
    to, when the order is of the restaurant asked for. *)
Lemma findOne_spec (db : Collection) (id rid key : string) (order : Order) :
  findOne castObjectId db id rid = Ok (Some (key, order))
  ↔ castObjectId id = Some key ∧ db !! key = Some order
    ∧ OrderModel.restaurantId order = rid.
Proof.
  unfold findOne. destruct (castObjectId id) as [k|].
  2: { split; [done | by intros [? _]]. }
  destruct (db !! k) as [o|] eqn:Hk.
  2: { split; [done|]. intros ([= <-] & ? & _). congruence. }
  case_bool_decide as Hrid; split.
  - intros [= <- <-]. done.
  - intros ([= <-] & ? & ?). by simplify_eq.
  - done.
  - intros ([= <-] & ? & ?). by simplify_eq.
Qed.

(** [findOne] throws exactly on an id that does not cast. *)
Lemma findOne_throws (db : Collection) (id rid e : string) :
  findOne castObjectId db id rid = Throw e ↔ castObjectId id = None ∧ e = "CastError".
Proof.
  unfold findOne. destruct (castObjectId id) as [k|].
  - split; [|by intros [? _]]. destruct (db !! k); [|done]. by case_bool_decide.
  - split; [by intros [= <-] | by intros [_ ->]].
Qed.

(** [updateOrder] of the controller, on an order it finds served or
    cancelled. *)
Lemma controller_updateOrder_terminal (db : Collection) (req : Request OrderUpdate)
    (key : string) (order : Order) :
  findOne castObjectId db (params_id req) (restaurantId (user req))
  = Ok (Some (key, order)) →
  status order = served ∨ status order = cancelled →
  updateOrder castObjectId db req
  = (db, NextError "Cannot update served or cancelled orders" 400).
Proof.
  intros Hfind Hstatus. unfold updateOrder. rewrite Hfind.
  by destruct Hstatus as [-> | ->].
Qed.

(** [deleteOrder] of the controller, by the status of the order it
    finds. *)
Lemma controller_deleteOrder_by_status (db : Collection) (req : Request unit)
    (key : string) (order : Order) :
  findOne castObjectId db (params_id req) (restaurantId (user req))
  = Ok (Some (key, order)) →
  deleteOrder castObjectId db req =
    if bool_decide (status order = pending ∨ status order = cancelled)
    then (delete key db, Json 200 None)
    else (db, NextError "Can only delete pending or cancelled orders" 400).
Proof.
  intros Hfind. unfold deleteOrder. rewrite Hfind.
  apply findOne_spec in Hfind as (Hcast & _).
  unfold findByIdAndDelete. rewrite Hcast.
  by destruct (status order).
Qed.

(** The cast of an update leaves the paths that are no object ids and
    no strings to trim as they are. *)
Lemma castUpdate_plain (u u' : OrderUpdate) :
  castUpdate castObjectId u = Ok u' →
  upd_status u' = upd_status u ∧ upd_subtotal u' = upd_subtotal u
  ∧ upd_tax u' = upd_tax u ∧ upd_discount u' = upd_discount u
  ∧ upd_total u' = upd_total u.
Proof.
  unfold castUpdate.
  destruct (castPath castObjectId (upd__id u)); [|done].
  destruct (castPath castObjectId (upd_tableId u)); [|done].
  destruct (castPath castObjectId (upd_customerId u)); [|done].
  destruct (castPath castObjectId (upd_createdBy u)); [|done].
  by intros [= <-].
Qed.

(** Reading a path through the setters that do not write it. *)
Ltac through_setWhen :=
  repeat match goal with
         | |- context [status (setWhen ?v ?set ?o)] =>
             replace (status (setWhen v set o)) with (status o) by (by destruct v)
         | |- context [total (setWhen ?v ?set ?o)] =>
             replace (total (setWhen v set o)) with (total o) by (by destruct v)
         end.

Lemma applyUpdate_status (u : OrderUpdate) (o : Order) (st : OrderStatus) :
  upd_status u = Some (statusName st) → status (applyUpdate u o) = st.
Proof.
  intros Hst. unfold applyUpdate. rewrite Hst. cbn [mbind option_bind].
  rewrite parseStatus_name. cbn [setWhen]. through_setWhen. reflexivity.
Qed.

(** An update is stored as it is: where it does not set the total,
    the stored total stays, whatever else the update sets. *)
Lemma applyUpdate_total_kept (u : OrderUpdate) (o : Order) :
  upd_total u = None → total (applyUpdate u o) = total o.
Proof.
  intros Htotal. unfold applyUpdate. rewrite Htotal. cbn [setWhen].
  through_setWhen. reflexivity.
Qed.

(** [findByIdAndUpdate] on the order it finds, with an update the
    library and the store accept. *)
Lemma findByIdAndUpdate_applies (db : Collection) (id key : string) (order : Order)
    (u u' : OrderUpdate) :
  castObjectId id = Some key → db !! key = Some order →
  castUpdate castObjectId u = Ok u' → validUpdate u' = true →
  keepsId key u' = true →
  upd_orderNumber u' = None ∨ uniqueOrderNumber db key (applyUpdate u' order) = true →
  findByIdAndUpdate castObjectId db id u
  = Ok (<[ key := applyUpdate u' order ]> db, Some (applyUpdate u' order)).
Proof.
  intros Hcast Hfind Hupdate Hvalid Hid Hnumber.
  unfold findByIdAndUpdate. rewrite Hcast, Hupdate, Hvalid, Hfind, Hid.
  cbn [negb]. destruct Hnumber as [Hnumber | Hnumber]; rewrite Hnumber.
  - done.
  - by rewrite andb_false_r.
Qed.

(** [updateOrder] of the controller on an order it finds neither
    served nor cancelled, with such an update. *)
Lemma controller_updateOrder_applies (db : Collection) (req : Request OrderUpdate)
    (key : string) (order : Order) (u' : OrderUpdate) :
  castObjectId (params_id req) = Some key → db !! key = Some order →
  OrderModel.restaurantId order = restaurantId (user req) →
  status order ≠ served → status order ≠ cancelled →
  castUpdate castObjectId (body req) = Ok u' → validUpdate u' = true →
  keepsId key u' = true →
  upd_orderNumber u' = None ∨ uniqueOrderNumber db key (applyUpdate u' order) = true →
  updateOrder castObjectId db req
  = (<[ key := applyUpdate u' order ]> db, Json 200 (Some (applyUpdate u' order))).
Proof.
  intros Hcast Hfind Hrid Hserved Hcancelled Hupdate Hvalid Hid Hnumber.
  unfold updateOrder.
  rewrite (proj2 (findOne_spec db _ _ key order)) by done.
  rewrite (bool_decide_eq_false_2 _ Hserved), (bool_decide_eq_false_2 _ Hcancelled).
  cbn [orb].
  by rewrite (findByIdAndUpdate_applies db _ key order (body req) u').
Qed.

End OrderHandlerFacts.

Section OrderControllerClaims.
Import Js OrderModel OrderSpec OrderController.

Variable castObjectId : string → option string.

(** [updateOrderStatus] on an order it finds, asked for a status the
    table allows: the document found is saved with the new status. *)
Lemma updateOrderStatus_allowed (db : Collection) (now : Date)
    (req : Request (option string)) (key : string) (order : Order) (st : OrderStatus) :
  findOne castObjectId db (params_id req) (restaurantId (user req))
  = Ok (Some (key, order)) →
  body req = Some (statusName st) → Transition (status order) st →
  updateOrderStatus castObjectId db now req
  = if validOrder order
    then (<[ key := set_status st order ]> db, Json 200 (Some (set_status st order)))
    else (db, NextThrown "ValidationError").
Proof.
  intros Hfind Hbody Ht. unfold updateOrderStatus. rewrite Hbody.
  rewrite truthy_Some by by destruct st.
  cbn [negb from_option Datatypes.id]. rewrite Hfind.
  rewrite (proj2 (includes_validTransitions (status order) (statusName st)))
    by eauto.
  cbn [negb]. rewrite parseStatus_name.
  apply findOne_spec in Hfind as (_ & Hkey & _).
  rewrite save_status_only by eauto.
  rewrite validOrder_set_status. by destruct (validOrder order).
Qed.


(** C10: on an order it finds neither served nor cancelled,
    [updateOrder] applies an update that sets the status to any status
    at all, whether or not the transition table allows it from the
    order's current status, and stores the order with that status.
    The update is one the library and the store accept: it casts and
    passes the validators, it names no other [_id], and it sets no
    order number that another order has. *)
Theorem updateOrder_sets_any_status (db : Collection) (req : Request OrderUpdate)
    (key : string) (order : Order) (st : OrderStatus) (u' : OrderUpdate) :
  castObjectId (params_id req) = Some key → db !! key = Some order →
  OrderModel.restaurantId order = restaurantId (user req) →
  status order ≠ served → status order ≠ cancelled →
  upd_status (body req) = Some (statusName st) →
  castUpdate castObjectId (body req) = Ok u' → validUpdate u' = true →
  keepsId key u' = true →
  upd_orderNumber u' = None ∨ uniqueOrderNumber db key (applyUpdate u' order) = true →
  ∃ o, updateOrder castObjectId db req = (<[ key := o ]> db, Json 200 (Some o))
       ∧ o = applyUpdate u' order
       ∧ status o = st.
Proof.
  intros Hcast Hkey Hrid Hserved Hcancelled Hst Hupdate Hvalid Hid Hnumber.
  exists (applyUpdate u' order).
  split; [|split; [done|]].
  - by apply controller_updateOrder_applies.
  - apply applyUpdate_status.
    destruct (castUpdate_plain castObjectId _ _ Hupdate) as (-> & _). exact Hst.
Qed.

End OrderControllerClaims.

Section OrderServiceClaims.
Import Js OrderModel OrderSpec OrderService.

Variable isValid : string → bool.
Variable castObjectId : string → option string.

(** [updateOrder] of the order service applies an update the library
    and the store accept to the order it finds whatever the order's
    status, served and cancelled included. *)
Lemma service_updateOrder_any_status (db : Collection) (orderId key : string)
    (order : Order) (updates u' : OrderUpdate) :
  isValid orderId = true → castObjectId orderId = Some key →
  db !! key = Some order →
  castUpdate castObjectId updates = Ok u' → validUpdate u' = true →
  keepsId key u' = true →
  upd_orderNumber u' = None ∨ uniqueOrderNumber db key (applyUpdate u' order) = true →
  updateOrder isValid castObjectId db orderId updates
  = (<[ key := applyUpdate u' order ]> db, Success (Some (applyUpdate u' order))).
Proof.
  intros Hid Hcast Hfind Hupdate Hvalid Hkeeps Hnumber. unfold updateOrder.
  rewrite Hid. cbn [negb].
  by rewrite (findByIdAndUpdate_applies castObjectId db orderId key order updates u').
Qed.

(** [deleteOrder] of the order service deletes the order it finds
    whatever the order's status. *)
Lemma service_deleteOrder_any_status (db : Collection) (orderId key : string)
    (order : Order) :
  isValid orderId = true → castObjectId orderId = Some key →
  db !! key = Some order →
  deleteOrder isValid castObjectId db orderId = (delete key db, Success None).
Proof.
  intros Hid Hcast Hfind. unfold deleteOrder, findByIdAndDelete.
  by rewrite Hid, Hcast, Hfind.
Qed.

End OrderServiceClaims.

Section OrderHandlerWitness.
Import Js OrderModel OrderSpec SampleOrders.



Lemma updateOrder_sets_any_status_witness :
  status first_order = pending
  ∧ ¬ Transition pending served
  ∧ OrderController.updateOrderStatus objectId sample_orders may_first_noon
      (request "T" id1 (Some "served"))
    = (sample_orders, OrderController.NextError
                        "Cannot change status from pending to served" 400)
  ∧ ∃ o, OrderController.updateOrder objectId sample_orders
           (request "T" id1 (status_update "served"))
         = (<[ id1 := o ]> sample_orders, OrderController.Json 200 (Some o))
         ∧ status o = served.
Proof.
  split; [reflexivity|]. split; [by inversion 1|]. split; [reflexivity|].
  destruct (updateOrder_sets_any_status objectId sample_orders
              (request "T" id1 (status_update "served")) id1 first_order served
              (status_update "served"))
    as (o & Hout & _ & Hstatus);
    [reflexivity | reflexivity | reflexivity | done | done | reflexivity
    | reflexivity | reflexivity | reflexivity | by left |].
  exists o. by split.
Defined.

End OrderHandlerWitness.

Section OrderModelDefect.
Import Js Decimal OrderModel OrderSpec SampleOrders.

Lemma sample_orders_calendar :
  map_Forall (λ _ o, calendarDate (createdAt o)) sample_orders.
Proof.
  unfold sample_orders.
  repeat (apply map_Forall_insert_2; [unfold calendarDate; simpl; lia|]).
  apply map_Forall_empty.
Qed.

(** C2, on the inputs where the code departs from it.  The first order
    of tenant T is stored with subtotal 100, tax 10, discount 5 and
    total 105.  [updateOrder] of the controller, asked to set the
    discount to 20, stores the order with discount 20 and the total
    still 105, not 90; asked to set the items to two teas at 40 and
    two scones at 25, it stores them with the subtotal still 100, not
    130.  The same changes saved through a document run the total
    hook: the order is stored with total 90, and with subtotal 130 and
    total 135; and a discount of 200 is stored with total -90. *)
Theorem updateOrder_stale_total :
  sample_orders !! id1 = Some first_order
  ∧ subtotal first_order = 100%float ∧ tax first_order = 10%float
  ∧ discount first_order = 5%float ∧ total first_order = 105%float
  ∧ (∃ o, OrderController.updateOrder objectId sample_orders
            (request "T" id1 (discount_update 20))
          = (<[ id1 := o ]> sample_orders, OrderController.Json 200 (Some o))
          ∧ subtotal o = 100%float ∧ tax o = 10%float ∧ discount o = 20%float
          ∧ total o = 105%float
          ∧ (subtotal o + tax o - discount o)%float = 90%float)
  ∧ (∃ o, OrderController.updateOrder objectId sample_orders
            (request "T" id1 (items_update [ tea; scone ]))
          = (<[ id1 := o ]> sample_orders, OrderController.Json 200 (Some o))
          ∧ items o = [ tea; scone ] ∧ lineTotals 0 (items o) = 130%float
          ∧ subtotal o = 100%float ∧ total o = 105%float)
  ∧ (∃ o doc, save sample_orders may_first_noon (rediscounted 20)
              = Ok (<[ id1 := o ]> sample_orders, doc)
              ∧ subtotal o = 100%float ∧ tax o = 10%float ∧ discount o = 20%float
              ∧ total o = 90%float)
  ∧ (∃ o doc, save sample_orders may_first_noon (reordered [ tea; scone ])
              = Ok (<[ id1 := o ]> sample_orders, doc)
              ∧ items o = [ tea; scone ] ∧ subtotal o = 130%float
              ∧ total o = 135%float)
  ∧ (∃ o doc, save sample_orders may_first_noon (rediscounted 200)
              = Ok (<[ id1 := o ]> sample_orders, doc)
              ∧ discount o = 200%float ∧ total o = (-90)%float).
Proof.
  split; [reflexivity|]. do 4 (split; [reflexivity|]).
  split; [|split; [|split; [|split]]].
  - eexists. split.
    + apply (controller_updateOrder_applies objectId sample_orders
               (request "T" id1 (discount_update 20)) id1 first_order
               (discount_update 20));
        (reflexivity || done || by left).
    + repeat split; reflexivity.
  - eexists. split.
    + apply (controller_updateOrder_applies objectId sample_orders
               (request "T" id1 (items_update [ tea; scone ])) id1 first_order
               (items_update [ tea; scone ]));
        (reflexivity || done || by left).
    + repeat split; reflexivity.
  - eexists _, _. split.
    + apply save_loaded; (reflexivity || by eexists).
    + repeat split; reflexivity.
  - eexists _, _. split.
    + apply save_loaded; (reflexivity || by eexists).
    + repeat split; reflexivity.
  - eexists _, _. split.
    + apply save_loaded; (reflexivity || by eexists).
    + repeat split; reflexivity.
Qed.

(** C5, on the input where the code departs from it.  The new order of
    tenant T comes without an order number, on 1 May 2024, when the
    tenant has two orders of that day.  The hook that generates the
    number gives it 240501-0003, and with that number the document
    passes the validators; but [save] validates the document before
    the hook runs, the number is required, and the save throws: no
    order is stored and no number assigned.  It is so for every
    document without a number. *)
Theorem save_new_order_unnumbered :
  isNew new_order = true ∧ orderNumber (fields new_order) = None
  ∧ ordersCreatedOn sample_orders "T" may_first_noon = 2%N
  ∧ orderNumber (fields (preSaveOrderNumber sample_orders may_first_noon new_order))
    = Some "240501-0003"
  ∧ validOrder (fields (preSaveOrderNumber sample_orders may_first_noon new_order))
    = true
  ∧ save sample_orders may_first_noon new_order = Throw "ValidationError"
  ∧ (∀ db now doc, truthy (orderNumber (fields doc)) = false →
                   save db now doc = Throw "ValidationError").
Proof.
  assert (calendarDate may_first_noon) as Hnoon by (unfold calendarDate; simpl; lia).
  assert (10 ≤ getFullYear may_first_noon)%N as Hyear by (simpl; lia).
  split; [reflexivity|]. split; [reflexivity|]. split; [by vm_compute|].
  split; [|split; [|split]].
  - rewrite (preSaveOrderNumber_format sample_orders may_first_noon new_order
               eq_refl eq_refl Hnoon Hyear sample_orders_calendar);
      by vm_compute.
  - rewrite (preSaveOrderNumber_new sample_orders may_first_noon new_order
               eq_refl eq_refl Hnoon Hyear sample_orders_calendar).
    by vm_compute.
  - by apply save_unnumbered.
  - intros db now doc. apply save_unnumbered.
Qed.

End OrderModelDefect.


Section OrderServiceDefect.
Import Js OrderModel OrderSpec SampleOrders.

(** C3, on the input where the code departs from it: the order with
    identifier [id2] is served, and [updateOrder] of the order service
    applies an update of its notes and stores the result, where
    [updateOrder] of the controller refuses the same update with a 400
    error and leaves the store as it is. *)
Theorem service_updateOrder_served_order :
  sample_orders !! id2 = Some served_order
  ∧ status served_order = served
  ∧ OrderService.updateOrder hex24 objectId sample_orders id2
      (notes_update " no sugar ")
    = (<[ id2 := set_notes "no sugar" served_order ]> sample_orders,
       OrderService.Success (Some (set_notes "no sugar" served_order)))
  ∧ OrderController.updateOrder objectId sample_orders
      (request "T" id2 (notes_update " no sugar "))
    = (sample_orders, OrderController.NextError
                        "Cannot update served or cancelled orders" 400).
Proof.
  split; [reflexivity|]. split; [reflexivity|]. split.
  - apply (service_updateOrder_any_status hex24 objectId sample_orders id2 id2
             served_order (notes_update " no sugar ") (notes_update "no sugar"));
      (reflexivity || by left).
  - apply (controller_updateOrder_terminal objectId sample_orders _ id2 served_order);
      [reflexivity | by left].
Qed.

(** C4, on the input where the code departs from it: the order with
    identifier [id3] is ready, and [deleteOrder] of the order service
    deletes it, where [deleteOrder] of the controller refuses with a
    400 error and leaves the store as it is. *)
Theorem service_deleteOrder_ready_order :
  sample_orders !! id3 = Some ready_order
  ∧ status ready_order = ready
  ∧ OrderService.deleteOrder hex24 objectId sample_orders id3
    = (delete id3 sample_orders, OrderService.Success None)
  ∧ delete id3 sample_orders !! id3 = None
  ∧ OrderController.deleteOrder objectId sample_orders (request "T" id3 ())
    = (sample_orders, OrderController.NextError
                        "Can only delete pending or cancelled orders" 400).
Proof.
  split; [reflexivity|]. split; [reflexivity|]. split; [|split].
  - apply (service_deleteOrder_any_status hex24 objectId sample_orders id3 id3
             ready_order); reflexivity.
  - apply lookup_delete_eq.
  - rewrite (controller_deleteOrder_by_status objectId sample_orders _ id3
               ready_order); reflexivity.
Qed.

End OrderServiceDefect.


(* ================================================================== *)
(** * Part III: further properties of the code                         *)
(* ================================================================== *)

(** ** Permissions: wildcards, extra permissions, listings *)

Section PermissionMore.
Import Js Auth.

Lemma splitFirst_resource (res rest : string) :
  contains ":" res = false → splitFirst ":" (res +:+ ":" +:+ rest) = res.
Proof.
  induction res as [|c res IH]; [done|].
  rewrite append_cons. simpl. case_bool_decide; simpl; [done|].
  intros Hres. by rewrite IH.
Qed.

Lemma rolePermissionsOf_admin : rolePermissionsOf "admin" = Ok [ "*" ].
Proof. reflexivity. Qed.

(** Whether [hasPermission] answers or throws depends on the role
    alone. *)
Lemma hasPermission_answers (r p p' : string) (extra : option (list string)) (b : bool) :
  hasPermission r p extra = Ok b → ∃ b', hasPermission r p' extra = Ok b'.
Proof.
  destruct (decide (r = "admin")) as [->|Hr]; [by exists true|].
  destruct (rolePermissionsOf r) as [rp|e] eqn:Hrp.
  - intros _. rewrite (hasPermission_resolved r p' extra rp Hr Hrp). eauto.
  - by rewrite (hasPermission_throws r p extra e Hr Hrp).
Qed.

(** X1: a role whose permission list holds [res:*] is granted every
    permission [res:action], whatever the action (empty, or with
    colons of its own), when [res] has no colon. *)
Theorem hasPermission_resource_wildcard (r res action : string)
    (extra : option (list string)) (rp : list string) :
  rolePermissionsOf r = Ok rp → res +:+ ":*" ∈ rp → contains ":" res = false →
  hasPermission r (res +:+ ":" +:+ action) extra = Ok true.
Proof.
  intros Hrp Hin Hres.
  destruct (decide (r = "admin")) as [->|Hr]; [reflexivity|].
  rewrite (hasPermission_resolved r _ extra rp Hr Hrp).
  rewrite (splitFirst_resource res action Hres).
  apply includes_true in Hin. rewrite Hin.
  by rewrite orb_true_r.
Qed.

Lemma hasPermission_resource_wildcard_witness :
  hasPermission "manager" "payment:refund:all" None = Ok true
  ∧ hasPermission "manager" "payment:" None = Ok true.
Proof.
  split.
  - apply (hasPermission_resource_wildcard "manager" "payment" "refund:all" None
             [ "order:*"; "table:*"; "menu:*"; "customer:*"; "payment:*";
               "inventory:*"; "employee:view"; "employee:create";
               "employee:update"; "analytics:view"; "reports:view";
               "settings:view"; "settings:update" ]);
      [reflexivity | apply includes_true; reflexivity | reflexivity].
  - apply (hasPermission_resource_wildcard "manager" "payment" "" None
             [ "order:*"; "table:*"; "menu:*"; "customer:*"; "payment:*";
               "inventory:*"; "employee:view"; "employee:create";
               "employee:update"; "analytics:view"; "reports:view";
               "settings:view"; "settings:update" ]);
      [reflexivity | apply includes_true; reflexivity | reflexivity].
Defined.

(** X2: extra permissions are matched literally.  When the role's list
    does not grant a permission, [hasPermission] grants it exactly when
    the extra permissions hold that very string: a wildcard among the
    extra permissions grants nothing but itself. *)
Theorem hasPermission_extras_literal (r p : string) (extra : option (list string))
    (rp : list string) :
  r ≠ "admin" → rolePermissionsOf r = Ok rp →
  "*" ∉ rp → p ∉ rp → splitFirst ":" p +:+ ":*" ∉ rp →
  hasPermission r p extra = Ok true ↔ ∃ ups, extra = Some ups ∧ p ∈ ups.
Proof.
  intros Hr Hrp Hstar Hexact Hwild.
  rewrite (hasPermission_resolved r p extra rp Hr Hrp).
  apply includes_false in Hstar, Hexact, Hwild.
  rewrite Hstar, Hexact, Hwild. simpl.
  destruct extra as [ups|]; simpl.
  - split.
    + intros [= Hin]. exists ups. split; [done|]. by apply includes_true.
    + intros (ups' & [= <-] & Hin). f_equal. by apply includes_true.
  - split; [done|]. by intros (ups & ? & _).
Qed.

Lemma hasPermission_extras_literal_witness :
  hasPermission "customer" "order:delete" (Some [ "order:*"; "*" ]) = Ok false
  ∧ hasPermission "customer" "order:delete" (Some [ "order:delete" ]) = Ok true.
Proof.
  assert (∀ extra,
            hasPermission "customer" "order:delete" extra = Ok true
            ↔ ∃ ups, extra = Some ups ∧ "order:delete" ∈ ups) as Hliteral.
  { intros extra.
    apply (hasPermission_extras_literal "customer" "order:delete" extra
             [ "order:create"; "order:view:own"; "menu:view";
               "profile:view:own"; "profile:update:own" ]);
      [done | reflexivity | | | ]; apply includes_false; reflexivity. }
  split.
  - destruct (hasPermission "customer" "order:delete" (Some [ "order:*"; "*" ]))
      as [[|]|e] eqn:Hres; [|reflexivity|discriminate Hres].
    apply Hliteral in Hres as (ups & [= <-] & Hin).
    apply includes_true in Hin. discriminate Hin.
  - apply Hliteral. eexists. split; [reflexivity|]. apply includes_true. reflexivity.
Defined.

Lemma uniqueFrom_spec (seen l : list string) :
  NoDup (uniqueFrom seen l)
  ∧ ∀ x, x ∈ uniqueFrom seen l ↔ x ∈ l ∧ x ∉ seen.
Proof.
  revert seen. induction l as [|y l IH]; intros seen; simpl.
  - split; [constructor|]. intros x. rewrite elem_of_nil. tauto.
  - destruct (includes seen y) eqn:Hy.
    + apply includes_true in Hy. destruct (IH seen) as [Hnodup Hin].
      split; [done|]. intros x. rewrite Hin, elem_of_cons.
      split; [tauto|]. intros [[->|?] ?]; tauto.
    + apply includes_false in Hy. destruct (IH (y :: seen)) as [Hnodup Hin].
      split.
      * constructor; [|done]. rewrite Hin, elem_of_cons. tauto.
      * intros x. rewrite elem_of_cons, Hin, !elem_of_cons.
        destruct (decide (x = y)) as [->|Hne]; tauto.
Qed.

(** X3: the list [getUserPermissions] returns has no duplicates, holds
    exactly the permissions of the role's list and the extra
    permissions, and every permission in it is granted by
    [hasPermission]. *)
Theorem getUserPermissions_sound (r : string) (extra : option (list string))
    (l : list string) :
  getUserPermissions r extra = Ok l →
  NoDup l
  ∧ (∀ p, p ∈ l ↔ (∃ rp, rolePermissionsOf r = Ok rp ∧ p ∈ rp) ∨ p ∈ default [] extra)
  ∧ (∀ p, p ∈ l → hasPermission r p extra = Ok true).
Proof.
  unfold getUserPermissions, rolePermissionsOf.
  destruct (getProperty ROLE_PERMISSIONS r) as [rp| |] eqn:Hget; simpl; [|done|];
    intros [= <-]; unfold unique.
  - destruct (uniqueFrom_spec [] (rp ++ default [] extra)) as [Hnodup Hin].
    assert (∀ p, p ∈ uniqueFrom [] (rp ++ default [] extra)
                 ↔ (∃ rp', Ok rp = Ok rp' ∧ p ∈ rp') ∨ p ∈ default [] extra) as Hmem.
    { intros p. rewrite Hin, elem_of_app, elem_of_nil. split.
      - intros [[?|?] _]; eauto.
      - intros [(rp' & [= <-] & ?)|?]; tauto. }
    split; [done|]. split; [done|].
    intros p Hp. apply Hmem in Hp.
    destruct (decide (r = "admin")) as [->|Hr]; [reflexivity|].
    rewrite (hasPermission_resolved r p extra rp Hr)
      by (unfold rolePermissionsOf; by rewrite Hget).
    f_equal. destruct Hp as [(rp' & [= <-] & Hp)|Hp].
    + apply includes_true in Hp. rewrite Hp. by rewrite ?orb_true_r.
    + destruct extra as [ups|]; simpl in Hp; [|by apply elem_of_nil in Hp].
      apply includes_true in Hp. simpl. rewrite Hp. by rewrite ?orb_true_r.
  - destruct (uniqueFrom_spec [] ([] ++ default [] extra)) as [Hnodup Hin].
    assert (r ≠ "admin") as Hr by (intros ->; discriminate Hget).
    assert (∀ p, p ∈ uniqueFrom [] ([] ++ default [] extra)
                 ↔ (∃ rp', Ok [] = Ok rp' ∧ p ∈ rp') ∨ p ∈ default [] extra) as Hmem.
    { intros p. rewrite Hin, elem_of_app, !elem_of_nil. split.
      - intros [[?|?] _]; [done | by right].
      - intros [(rp' & [= <-] & Hp)|?]; [by apply elem_of_nil in Hp | tauto]. }
    split; [done|]. split; [done|].
    intros p Hp. apply Hmem in Hp.
    rewrite (hasPermission_resolved r p extra [] Hr)
      by (unfold rolePermissionsOf; by rewrite Hget).
    f_equal. destruct Hp as [(rp' & [= <-] & Hp)|Hp]; [by apply elem_of_nil in Hp|].
    destruct extra as [ups|]; simpl in Hp; [|by apply elem_of_nil in Hp].
    apply includes_true in Hp. simpl. by rewrite Hp.
Qed.

Lemma getUserPermissions_sound_witness :
  getUserPermissions "kitchen" (Some [ "menu:view"; "table:view"; "table:view" ])
  = Ok [ "order:view"; "order:update:status"; "kitchen:view"; "kitchen:update";
         "menu:view"; "inventory:view"; "table:view" ]
  ∧ hasPermission "kitchen" "table:view"
      (Some [ "menu:view"; "table:view"; "table:view" ]) = Ok true.
Proof.
  split; [reflexivity|].
  destruct (getUserPermissions_sound "kitchen"
              (Some [ "menu:view"; "table:view"; "table:view" ])
              [ "order:view"; "order:update:status"; "kitchen:view"; "kitchen:update";
                "menu:view"; "inventory:view"; "table:view" ])
    as (_ & _ & Hgranted); [reflexivity|].
  apply Hgranted. apply includes_true. reflexivity.
Defined.

End PermissionMore.


(** ** Gates on several permissions and on the role level *)

Section GateFacts.
Import Js Auth.

Lemma filterExc_ok {A : Type} (f : A → Exc bool) (g : A → bool) (l : list A) :
  (∀ x, x ∈ l → f x = Ok (g x)) → filterExc f l = Ok (List.filter g l).
Proof.
  induction l as [|x l IH]; intros Hf; simpl; [done|].
  rewrite (Hf x) by apply list_elem_of_here.
  rewrite IH by (intros y Hy; apply Hf; by apply list_elem_of_further).
  reflexivity.
Qed.

Lemma filterExc_throws {A : Type} (f : A → Exc bool) (l : list A) (x : A) (e : string) :
  x ∈ l → (∀ y, y ∈ l → f y = Throw e) → filterExc f l = Throw e.
Proof.
  intros Hx Hf. destruct l as [|y l]; [by apply elem_of_nil in Hx|].
  simpl. by rewrite (Hf y) by apply list_elem_of_here.
Qed.

Lemma someExc_ok {A : Type} (f : A → Exc bool) (g : A → bool) (l : list A) :
  (∀ x, x ∈ l → f x = Ok (g x)) → someExc f l = Ok (existsb g l).
Proof.
  induction l as [|x l IH]; intros Hf; simpl; [done|].
  rewrite (Hf x) by apply list_elem_of_here.
  destruct (g x); [done|]. simpl.
  apply IH. intros y Hy. apply Hf. by apply list_elem_of_further.
Qed.

Lemma someExc_throws {A : Type} (f : A → Exc bool) (l : list A) (x : A) (e : string) :
  x ∈ l → (∀ y, y ∈ l → f y = Throw e) → someExc f l = Throw e.
Proof.
  intros Hx Hf. destruct l as [|y l]; [by apply elem_of_nil in Hx|].
  simpl. by rewrite (Hf y) by apply list_elem_of_here.
Qed.

(** The answers of [hasPermission] for one user: all of them values, or
    all of them the same exception. *)
Lemma hasPermission_uniform (r : string) (extra : option (list string)) :
  (∃ g : string → bool, ∀ p, hasPermission r p extra = Ok (g p))
  ∨ (∃ e, ∀ p, hasPermission r p extra = Throw e).
Proof.
  destruct (decide (r = "admin")) as [->|Hr].
  { left. by exists (λ _, true). }
  destruct (rolePermissionsOf r) as [rp|e] eqn:Hrp.
  - left. eexists (λ p, _). intros p.
    apply (hasPermission_resolved r p extra rp Hr Hrp).
  - right. exists e. intros p. apply (hasPermission_throws r p extra e Hr Hrp).
Qed.

(** X4: for an authenticated user, [requireAllPermissions] lets the
    request through exactly when [hasPermission] grants every listed
    permission, and [requireAnyPermission] exactly when it grants one
    of them; so an empty list lets every user through the first gate
    and no user, an admin included, through the second. *)
Theorem requireAll_requireAny (perms : list string) (req : AuthRequest) (u : User) :
  user req = Some u →
  (requireAllPermissions perms req = Ok Next
   ↔ ∀ p, p ∈ perms → hasPermission (role u) p (permissions u) = Ok true)
  ∧ (requireAnyPermission perms req = Ok Next
     ↔ ∃ p, p ∈ perms ∧ hasPermission (role u) p (permissions u) = Ok true).
Proof.
  intros Hu. unfold requireAllPermissions, requireAnyPermission. rewrite Hu.
  destruct (hasPermission_uniform (role u) (permissions u)) as [[g Hg]|[e He]].
  - rewrite (filterExc_ok _ (λ p, negb (g p)))
      by (intros p _; by rewrite Hg).
    rewrite (someExc_ok _ g) by (intros p _; apply Hg).
    simpl. split.
    + case_bool_decide as Hlen.
      * split; [done|]. intros Hall. exfalso.
        destruct (List.filter (λ p, negb (g p)) perms) as [|p l] eqn:Hfilter;
          [simpl in Hlen; lia|].
        assert (In p (List.filter (λ p, negb (g p)) perms)) as Hp
          by (rewrite Hfilter; by left).
        apply filter_In in Hp as [Hp Hneg].
        apply list_elem_of_In in Hp. specialize (Hall p Hp).
        rewrite Hg in Hall. injection Hall as Hall. by rewrite Hall in Hneg.
      * split; [|done]. intros _ p Hp. rewrite Hg. f_equal.
        destruct (g p) eqn:Hgp; [done|]. exfalso. apply Hlen.
        assert (In p (List.filter (λ p, negb (g p)) perms)) as Hin.
        { apply filter_In. split; [by apply list_elem_of_In | by rewrite Hgp]. }
        destruct (List.filter (λ p, negb (g p)) perms); [done | simpl; lia].
    + destruct (existsb g perms) eqn:Hex; simpl.
      * split; [|done]. intros _.
        apply existsb_exists in Hex as (p & Hp & Hgp).
        exists p. split; [by apply list_elem_of_In|]. by rewrite Hg, Hgp.
      * split; [done|]. intros (p & Hp & Hgranted). exfalso.
        rewrite Hg in Hgranted. injection Hgranted as Hgp.
        assert (existsb g perms = true) as Hex'.
        { apply existsb_exists. exists p. split; [by apply list_elem_of_In | done]. }
        congruence.
  - destruct perms as [|q perms].
    + simpl. split.
      * split; [|done]. intros _ p Hp. by apply elem_of_nil in Hp.
      * split; [done|]. intros (p & Hp & _). by apply elem_of_nil in Hp.
    + rewrite (filterExc_throws _ (q :: perms) q e)
        by (apply list_elem_of_here || (intros p _; by rewrite He)).
      rewrite (someExc_throws _ (q :: perms) q e)
        by (apply list_elem_of_here || (intros p _; apply He)).
      simpl. split.
      * split; [done|]. intros Hall.
        specialize (Hall q (list_elem_of_here _ _)). by rewrite He in Hall.
      * split; [done|]. intros (p & _ & Hgranted). by rewrite He in Hgranted.
Qed.

End GateFacts.


Section GateClaims.
Import Js Auth Sample.

Lemma requireAll_requireAny_witness :
  requireAllPermissions [ "order:view"; "menu:view" ] (request_of "kitchen") = Ok Next
  ∧ requireAnyPermission [ "payment:process"; "menu:view" ] (request_of "kitchen")
    = Ok Next
  ∧ requireAllPermissions [] (request_of "customer") = Ok Next
  ∧ requireAnyPermission [] (request_of "admin") ≠ Ok Next.
Proof.
  split; [|split; [|split]].
  - destruct (requireAll_requireAny [ "order:view"; "menu:view" ] (request_of "kitchen")
                (user_of "u7" "kitchen" []) eq_refl) as [Hall _].
    apply Hall. intros p Hp. rewrite !elem_of_cons, elem_of_nil in Hp.
    destruct Hp as [->|[->|[]]]; reflexivity.
  - destruct (requireAll_requireAny [ "payment:process"; "menu:view" ]
                (request_of "kitchen") (user_of "u7" "kitchen" []) eq_refl)
      as [_ Hany].
    apply Hany. exists "menu:view". split; [|reflexivity].
    apply includes_true. reflexivity.
  - destruct (requireAll_requireAny [] (request_of "customer")
                (user_of "u7" "customer" []) eq_refl) as [Hall _].
    apply Hall. intros p Hp. by apply elem_of_nil in Hp.
  - intros Hany.
    destruct (requireAll_requireAny [] (request_of "admin")
                (user_of "u7" "admin" []) eq_refl) as [_ Hiff].
    apply Hiff in Hany as (p & Hp & _). by apply elem_of_nil in Hp.
Defined.

Lemma roleLevelOf_cases (r : string) :
  match getProperty ROLE_HIERARCHY r with
  | Own n => roleLevelOf r = Num n ∧ (1 ≤ n)%Z
  | Inherited => roleLevelOf r = Obj (inheritedText r)
  | Undefined => roleLevelOf r = Num 0
  end.
Proof.
  unfold roleLevelOf, getProperty.
  destruct (ownProperty ROLE_HIERARCHY r) as [n|] eqn:Hown.
  - destruct (table_level_positive r n Hown) as [_ Hpos].
    split; [|done]. by rewrite bool_decide_eq_false_2 by lia.
  - by destruct (includes objectPrototypeKeys r).
Qed.

(** X5: between two roles of the hierarchy table, [requireRoleLevel]
    lets the request through exactly when the level of the user's role
    is no lower than that of the minimum role, and answers 403
    INSUFFICIENT_ROLE_LEVEL exactly when it is lower. *)
Theorem requireRoleLevel_table (minimumRole : string) (req : AuthRequest) (u : User)
    (n m : Z) :
  user req = Some u →
  ownProperty ROLE_HIERARCHY (role u) = Some n →
  ownProperty ROLE_HIERARCHY minimumRole = Some m →
  (requireRoleLevel minimumRole req = Next ↔ (m ≤ n)%Z)
  ∧ (requireRoleLevel minimumRole req = Respond 403 "INSUFFICIENT_ROLE_LEVEL"
     ↔ (n < m)%Z).
Proof.
  intros Hu Hn Hm. unfold requireRoleLevel. rewrite Hu.
  destruct (table_level_positive _ _ Hn) as [-> _].
  destruct (table_level_positive _ _ Hm) as [-> _].
  simpl. case_bool_decide; split; split; (done || lia).
Qed.

Lemma requireRoleLevel_table_witness :
  requireRoleLevel "waiter" (request_of "manager") = Next
  ∧ requireRoleLevel "manager" (request_of "waiter")
    = Respond 403 "INSUFFICIENT_ROLE_LEVEL".
Proof.
  split.
  - apply (requireRoleLevel_table "waiter" (request_of "manager")
             (user_of "u7" "manager" []) 4 3); [reflexivity..|lia].
  - apply (requireRoleLevel_table "manager" (request_of "waiter")
             (user_of "u7" "waiter" []) 3 4); [reflexivity..|lia].
Defined.

(** X6: a minimum role for which the hierarchy table holds nothing
    resolves to level 0, and [requireRoleLevel] then lets every
    authenticated user through, whatever the user's role.  A name every
    object inherits resolves to the inherited member, on either side:
    against a number the comparison is false, so such a minimum role
    lets through every user whose role is no such name, and a user
    whose role is such a name passes the gate of every minimum role
    that is none; between two such names the strings of the two members
    are compared, and the user is refused exactly when the string of
    the user's comes first. *)
Theorem requireRoleLevel_open_gate (minimumRole : string) (req : AuthRequest) (u : User) :
  user req = Some u →
  (getProperty ROLE_HIERARCHY minimumRole = Undefined →
   requireRoleLevel minimumRole req = Next)
  ∧ (getProperty ROLE_HIERARCHY minimumRole = Inherited →
     getProperty ROLE_HIERARCHY (role u) ≠ Inherited →
     requireRoleLevel minimumRole req = Next)
  ∧ (getProperty ROLE_HIERARCHY (role u) = Inherited →
     getProperty ROLE_HIERARCHY minimumRole ≠ Inherited →
     requireRoleLevel minimumRole req = Next)
  ∧ (getProperty ROLE_HIERARCHY (role u) = Inherited →
     getProperty ROLE_HIERARCHY minimumRole = Inherited →
     requireRoleLevel minimumRole req
     = if String.ltb (inheritedText (role u)) (inheritedText minimumRole)
       then Respond 403 "INSUFFICIENT_ROLE_LEVEL"
       else Next).
Proof.
  intros Hu. unfold requireRoleLevel. rewrite Hu.
  pose proof (roleLevelOf_cases (role u)) as Huser.
  pose proof (roleLevelOf_cases minimumRole) as Hmin.
  split; [|split; [|split]].
  - intros Hundefined. rewrite Hundefined in Hmin. rewrite Hmin.
    destruct (getProperty ROLE_HIERARCHY (role u)) as [n| |].
    + destruct Huser as [-> Hn]. simpl. by rewrite bool_decide_eq_false_2 by lia.
    + by rewrite Huser.
    + by rewrite Huser.
  - intros Hinherited Hrole. rewrite Hinherited in Hmin. rewrite Hmin.
    destruct (getProperty ROLE_HIERARCHY (role u)) as [n| |]; [| done |].
    + by destruct Huser as [-> _].
    + by rewrite Huser.
  - intros Hinherited Hrole. rewrite Hinherited in Huser. rewrite Huser.
    destruct (getProperty ROLE_HIERARCHY minimumRole) as [n| |]; [| done |].
    + by destruct Hmin as [-> _].
    + by rewrite Hmin.
  - intros Hrole Hinherited. rewrite Hrole in Huser. rewrite Hinherited in Hmin.
    by rewrite Huser, Hmin.
Qed.

Lemma requireRoleLevel_open_gate_witness :
  requireRoleLevel "supervisor" (request_of "customer") = Next
  ∧ requireRoleLevel "toString" (request_of "admin") = Next
  ∧ requireRoleLevel "admin" (request_of "constructor") = Next
  ∧ requireRoleLevel "toString" (request_of "constructor")
    = Respond 403 "INSUFFICIENT_ROLE_LEVEL"
  ∧ requireRoleLevel "constructor" (request_of "toString") = Next.
Proof.
  split; [|split; [|split; [|split]]].
  - destruct (requireRoleLevel_open_gate "supervisor" (request_of "customer")
                (user_of "u7" "customer" []) eq_refl) as (Hnothing & _).
    apply Hnothing. reflexivity.
  - destruct (requireRoleLevel_open_gate "toString" (request_of "admin")
                (user_of "u7" "admin" []) eq_refl) as (_ & Hminimum & _).
    apply Hminimum; [reflexivity | discriminate].
  - destruct (requireRoleLevel_open_gate "admin" (request_of "constructor")
                (user_of "u7" "constructor" []) eq_refl) as (_ & _ & Hrole & _).
    apply Hrole; [reflexivity | discriminate].
  - destruct (requireRoleLevel_open_gate "toString" (request_of "constructor")
                (user_of "u7" "constructor" []) eq_refl) as (_ & _ & _ & Hboth).
    rewrite Hboth by reflexivity. reflexivity.
  - destruct (requireRoleLevel_open_gate "constructor" (request_of "toString")
                (user_of "u7" "toString" []) eq_refl) as (_ & _ & _ & Hboth).
    rewrite Hboth by reflexivity. reflexivity.
Defined.

End GateClaims.


(** ** The step-up gate and the session check *)

Section SessionFacts.
Import Js Auth.

Variable jwt_verify_stepup : string → Exc AdditionalAuthClaims.

Lemma truthy_inv (s : option string) :
  truthy s = true → ∃ v, s = Some v ∧ v ≠ "".
Proof.
  destruct s as [v|]; simpl; [|done].
  case_bool_decide; [done|]. eauto.
Qed.

(** X7: [requireAdditionalAuth] lets a request through only for an
    authenticated user, and on a sensitive operation only with a token
    that verifies, carries the user's identity and the operation, and,
    when it carries an issued-at time, is no older than 300 seconds by
    it; a token that carries no issued-at time passes whatever its
    age.  Every other request is answered with 401 NO_USER, 403
    ADDITIONAL_AUTH_REQUIRED or, whatever the check that failed, 403
    INVALID_ADDITIONAL_AUTH.  An operation outside the sensitive list
    needs no token. *)
Theorem requireAdditionalAuth_sound (op : string) (now : Z) (req : AuthRequest) :
  (requireAdditionalAuth jwt_verify_stepup op now req = Next
   ↔ ∃ u, user req = Some u
          ∧ (includes SENSITIVE_OPERATIONS op = false
             ∨ ∃ token claims,
                 additionalAuthHeader req = Some token ∧ token ≠ ""
                 ∧ jwt_verify_stepup token = Ok claims
                 ∧ userId claims = _id u ∧ operation claims = op
                 ∧ (iat claims = None
                    ∨ ∃ issuedAt, iat claims = Some issuedAt
                                  ∧ (now - issuedAt * 1000 ≤ 300 * 1000)%Z)))
  ∧ In (requireAdditionalAuth jwt_verify_stepup op now req)
       [ Next; Respond 401 "NO_USER"; Respond 403 "ADDITIONAL_AUTH_REQUIRED";
         Respond 403 "INVALID_ADDITIONAL_AUTH" ].
Proof.
  unfold requireAdditionalAuth.
  destruct (user req) as [u|]; [|split; [|simpl; tauto]].
  2: { split; [done|]. by intros (u & ? & _). }
  destruct (includes SENSITIVE_OPERATIONS op) eqn:Hop.
  2: { split; [|simpl; tauto]. split; [|done]. intros _. exists u. tauto. }
  destruct (truthy (additionalAuthHeader req)) eqn:Hheader; simpl.
  2: { split; [|simpl; tauto]. split; [done|].
       intros (u' & _ & [?|(token & claims & Hsome & Hne & _)]); [done|].
       rewrite Hsome in Hheader. by rewrite (truthy_Some token Hne) in Hheader. }
  apply truthy_inv in Hheader as (token & Hsome & Hne). rewrite Hsome. simpl.
  destruct (jwt_verify_stepup token) as [claims|e] eqn:Hverify; simpl.
  2: { split; [|simpl; tauto]. split; [done|].
       intros (u' & _ & [?|(token' & claims & [= <-] & _ & Hok & _)]); [done|].
       congruence. }
  destruct (decide (userId claims = _id u)) as [Hid|Hid].
  2: { rewrite (bool_decide_eq_true_2 (userId claims ≠ _id u)) by done. simpl.
       split; [|simpl; tauto]. split; [done|].
       intros (u' & [= <-] & [?|(token' & claims' & [= <-] & _ & Hok & Hid' & _)]);
         [done|].
       congruence. }
  rewrite (bool_decide_eq_false_2 (userId claims ≠ _id u)) by (intros H; by apply H).
  destruct (decide (operation claims = op)) as [Hoper|Hoper].
  2: { rewrite (bool_decide_eq_true_2 (operation claims ≠ op)) by done. simpl.
       split; [|simpl; tauto]. split; [done|].
       intros (u' & _ & [?|(token' & claims' & [= <-] & _ & Hok & _ & Hoper' & _)]);
         [done|].
       congruence. }
  rewrite (bool_decide_eq_false_2 (operation claims ≠ op)) by (intros H; by apply H).
  simpl. destruct (iat claims) as [issuedAt|] eqn:Hiat.
  2: { split; [|simpl; tauto]. split; [|done]. intros _.
       exists u. split; [done|]. right. exists token, claims.
       repeat split; try done. by left. }
  case_bool_decide as Hage; simpl.
  - split; [|simpl; tauto]. split; [done|].
    intros (u' & _ & [?|(token' & claims' & [= <-] & _ & Hok & _ & _ & Hfresh)]);
      [done|].
    assert (claims' = claims) as -> by congruence.
    destruct Hfresh as [Hnone | (issuedAt' & Hsome' & Hfresh)]; [congruence|].
    assert (issuedAt' = issuedAt) as -> by congruence. lia.
  - split; [|simpl; tauto]. split; [|done]. intros _.
    exists u. split; [done|]. right. exists token, claims.
    repeat split; try done. right. exists issuedAt. split; [done | lia].
Qed.

Lemma split_head (sep : ascii) (s : string) :
  ∃ pieces, split sep s = splitFirst sep s :: pieces.
Proof.
  induction s as [|c s [pieces IH]]; simpl; [by exists []|].
  case_bool_decide; [by eexists|]. rewrite IH. by eexists.
Qed.

Lemma split_at_separator (sep : ascii) (a b : string) :
  contains sep a = false → split sep (a +:+ String sep b) = a :: split sep b.
Proof.
  induction a as [|c a IH]; intros Ha.
  - rewrite append_nil_l. simpl. by rewrite bool_decide_eq_true_2.
  - rewrite append_cons. simpl in *. case_bool_decide; [done|].
    simpl in Ha. by rewrite IH.
Qed.

Lemma startsWith_append (p s : string) : startsWith p (p +:+ s) = true.
Proof.
  unfold startsWith. induction p as [|c p IH].
  - rewrite append_nil_l. by destruct s.
  - rewrite append_cons. simpl. by destruct (ascii_dec c c).
Qed.

(** X8: the bearer token read from an authorization header that is
    ["Bearer"], any characters but spaces, one space and the rest, is
    the rest up to its first space; so a token without spaces sent
    after ["Bearer "] is read back as it is, and the scheme is checked
    by its first six characters alone. *)
Theorem bearerToken_read (scheme rest : string) :
  contains " " scheme = false →
  bearerToken (Some ("Bearer" +:+ scheme +:+ " " +:+ rest))
  = Some (splitFirst " " rest)
  ∧ (contains " " rest = false →
     bearerToken (Some ("Bearer" +:+ scheme +:+ " " +:+ rest)) = Some rest).
Proof.
  intros Hscheme.
  assert (bearerToken (Some ("Bearer" +:+ scheme +:+ " " +:+ rest))
          = Some (splitFirst " " rest)) as Hread.
  { unfold bearerToken. cbn [from_option Datatypes.id].
    assert (truthy (Some ("Bearer" +:+ scheme +:+ " " +:+ rest)) = true) as ->
      by (apply truthy_Some; by rewrite append_cons).
    rewrite startsWith_append.
    cbn [andb].
    rewrite <- append_assoc.
    change (" " +:+ rest) with (String " " rest).
    rewrite split_at_separator.
    - destruct (split_head " " rest) as [pieces ->]. reflexivity.
    - clear -Hscheme. rewrite !append_cons, append_nil_l. simpl.
      exact Hscheme. }
  split; [exact Hread|].
  intros Hrest. by rewrite Hread, (splitFirst_no_separator _ _ Hrest).
Qed.

Lemma bearerToken_read_witness :
  bearerToken (Some "Bearer eyJhbGciOi.eyJpZCI6.c2lnbg") = Some "eyJhbGciOi.eyJpZCI6.c2lnbg"
  ∧ bearerToken (Some "Bearerish abc def") = Some "abc".
Proof.
  split.
  - apply (bearerToken_read "" "eyJhbGciOi.eyJpZCI6.c2lnbg"); reflexivity.
  - apply (bearerToken_read "ish" "abc def"). reflexivity.
Defined.

End SessionFacts.


Section SessionClaims.
Import Js Auth.

Variable jwt_verify : string → Exc AccessClaims.
Variable User_findById : string → Exc (option User).

(** What [authMiddleware] does with a bearer token it has read. *)
Lemma authMiddleware_token (authorization : option string) (token : string) :
  bearerToken authorization = Some token → token ≠ "" →
  authMiddleware jwt_verify User_findById authorization
  = match jwt_verify token with
    | Throw _ => (Respond 401 "INVALID_TOKEN", None)
    | Ok decoded =>
        match User_findById (claim_id decoded) with
        | Throw _ => (Respond 401 "INVALID_TOKEN", None)
        | Ok None => (Respond 401 "USER_NOT_FOUND", None)
        | Ok (Some u) =>
            if isActive u then (Next, Some u)
            else (Respond 401 "USER_INACTIVE", Some u)
        end
    end.
Proof.
  intros Htoken Hne. unfold authMiddleware.
  rewrite Htoken, (truthy_Some token Hne). simpl.
  destruct (jwt_verify token) as [decoded|e]; simpl; [|done].
  destruct (User_findById (claim_id decoded)) as [[u|]|e]; simpl; [|done|done].
  by destruct (isActive u).
Qed.

(** X9: [authMiddleware] calls [next()] exactly when the header yields
    a bearer token that verifies and whose subject is found and
    active, and it then leaves that user in [req.user]; every other
    request is answered 401, with NO_TOKEN, INVALID_TOKEN (also when
    the user lookup throws), USER_NOT_FOUND or USER_INACTIVE. *)
Theorem authMiddleware_sound (authorization : option string) :
  ((authMiddleware jwt_verify User_findById authorization).1 = Next
   ↔ ∃ token decoded u,
       bearerToken authorization = Some token ∧ token ≠ ""
       ∧ jwt_verify token = Ok decoded
       ∧ User_findById (claim_id decoded) = Ok (Some u)
       ∧ isActive u = true
       ∧ (authMiddleware jwt_verify User_findById authorization).2 = Some u)
  ∧ In (authMiddleware jwt_verify User_findById authorization).1
       [ Next; Respond 401 "NO_TOKEN"; Respond 401 "INVALID_TOKEN";
         Respond 401 "USER_NOT_FOUND"; Respond 401 "USER_INACTIVE" ].
Proof.
  destruct (truthy (bearerToken authorization)) eqn:Htruthy.
  - apply truthy_inv in Htruthy as (token & Htoken & Hne).
    rewrite (authMiddleware_token authorization token Htoken Hne).
    destruct (jwt_verify token) as [decoded|e] eqn:Hverify.
    2: { split; [|simpl; tauto]. split; [done|].
         intros (t & d & u & Ht & _ & Hv & _). congruence. }
    destruct (User_findById (claim_id decoded)) as [[u|]|e] eqn:Hfind.
    + destruct (isActive u) eqn:Hactive; (split; [|simpl; tauto]).
      * split; [|done]. intros _. exists token, decoded, u. by rewrite Htoken.
      * split; [done|]. intros (t & d & u' & Ht & _ & Hv & Hf & Ha & _).
        assert (t = token) as -> by congruence.
        assert (d = decoded) as -> by congruence.
        assert (u' = u) as -> by congruence. congruence.
    + split; [|simpl; tauto]. split; [done|].
      intros (t & d & u' & Ht & _ & Hv & Hf & _).
      assert (t = token) as -> by congruence.
      assert (d = decoded) as -> by congruence. congruence.
    + split; [|simpl; tauto]. split; [done|].
      intros (t & d & u' & Ht & _ & Hv & Hf & _).
      assert (t = token) as -> by congruence.
      assert (d = decoded) as -> by congruence. congruence.
  - unfold authMiddleware. rewrite Htruthy. simpl.
    split; [|tauto]. split; [done|].
    intros (t & d & u & Ht & Hne & _).
    rewrite Ht, (truthy_Some t Hne) in Htruthy. done.
Qed.

(** X10: on the bearer token of a request, [authMiddleware] lets the
    request through with a user exactly when [verifyToken] of the
    authentication service returns that user. *)
Theorem authMiddleware_verifyToken (authorization : option string) (token : string)
    (u : User) :
  bearerToken authorization = Some token → token ≠ "" →
  authMiddleware jwt_verify User_findById authorization = (Next, Some u)
  ↔ AuthService.verifyToken jwt_verify User_findById token = Some u.
Proof.
  intros Htoken Hne.
  rewrite (authMiddleware_token authorization token Htoken Hne).
  unfold AuthService.verifyToken.
  destruct (jwt_verify token) as [decoded|e]; simpl; [|done].
  destruct (User_findById (claim_id decoded)) as [[u'|]|e]; simpl; [|done|done].
  destruct (isActive u'); simpl; [|done].
  split; congruence.
Qed.

Lemma roleHierarchyLevel_own (r : string) (n : Z) :
  ownProperty AuthService.roleHierarchy r = Some n →
  AuthService.roleHierarchyLevel r = Some (Num n).
Proof.
  intros Hn. unfold AuthService.roleHierarchyLevel, getProperty. by rewrite Hn.
Qed.

(** X11: [validateRole] throws nothing, and is true exactly when the
    token verifies and either the hierarchy table holds both the role
    of the token and the required role, with a level of the first no
    lower than that of the second, or both roles name a property every
    object inherits and the string of the first member does not come
    before that of the second.  It is false for a token that does not
    verify, for a role for which the table holds nothing on either
    side, and between a role of the table and an inherited name. *)
Theorem validateRole_true (token requiredRole : string) :
  AuthService.validateRole jwt_verify token requiredRole = true
  ↔ ∃ decoded,
      jwt_verify token = Ok decoded
      ∧ ((∃ n m,
            ownProperty AuthService.roleHierarchy (claim_role decoded) = Some n
            ∧ ownProperty AuthService.roleHierarchy requiredRole = Some m
            ∧ (m ≤ n)%Z)
         ∨ (getProperty AuthService.roleHierarchy (claim_role decoded) = Inherited
            ∧ getProperty AuthService.roleHierarchy requiredRole = Inherited
            ∧ String.ltb (inheritedText (claim_role decoded))
                (inheritedText requiredRole) = false)).
Proof.
  unfold AuthService.validateRole.
  destruct (jwt_verify token) as [decoded|e];
    cbv [try_catch mbind Exc_bind].
  2: { split; [done|]. by intros (d & ? & _). }
  unfold AuthService.roleHierarchyLevel, getProperty.
  split.
  - intros Htrue. exists decoded. split; [done|].
    destruct (ownProperty AuthService.roleHierarchy (claim_role decoded)) as [n|];
      destruct (ownProperty AuthService.roleHierarchy requiredRole) as [m|].
    + left. exists n, m. cbv [ge] in Htrue. by case_bool_decide.
    + by destruct (includes objectPrototypeKeys requiredRole).
    + by destruct (includes objectPrototypeKeys (claim_role decoded)).
    + destruct (includes objectPrototypeKeys (claim_role decoded));
        destruct (includes objectPrototypeKeys requiredRole); try done.
      right. cbv [ge] in Htrue. by destruct (String.ltb _ _).
  - intros (d & Hd & Hcase). injection Hd as <-.
    destruct Hcase as [(n & m & -> & -> & Hle) | (Hrole & Hrequired & Hlt)].
    + cbv [ge]. by rewrite bool_decide_eq_true_2.
    + destruct (ownProperty AuthService.roleHierarchy (claim_role decoded)); [done|].
      destruct (ownProperty AuthService.roleHierarchy requiredRole); [done|].
      destruct (includes objectPrototypeKeys (claim_role decoded)); [|done].
      destruct (includes objectPrototypeKeys requiredRole); [|done].
      cbv [ge]. by rewrite Hlt.
Qed.

(** X12: the two checks of the role hierarchy agree on the roles of the
    table: for a token whose role is the user's, [validateRole] is true
    exactly when [requireRoleLevel] lets the request through. *)
Theorem validateRole_requireRoleLevel (token requiredRole : string)
    (decoded : AccessClaims) (req : AuthRequest) (u : User) :
  jwt_verify token = Ok decoded → user req = Some u → role u = claim_role decoded →
  is_Some (ownProperty ROLE_HIERARCHY (role u)) →
  is_Some (ownProperty ROLE_HIERARCHY requiredRole) →
  AuthService.validateRole jwt_verify token requiredRole = true
  ↔ requireRoleLevel requiredRole req = Next.
Proof.
  intros Hverify Hu Hrole [n Hn] [m Hm].
  unfold AuthService.validateRole. rewrite Hverify.
  cbv [try_catch mbind Exc_bind]. rewrite <- Hrole.
  rewrite (roleHierarchyLevel_own (role u) n Hn), (roleHierarchyLevel_own _ m Hm).
  unfold requireRoleLevel. rewrite Hu.
  destruct (table_level_positive _ _ Hn) as [-> _].
  destruct (table_level_positive _ _ Hm) as [-> _].
  cbv [ge lt]. repeat case_bool_decide; split; (done || lia).
Qed.

End SessionClaims.


Section SessionWitness.
Import Js Auth Sample.

Lemma authMiddleware_verifyToken_witness :
  authMiddleware sample_access_verify sample_findById (Some "Bearer access-u2")
  = (Next, Some sample_manager).
Proof.
  apply (authMiddleware_verifyToken sample_access_verify sample_findById
           (Some "Bearer access-u2") "access-u2" sample_manager);
    [reflexivity | done | reflexivity].
Defined.

Lemma validateRole_requireRoleLevel_witness :
  AuthService.validateRole sample_access_verify "access-u2" "waiter" = true
  ∧ AuthService.validateRole sample_access_verify "access-u3" "manager" = false.
Proof.
  split.
  - apply (validateRole_requireRoleLevel sample_access_verify "access-u2" "waiter"
             {| claim_id := "u2"; claim_email := "manager@example.com";
                claim_role := "manager"; claim_restaurantId := "r1" |}
             {| user := Some sample_manager; additionalAuthHeader := None |}
             sample_manager); try reflexivity; by eexists.
  - apply not_true_is_false. intros Htrue.
    apply (validateRole_requireRoleLevel sample_access_verify "access-u3" "manager"
             {| claim_id := "u3"; claim_email := "waiter@example.com";
                claim_role := "waiter"; claim_restaurantId := "r1" |}
             {| user := Some sample_waiter; additionalAuthHeader := None |}
             sample_waiter) in Htrue; try reflexivity; try by eexists.
    discriminate Htrue.
Defined.

End SessionWitness.

(** ** Deactivating and activating an account *)

Section AccountFacts.
Import Js Auth.

Variable castObjectId : string → option string.
Variable otherPathsValid : string → bool.
Variable jwt_verify : string → Exc AccessClaims.

(** The collection holds every user under the user's own [_id]. *)
Definition keyedById (users : gmap string User) : Prop :=
  ∀ k u, users !! k = Some u → _id u = k.

Lemma validUser_set_isActive (u : User) (v : bool) :
  AuthService.validUser otherPathsValid (AuthService.set_isActive v u)
  = AuthService.validUser otherPathsValid u.
Proof. reflexivity. Qed.

(** What a successful [deactivateUser] found and wrote. *)
Lemma deactivateUser_inv (users users' : gmap string User) (now : Z) (userId : string) :
  keyedById users →
  AuthService.deactivateUser castObjectId otherPathsValid users now userId = Ok users' →
  ∃ k u, castObjectId userId = Some k ∧ users !! k = Some u
         ∧ AuthService.validUser otherPathsValid u = true
         ∧ users' = if bool_decide (isActive u = false) then users
                    else <[ k := AuthService.set_updatedAt now
                                   (AuthService.set_isActive false u) ]> users.
Proof.
  intros Hkeyed. unfold AuthService.deactivateUser, AuthService.findById.
  destruct (castObjectId userId) as [k|]; [|done]. simpl.
  destruct (users !! k) as [u|] eqn:Hu; [|done].
  unfold AuthService.assignIsActiveAndSave. rewrite validUser_set_isActive.
  destruct (AuthService.validUser otherPathsValid u) eqn:Hvalid; [|done].
  cbn [negb]. rewrite (Hkeyed k u Hu).
  case_bool_decide as Hwas; intros [= <-]; exists k, u; repeat split; try done.
  - by rewrite bool_decide_eq_true_2.
  - by rewrite bool_decide_eq_false_2.
Qed.

(** X13: once [deactivateUser] has succeeded on a collection that holds
    its users under their [_id], every bearer token whose subject casts
    to the id of that user is answered 401 USER_INACTIVE by
    [authMiddleware], [verifyToken] returns [null] for it, and every
    other user of the collection is as before. *)
Theorem deactivateUser_blocks (users users' : gmap string User) (now : Z)
    (userId : string) :
  keyedById users →
  AuthService.deactivateUser castObjectId otherPathsValid users now userId = Ok users' →
  (∀ authorization token decoded,
     bearerToken authorization = Some token → token ≠ "" →
     jwt_verify token = Ok decoded →
     castObjectId (claim_id decoded) = castObjectId userId →
     (authMiddleware jwt_verify (AuthService.findById castObjectId users')
        authorization).1
     = Respond 401 "USER_INACTIVE"
     ∧ AuthService.verifyToken jwt_verify (AuthService.findById castObjectId users')
         token
       = None)
  ∧ (∀ k, castObjectId userId ≠ Some k → users' !! k = users !! k).
Proof.
  intros Hkeyed Hdeactivate.
  destruct (deactivateUser_inv users users' now userId Hkeyed Hdeactivate)
    as (k & u & Hcast & Hu & _ & ->).
  assert (∃ u', (if bool_decide (isActive u = false) then users
                 else <[ k := AuthService.set_updatedAt now
                                (AuthService.set_isActive false u) ]> users) !! k
                = Some u' ∧ isActive u' = false) as (u' & Hu' & Hinactive).
  { case_bool_decide as Hwas.
    - by exists u.
    - eexists. by rewrite lookup_insert_eq. }
  split.
  - intros authorization token decoded Htoken Hne Hverify Hid.
    rewrite (authMiddleware_token jwt_verify _ authorization token Htoken Hne).
    unfold AuthService.verifyToken. rewrite Hverify. simpl.
    unfold AuthService.findById. rewrite Hid, Hcast, Hu'. simpl.
    by rewrite Hinactive.
  - intros k' Hk'. case_bool_decide; [done|].
    rewrite lookup_insert_ne; [done|]. congruence.
Qed.

(** X14: on a collection that holds its users under their [_id],
    deactivating an active user whose document passes the validators
    and activating the user again both succeed, and give the
    collection back with the user as before but for [updatedAt], which
    is the time of the second save: the collection is as it was only
    if that is the time stamp the user had. *)
Theorem activateUser_restores (users : gmap string User) (now1 now2 : Z)
    (userId k : string) (u : User) :
  keyedById users → castObjectId userId = Some k →
  users !! k = Some u → isActive u = true →
  AuthService.validUser otherPathsValid u = true →
  ∃ users',
    AuthService.deactivateUser castObjectId otherPathsValid users now1 userId = Ok users'
    ∧ AuthService.activateUser castObjectId otherPathsValid users' now2 userId
      = Ok (<[ k := AuthService.set_updatedAt now2 u ]> users)
    ∧ (<[ k := AuthService.set_updatedAt now2 u ]> users = users
       ↔ updatedAt u = now2).
Proof.
  intros Hkeyed Hcast Hu Hactive Hvalid.
  pose proof (Hkeyed k u Hu) as Hid.
  exists (<[ k := AuthService.set_updatedAt now1 (AuthService.set_isActive false u) ]>
            users).
  split; [|split].
  - unfold AuthService.deactivateUser, AuthService.findById.
    rewrite Hcast. simpl. rewrite Hu.
    unfold AuthService.assignIsActiveAndSave.
    rewrite validUser_set_isActive, Hvalid. cbn [negb].
    rewrite Hactive, Hid. by rewrite bool_decide_eq_false_2.
  - unfold AuthService.activateUser, AuthService.findById.
    rewrite Hcast. simpl. rewrite lookup_insert_eq.
    unfold AuthService.assignIsActiveAndSave.
    rewrite validUser_set_isActive.
    change (AuthService.validUser otherPathsValid
              (AuthService.set_updatedAt now1 (AuthService.set_isActive false u)))
      with (AuthService.validUser otherPathsValid u).
    rewrite Hvalid. cbn [negb].
    rewrite bool_decide_eq_false_2 by done.
    cbn [_id AuthService.set_updatedAt AuthService.set_isActive].
    rewrite Hid, insert_insert_eq. do 2 f_equal.
    destruct u; simpl in *. by subst.
  - split.
    + intros Hsame.
      assert ((<[ k := AuthService.set_updatedAt now2 u ]> users) !! k = Some u) as Hk
        by (by rewrite Hsame).
      rewrite lookup_insert_eq in Hk. injection Hk as Hk.
      by rewrite <- Hk.
    + intros <-. apply insert_id. rewrite Hu. f_equal. by destruct u.
Qed.

End AccountFacts.

Section AccountWitness.
Import Js Auth Sample.

Lemma sample_users_keyed : keyedById sample_users.
Proof.
  intros k u. unfold sample_users.
  rewrite !lookup_insert. repeat case_decide; try done; by intros [= <-].
Qed.

Lemma deactivateUser_blocks_witness :
  ∃ users',
    AuthService.deactivateUser sample_cast (λ _, true) sample_users 1714557600000 "u3"
    = Ok users'
    ∧ (authMiddleware sample_access_verify
         (AuthService.findById sample_cast users') (Some "Bearer access-u3")).1
      = Respond 401 "USER_INACTIVE"
    ∧ (authMiddleware sample_access_verify
         (AuthService.findById sample_cast sample_users)
         (Some "Bearer access-u3")).1
      = Next
    ∧ users' !! "u2" = Some sample_manager.
Proof.
  eexists. split; [reflexivity|].
  destruct (deactivateUser_blocks sample_cast (λ _, true) sample_access_verify
              sample_users _ 1714557600000 "u3" sample_users_keyed eq_refl)
    as [Hblocked Hothers].
  split; [|split].
  - apply (Hblocked (Some "Bearer access-u3") "access-u3"
             {| claim_id := "u3"; claim_email := "waiter@example.com";
                claim_role := "waiter"; claim_restaurantId := "r1" |});
      (reflexivity || done).
  - reflexivity.
  - rewrite Hothers by done. reflexivity.
Defined.

Lemma activateUser_restores_witness :
  ∃ users',
    AuthService.deactivateUser sample_cast (λ _, true) sample_users 1714557600000 "U2"
    = Ok users'
    ∧ AuthService.activateUser sample_cast (λ _, true) users' 1714557660000 "U2"
      = Ok (<[ "u2" := AuthService.set_updatedAt 1714557660000 sample_manager ]>
              sample_users)
    ∧ <[ "u2" := AuthService.set_updatedAt 1714557660000 sample_manager ]> sample_users
      ≠ sample_users.
Proof.
  destruct (activateUser_restores sample_cast (λ _, true) sample_users
              1714557600000 1714557660000 "U2" "u2" sample_manager
              sample_users_keyed eq_refl eq_refl eq_refl eq_refl)
    as (users' & Hdeactivate & Hactivate & Hsame).
  exists users'. split; [exact Hdeactivate|]. split.
  - exact Hactivate.
  - intros Heq. apply Hsame in Heq. discriminate Heq.
Defined.

End AccountWitness.

(** ** Order numbers *)

Section NumberingFacts.
Import Js Decimal OrderModel OrderSpec.

(** X17: [save] never changes the number of a document: a document
    that is saved keeps the number it came with, which it must have
    had to pass the validators, whether it is new or not; and the
    document [save] returns is not new, and keeps its number through
    every later save, whatever was modified in between. *)
Theorem save_keeps_number (db db' : Collection) (now : Date)
    (doc doc' : OrderDocument) :
  save db now doc = Ok (db', doc') →
  orderNumber (fields doc') = orderNumber (fields doc)
  ∧ truthy (orderNumber (fields doc)) = true
  ∧ db' !! _id doc = Some (fields doc')
  ∧ isNew doc' = false
  ∧ (∀ db2 now2 paths db3 doc3,
       save db2 now2 {| _id := _id doc'; fields := fields doc'; isNew := isNew doc';
                        modifiedPaths := paths |} = Ok (db3, doc3) →
       orderNumber (fields doc3) = orderNumber (fields doc)).
Proof.
  assert (∀ db0 db1 now0 d d1,
            save db0 now0 d = Ok (db1, d1) →
            orderNumber (fields d1) = orderNumber (fields d)) as Hkept.
  { intros db0 db1 now0 d d1 Hsave.
    destruct (save_ok _ _ _ _ _ Hsave) as (_ & _ & _ & _ & -> & _).
    destruct (preSaveTotal_keeps d) as (_ & _ & <-).
    by destruct (isNew d). }
  intros Hsave.
  pose proof (Hkept _ _ _ _ _ Hsave) as Hnumber.
  destruct (save_ok _ _ _ _ _ Hsave) as (Hvalid & -> & _ & Hold & _ & _).
  destruct (validOrder_numbered db now doc Hvalid) as [Htruthy _].
  split; [done|]. split; [done|]. split; [apply lookup_insert_eq|].
  split; [done|].
  intros db2 now2 paths db3 doc3 Hlater.
  rewrite (Hkept _ _ _ _ _ Hlater). exact Hnumber.
Qed.

Lemma parseFrom_append (v : N) (a b : string) :
  parseFrom v (a +:+ b) = parseFrom (parseFrom v a) b.
Proof.
  revert v. induction a as [|c a IH]; intros v; [done|].
  rewrite append_cons. simpl. apply IH.
Qed.

Lemma digitValue_digitChar (d : N) : (d < 10)%N → digitValue (digitChar d) = d.
Proof.
  intros Hd. unfold digitValue, digitChar.
  rewrite N_ascii_embedding by lia. lia.
Qed.

Lemma parseFrom_fixedDigits (w : nat) (v n : N) :
  parseFrom v (fixedDigits w n) = (v * pow10 w + n mod pow10 w)%N.
Proof.
  revert v n. induction w as [|w IH]; intros v n.
  - simpl. rewrite N.mod_1_r. lia.
  - change (fixedDigits (S w) n)
      with (fixedDigits w (n / 10) +:+ String (digitChar (n mod 10)) "").
    rewrite parseFrom_append, IH. simpl parseFrom.
    rewrite digitValue_digitChar by (by apply N.mod_lt).
    change (pow10 (S w)) with (10 * pow10 w)%N.
    rewrite N.Div0.mod_mul_r. lia.
Qed.

(** Every number has a decimal width. *)
Lemma decimal_width (n : N) :
  ∃ w, (n < pow10 (S w))%N ∧ (w = 0%nat ∨ pow10 w ≤ n)%N.
Proof.
  assert (∀ k, (n < pow10 (S k))%N →
               ∃ w, (n < pow10 (S w))%N ∧ (w = 0%nat ∨ pow10 w ≤ n)%N) as Hfind.
  { induction k as [|k IH]; intros Hk; [exists 0%nat; by split; [|left]|].
    destruct (decide (n < pow10 (S k))%N) as [Hlt|Hge]; [by apply IH|].
    exists (S k). split; [done|]. right. lia. }
  destruct n as [|p]; [exists 0%nat; split; [done | by left]|].
  apply (Hfind (Pos.size_nat p)).
  assert (∀ q k, (Npos q < pow10 k)%N ∨ (k < Pos.size_nat q)%nat) as Hsize.
  { intros q k. revert q. induction k as [|k IH]; intros q.
    - right. destruct q; simpl; lia.
    - change (pow10 (S k)) with (10 * pow10 k)%N. pose proof (pow10_pos k).
      destruct q as [q|q|]; simpl Pos.size_nat.
      + destruct (IH q); [left | right]; lia.
      + destruct (IH q); [left | right]; lia.
      + left. lia. }
  destruct (Hsize p (Pos.size_nat p)) as [Hlt|?]; [|lia].
  change (pow10 (S (Pos.size_nat p))) with (10 * pow10 (Pos.size_nat p))%N. lia.
Qed.

Lemma toString_width (n : N) :
  ∃ w, toString n = fixedDigits (S w) n
       ∧ (n < pow10 (S w))%N ∧ (w = 0%nat ∨ pow10 w ≤ n)%N.
Proof.
  destruct (decimal_width n) as (w & Hlt & Hge).
  exists w. split; [by apply toString_digits | done].
Qed.

Lemma parseDecimal_toString (n : N) : parseDecimal (toString n) = n.
Proof.
  destruct (toString_width n) as (w & -> & Hlt & _).
  unfold parseDecimal. rewrite parseFrom_fixedDigits, N.mod_small by done. lia.
Qed.

Lemma parseDecimal_padStart (w : nat) (s : string) :
  parseDecimal (padStart w "0" s) = parseDecimal s.
Proof.
  unfold padStart, parseDecimal.
  induction (w - String.length s)%nat as [|k IH]; [done|].
  simpl repeatChar. rewrite append_cons. simpl parseFrom. exact IH.
Qed.

Lemma pow10_mono (a b : nat) : (a ≤ b)%nat → (pow10 a ≤ pow10 b)%N.
Proof.
  induction 1 as [|b _ IH]; [lia|].
  change (pow10 (S b)) with (10 * pow10 b)%N. lia.
Qed.

(** X18: the hook that generates the order number, on a new document
    without a number, writes the sequence number so that it can be
    read back, whatever the count of the day: the numeral after the
    seven characters of the date part has the value of the count plus
    one.  Up to 9999 the order number has eleven characters; from
    10000 on the sequence number is written in full and the order
    number is longer. *)
Theorem orderNumber_sequence_readback (db : Collection) (now : Date)
    (doc : OrderDocument) :
  isNew doc = true → truthy (orderNumber (fields doc)) = false →
  calendarDate now → (10 ≤ getFullYear now)%N →
  map_Forall (λ _ o, calendarDate (createdAt o)) db →
  let sequence := (ordersCreatedOn db (restaurantId (fields doc)) now + 1)%N in
  ∃ number,
    orderNumber (fields (preSaveOrderNumber db now doc)) = Some number
    ∧ sequenceOf number = sequence
    ∧ ((sequence < 10000)%N → String.length number = 11%nat)
    ∧ ((10000 ≤ sequence)%N → (11 < String.length number)%nat).
Proof.
  intros Hnew Hnone Hnow Hyear Hdb sequence.
  rewrite (preSaveOrderNumber_new db now doc Hnew Hnone Hnow Hyear Hdb).
  fold sequence. cbn [fields with_fields orderNumber set_orderNumber].
  eexists. split; [reflexivity|].
  set (datePart := fixedDigits 2 (getFullYear now) +:+ fixedDigits 2 (getMonth now + 1)
                   +:+ fixedDigits 2 (getDate now) +:+ "-").
  set (tail := padStart 4 "0" (toString sequence)).
  assert (fixedDigits 2 (getFullYear now) +:+ fixedDigits 2 (getMonth now + 1)
          +:+ fixedDigits 2 (getDate now) +:+ "-" +:+ tail = datePart +:+ tail) as ->
    by reflexivity.
  assert (String.length datePart = 7%nat) as Hdate by reflexivity.
  assert (String.length (datePart +:+ tail) = (7 + String.length tail)%nat) as Hlen
    by (by rewrite append_length, Hdate).
  split; [|split].
  - unfold sequenceOf. rewrite Hlen.
    replace (7 + String.length tail - 7)%nat with (String.length tail) by lia.
    rewrite <- Hdate at 1. rewrite substring_skip, substring_all.
    unfold tail. by rewrite parseDecimal_padStart, parseDecimal_toString.
  - intros Hsmall. rewrite Hlen. unfold tail.
    rewrite (padStart_fixedDigits 3 sequence Hsmall), fixedDigits_length. done.
  - intros Hlarge. rewrite Hlen. unfold tail. rewrite padStart_length.
    destruct (toString_width sequence) as (w & -> & Hlt & Hge).
    rewrite fixedDigits_length.
    destruct (decide (S w ≤ 4)%nat) as [Hw|Hw]; [|lia].
    pose proof (pow10_mono (S w) 4 Hw) as Hmono.
    change (pow10 4) with 10000%N in Hmono. lia.
Qed.

End NumberingFacts.

Section NumberingWitness.
Import Js Decimal OrderModel OrderSpec SampleOrders.

Lemma save_keeps_number_witness :
  ∃ db' doc',
    save sample_orders may_first_noon (numbered_order "TABLE-7") = Ok (db', doc')
    ∧ orderNumber (fields doc') = Some "TABLE-7"
    ∧ db' !! id5 = Some (fields doc').
Proof.
  destruct (save sample_orders may_first_noon (numbered_order "TABLE-7"))
    as [[db' doc']|e] eqn:Hsave; [|by vm_compute in Hsave].
  destruct (save_keeps_number sample_orders db' may_first_noon
              (numbered_order "TABLE-7") doc' Hsave)
    as (Hnumber & _ & Hstored & _).
  exists db', doc'. split; [reflexivity|]. split; [exact Hnumber | exact Hstored].
Defined.

Lemma orderNumber_sequence_readback_witness :
  ∃ number,
    orderNumber (fields (preSaveOrderNumber sample_orders may_first_noon new_order))
    = Some number
    ∧ sequenceOf number = 3%N ∧ String.length number = 11%nat.
Proof.
  assert (calendarDate may_first_noon) as Hnoon by (unfold calendarDate; simpl; lia).
  assert (10 ≤ getFullYear may_first_noon)%N as Hyear by (simpl; lia).
  destruct (orderNumber_sequence_readback sample_orders may_first_noon new_order
              eq_refl eq_refl Hnoon Hyear sample_orders_calendar)
    as (number & Hnumber & Hsequence & Hshort & _).
  exists number. split; [exact Hnumber|]. split.
  - etrans; [exact Hsequence|]. by vm_compute.
  - apply Hshort. by vm_compute.
Defined.

End NumberingWitness.

(** ** The order handlers, request after request *)

Section CallFacts.
Import Js OrderModel OrderSpec OrderController OrderCalls.

Variable castObjectId : string → option string.

(** What a handler does: it refuses, or throws, and leaves the store
    as it is; or it finds the order the id of the path casts to, in
    the caller's restaurant, and replaces or deletes it. *)
Lemma handle_cases (db : Collection) (c : Call) :
  ((handle castObjectId db c).1 = db ∧ succeeded (handle castObjectId db c).2 = false)
  ∨ ∃ key order,
      castObjectId (target c) = Some key ∧ db !! key = Some order
      ∧ OrderModel.restaurantId order = restaurantId (caller c)
      ∧ succeeded (handle castObjectId db c).2 = true
      ∧ ((∃ o', isPut c = true ∧ status order ≠ served ∧ status order ≠ cancelled
                ∧ (handle castObjectId db c).1 = <[ key := o' ]> db)
         ∨ (∃ st, isPut c = false ∧ Transition (status order) st
                  ∧ (handle castObjectId db c).1 = <[ key := set_status st order ]> db)
         ∨ (isPut c = false ∧ (status order = pending ∨ status order = cancelled)
            ∧ (handle castObjectId db c).1 = delete key db)).
Proof.
  destruct c as [req|now req|req]; cbn [handle target caller isPut].
  - unfold updateOrder.
    destruct (findOne castObjectId db (params_id req) (restaurantId (user req)))
      as [[[key order]|]|e] eqn:Hfind; [| by left | by left].
    destruct (bool_decide (status order = served)) eqn:Hserved; [by left|].
    destruct (bool_decide (status order = cancelled)) eqn:Hcancelled; [by left|].
    apply bool_decide_eq_false in Hserved, Hcancelled. cbn [orb].
    apply findOne_spec in Hfind as (Hcast & Hkey & Hrid).
    unfold findByIdAndUpdate. rewrite Hcast.
    destruct (castUpdate castObjectId (body req)) as [u'|e]; [|by left].
    destruct (validUpdate u'); cbn [negb]; [|by left].
    rewrite Hkey.
    destruct (keepsId key u'); cbn [negb]; [|by left].
    destruct (bool_decide (is_Some (upd_orderNumber u')) && _); [by left|].
    right. exists key, order. repeat (split; [done|]). left. eauto.
  - unfold updateOrderStatus.
    destruct (truthy (body req)) eqn:Hbody; cbn [negb]; [|by left].
    apply truthy_inv in Hbody as (requested & Hbody & Hne). rewrite Hbody.
    cbn [from_option Datatypes.id].
    destruct (findOne castObjectId db (params_id req) (restaurantId (user req)))
      as [[[key order]|]|e] eqn:Hfind; [| by left | by left].
    destruct (includes (statusName <$> validTransitions (status order)) requested)
      eqn:Hin; cbn [negb]; [|by left].
    apply includes_validTransitions in Hin as (st & -> & Ht).
    rewrite parseStatus_name.
    apply findOne_spec in Hfind as (Hcast & Hkey & Hrid).
    rewrite save_status_only by eauto. rewrite validOrder_set_status.
    destruct (validOrder order); [|by left].
    right. exists key, order. repeat (split; [done|]). right. left. eauto.
  - destruct (findOne castObjectId db (params_id req) (restaurantId (user req)))
      as [[[key order]|]|e] eqn:Hfind;
      [| left; unfold deleteOrder; by rewrite Hfind
       | left; unfold deleteOrder; by rewrite Hfind].
    rewrite (controller_deleteOrder_by_status castObjectId db req key order Hfind).
    apply findOne_spec in Hfind as (Hcast & Hkey & Hrid).
    case_bool_decide; cbn [fst snd succeeded]; [|by left].
    right. exists key, order. repeat (split; [done|]). right. right. eauto.
Qed.

(** [updateOrderStatus] changes the store, or answers 200, only on a
    request that names an order of the caller's restaurant and a
    status the transition table allows from the order's. *)
Lemma updateOrderStatus_cases (db : Collection) (now : Date)
    (req : Request (option string)) :
  (∃ key order st,
     castObjectId (params_id req) = Some key ∧ db !! key = Some order
     ∧ OrderModel.restaurantId order = restaurantId (user req)
     ∧ body req = Some (statusName st) ∧ Transition (status order) st)
  ∨ ((updateOrderStatus castObjectId db now req).1 = db
     ∧ succeeded (updateOrderStatus castObjectId db now req).2 = false).
Proof.
  unfold updateOrderStatus.
  destruct (truthy (body req)) eqn:Hbody; cbn [negb]; [|by right].
  apply truthy_inv in Hbody as (requested & Hbody & Hne). rewrite Hbody.
  cbn [from_option Datatypes.id].
  destruct (findOne castObjectId db (params_id req) (restaurantId (user req)))
    as [[[key order]|]|e] eqn:Hfind; [| by right | by right].
  destruct (includes (statusName <$> validTransitions (status order)) requested)
    eqn:Hin; cbn [negb]; [|by right].
  apply includes_validTransitions in Hin as (st & -> & Ht).
  apply findOne_spec in Hfind as (Hcast & Hkey & Hrid).
  left. by exists key, order, st.
Qed.

(** A handler leaves every order but the one its request names. *)
Lemma handle_frame (db : Collection) (c : Call) (key : string) :
  castObjectId (target c) ≠ Some key →
  (handle castObjectId db c).1 !! key = db !! key.
Proof.
  intros Hkey.
  destruct (handle_cases db c)
    as [[-> _] | (k & order & Hcast & _ & _ & _
                  & [(o' & _ & _ & _ & ->) | [(st & _ & _ & ->) | (_ & _ & ->)]])].
  - done.
  - rewrite lookup_insert_ne; [done | congruence].
  - rewrite lookup_insert_ne; [done | congruence].
  - rewrite lookup_delete_ne; [done | congruence].
Qed.

(** X19: a handler that does not answer 200 leaves the store as it is;
    one that answers 200 has found the order under the id that the id
    of the request's path casts to, among the orders of the caller's
    restaurant; and whatever it answers, every order but that one is
    left as it is. *)
Theorem handle_answer (db : Collection) (c : Call) :
  (if succeeded (handle castObjectId db c).2
   then ∃ key order,
          castObjectId (target c) = Some key ∧ db !! key = Some order
          ∧ OrderModel.restaurantId order = restaurantId (caller c)
   else (handle castObjectId db c).1 = db)
  ∧ ∀ key, castObjectId (target c) ≠ Some key →
           (handle castObjectId db c).1 !! key = db !! key.
Proof.
  split; [|intros key; apply handle_frame].
  destruct (handle_cases db c)
    as [[Hdb ->] | (key & order & Hcast & Hkey & Hrid & -> & _)]; [done|].
  by exists key, order.
Qed.

(** An order a handler finds, of another restaurant than the caller's
    or served, is left as it is. *)
Lemma handle_keeps (db : Collection) (c : Call) (key : string) (order : Order) :
  db !! key = Some order →
  OrderModel.restaurantId order ≠ restaurantId (caller c) ∨ status order = served →
  (handle castObjectId db c).1 !! key = Some order.
Proof.
  intros Hkey Hwhy.
  destruct (handle_cases db c)
    as [[-> _] | (k & order' & Hcast & Hk & Hrid & _ & Hcase)]; [done|].
  destruct (decide (k = key)) as [->|Hne].
  2: { rewrite handle_frame; [done | congruence]. }
  assert (order' = order) as -> by congruence.
  destruct Hwhy as [Hother | Hserved]; [done|].
  destruct Hcase as [(o' & _ & Hnot & _) | [(st & _ & Ht & _) | (_ & Hst & _)]].
  - done.
  - rewrite Hserved in Ht. inversion Ht.
  - rewrite Hserved in Hst. by destruct Hst.
Qed.

Lemma handleAll_cons (db : Collection) (c : Call) (rest : list Call) :
  handleAll castObjectId db (c :: rest)
  = ((handleAll castObjectId (handle castObjectId db c).1 rest).1,
     (handle castObjectId db c).2
     :: (handleAll castObjectId (handle castObjectId db c).1 rest).2).
Proof.
  cbn [handleAll]. destruct (handle castObjectId db c) as [db' out]. cbn [fst snd].
  by destruct (handleAll castObjectId db' rest) as [db'' outs].
Qed.

(** X20: requests of users of one restaurant, however many and
    whichever of the three handlers they reach, leave every order of
    another restaurant as it is. *)
Theorem other_restaurant_untouched (db : Collection) (calls : list Call)
    (rid id : string) (order : Order) :
  Forall (λ c, restaurantId (caller c) = rid) calls →
  db !! id = Some order → OrderModel.restaurantId order ≠ rid →
  (handleAll castObjectId db calls).1 !! id = Some order.
Proof.
  intros Hcalls. revert db.
  induction Hcalls as [|c rest Hc _ IH]; intros db Hid Hrid; [done|].
  rewrite handleAll_cons. cbn [fst]. apply IH; [|done].
  apply handle_keeps; [done|]. left. by rewrite Hc.
Qed.

Lemma handle_absent (db : Collection) (c : Call) (key : string) :
  db !! key = None →
  (handle castObjectId db c).1 !! key = None
  ∧ (castObjectId (target c) = Some key →
     (handle castObjectId db c).1 = db
     ∧ succeeded (handle castObjectId db c).2 = false).
Proof.
  intros Hnone.
  assert (castObjectId (target c) = Some key →
          (handle castObjectId db c).1 = db
          ∧ succeeded (handle castObjectId db c).2 = false) as Hsame.
  { intros Htarget.
    destruct (handle_cases db c) as [? | (k & order' & Hcast & Hk & _)]; [done|].
    congruence. }
  split; [|done].
  destruct (decide (castObjectId (target c) = Some key)) as [Htarget|Hne].
  - by destruct (Hsame Htarget) as [-> _].
  - by rewrite handle_frame.
Qed.

Lemma handleAll_absent (db : Collection) (calls : list Call) (key : string) :
  db !! key = None → (handleAll castObjectId db calls).1 !! key = None.
Proof.
  revert db. induction calls as [|c rest IH]; intros db Hnone; [done|].
  rewrite handleAll_cons. cbn [fst]. apply IH. by apply handle_absent.
Qed.

(** X21: a served order is left as it is by every sequence of
    requests to the three handlers, whoever makes them; a cancelled
    order is left as it is until it is deleted. *)
Theorem terminal_order_frozen (db : Collection) (calls : list Call) (id : string)
    (order : Order) :
  db !! id = Some order →
  (status order = served → (handleAll castObjectId db calls).1 !! id = Some order)
  ∧ (status order = cancelled →
     (handleAll castObjectId db calls).1 !! id = Some order
     ∨ (handleAll castObjectId db calls).1 !! id = None).
Proof.
  intros Hid. split.
  - intros Hserved. revert db Hid.
    induction calls as [|c rest IH]; intros db Hid; [done|].
    rewrite handleAll_cons. cbn [fst]. apply IH.
    apply handle_keeps; [done|]. by right.
  - intros Hcancelled. revert db Hid.
    induction calls as [|c rest IH]; intros db Hid; [by left|].
    rewrite handleAll_cons. cbn [fst].
    destruct (handle_cases db c)
      as [[-> _] | (k & order' & Hcast & Hk & _ & _ & Hcase)]; [by apply IH|].
    destruct (decide (k = id)) as [->|Hne].
    2: { apply IH. rewrite handle_frame; [done | congruence]. }
    assert (order' = order) as -> by congruence.
    destruct Hcase as [(o' & _ & _ & Hnot & _) | [(st & _ & Ht & _) | (_ & _ & ->)]].
    + done.
    + rewrite Hcancelled in Ht. inversion Ht.
    + right. apply handleAll_absent, lookup_delete_eq.
Qed.

Lemma grantsLeft_bound (st : option OrderStatus) : (grantsLeft st ≤ 4)%nat.
Proof. destruct st as [[]|]; simpl; lia. Qed.

Lemma granted_cons (out : Outcome) (outs : list Outcome) :
  granted (out :: outs) = ((if succeeded out then 1 else 0) + granted outs)%nat.
Proof. unfold granted. simpl. by destruct (succeeded out). Qed.

(** X22: of the requests made for one order, none of them a [PUT],
    the handlers grant at most as many as the transition table has
    steps from the order's status on, the deletion of a pending or
    cancelled order counting as one: never more than four, and none
    for a served order or for one that is not in the store. *)
Theorem status_requests_granted (db : Collection) (calls : list Call) (id : string) :
  Forall (λ c, castObjectId (target c) = Some id ∧ isPut c = false) calls →
  (granted (handleAll castObjectId db calls).2 ≤ grantsLeft (status <$> db !! id))%nat
  ∧ (grantsLeft (status <$> db !! id) ≤ 4)%nat.
Proof.
  intros Hcalls. split; [|apply grantsLeft_bound].
  revert db. induction Hcalls as [|c rest [Hc Hput] _ IH]; intros db.
  { unfold granted. simpl. lia. }
  rewrite handleAll_cons. cbn [snd]. rewrite granted_cons.
  specialize (IH (handle castObjectId db c).1).
  destruct (handle_cases db c)
    as [[Hdb ->] | (k & order & Hcast & Hfind & _ & -> & Hcase)].
  { rewrite Hdb in IH |- *. simpl. lia. }
  assert (k = id) as -> by congruence.
  rewrite Hfind. cbn [fmap option_fmap option_map].
  destruct Hcase as [(o' & Hisput & _) | [(st & _ & Ht & Hdb) | (_ & Hst & Hdb)]].
  - congruence.
  - assert ((handle castObjectId db c).1 !! id = Some (set_status st order)) as Hnew
      by (rewrite Hdb; apply lookup_insert_eq).
    rewrite Hnew in IH. cbn [fmap option_fmap option_map] in IH.
    change (status (set_status st order)) with st in IH.
    remember (status order) as st0 eqn:Hst0. clear Hst0.
    destruct Ht; simpl in *; lia.
  - assert ((handle castObjectId db c).1 !! id = None) as Hnew
      by (rewrite Hdb; apply lookup_delete_eq).
    rewrite Hnew in IH. cbn [fmap option_fmap option_map] in IH.
    destruct Hst as [-> | ->]; simpl in *; lia.
Qed.

(** X23: once [deleteOrder] has answered 200, the order is gone for
    good: [getOrderById] answers 404 to every user, and no later
    request for that order, to any of the three handlers, is granted
    or changes the store. *)
Theorem deleted_order_gone (db : Collection) (req : Request unit) :
  succeeded (deleteOrder castObjectId db req).2 = true →
  let db' := (deleteOrder castObjectId db req).1 in
  (∀ req', castObjectId (params_id req') = castObjectId (params_id req) →
           getOrderById castObjectId db' req' = NextError "Order not found" 404)
  ∧ (∀ calls,
       Forall (λ c, castObjectId (target c) = castObjectId (params_id req)) calls →
       (handleAll castObjectId db' calls).1 = db'
       ∧ Forall (λ out, succeeded out = false) (handleAll castObjectId db' calls).2).
Proof.
  intros Hok db'.
  assert (∃ key, castObjectId (params_id req) = Some key ∧ db' !! key = None)
    as (key & Hcast & Hgone).
  { unfold db'. revert Hok.
    destruct (findOne castObjectId db (params_id req) (restaurantId (user req)))
      as [[[key order]|]|e] eqn:Hfind;
      [| unfold deleteOrder; by rewrite Hfind | unfold deleteOrder; by rewrite Hfind].
    rewrite (controller_deleteOrder_by_status castObjectId db req key order Hfind).
    apply findOne_spec in Hfind as (Hcast & _).
    case_bool_decide; [|done]. intros _. exists key. split; [done|].
    apply lookup_delete_eq. }
  clearbody db'. rewrite Hcast. split.
  - intros req' Hid. unfold getOrderById, findOne. by rewrite Hid, Hgone.
  - intros calls Hcalls.
    induction Hcalls as [|c rest Hc _ [IHdb IHouts]]; [by split|].
    rewrite handleAll_cons. cbn [fst snd].
    destruct (handle_absent db' c key Hgone) as [_ Hsame].
    destruct (Hsame Hc) as [Hdb Hout]. rewrite Hdb.
    split; [done|]. by constructor.
Qed.

End CallFacts.

Section CallWitness.
Import Js OrderModel OrderSpec OrderCalls SampleOrders.

Lemma other_restaurant_untouched_witness :
  (handleAll objectId sample_orders calls_of_T).1 !! id4 = Some other_tenant_order.
Proof.
  apply (other_restaurant_untouched objectId sample_orders calls_of_T "T" id4
           other_tenant_order).
  - by repeat constructor.
  - reflexivity.
  - done.
Defined.

Lemma terminal_order_frozen_witness :
  (handleAll objectId sample_orders sample_calls).1 !! id2 = Some served_order.
Proof.
  destruct (terminal_order_frozen objectId sample_orders sample_calls id2 served_order
              eq_refl) as [Hserved _].
  apply Hserved. reflexivity.
Defined.

Lemma status_requests_granted_witness :
  granted (handleAll objectId sample_orders life_of_first_order).2 = 4%nat
  ∧ (granted (handleAll objectId sample_orders life_of_first_order).2
     ≤ grantsLeft (Some pending))%nat.
Proof.
  split; [by vm_compute|].
  assert (Forall (λ c, objectId (target c) = Some id1 ∧ isPut c = false)
            life_of_first_order) as Hcalls
    by (by repeat constructor).
  destruct (status_requests_granted objectId sample_orders life_of_first_order id1
              Hcalls) as [Hgranted _].
  exact Hgranted.
Defined.

Lemma deleted_order_gone_witness :
  OrderController.getOrderById objectId
    (OrderController.deleteOrder objectId sample_orders (request "T" id1 ())).1
    (request "T" id1_capitals ())
  = OrderController.NextError "Order not found" 404.
Proof.
  destruct (deleted_order_gone objectId sample_orders (request "T" id1 ()) eq_refl)
    as [Hget _].
  apply Hget. reflexivity.
Defined.

End CallWitness.

(** ** routes/orders *)

Section RouteFacts.
Import Js OrderModel OrderSpec OrdersRoutes.

Variable castObjectId : string → option string.

Lemma authorized_cases {B : Type} (roles : list string)
    (handler : Collection → OrderController.Request B → Collection * OrderController.Outcome)
    (db : Collection) (req : RouteRequest B) :
  (authorized roles handler db req).1 = db
  ∧ answered200 (authorized roles handler db req).2 = false
  ∧ (∀ u, user req = Some u → Auth.role u ∉ roles)
  ∨ ∃ u, user req = Some u ∧ Auth.role u ∈ roles
         ∧ authorized roles handler db req
           = ((handler db (handlerRequest u req)).1,
              Handled (handler db (handlerRequest u req)).2).
Proof.
  unfold authorized, Auth.authorize. cbn [Auth.user].
  destruct (user req) as [u|]; [|left; by repeat split].
  destruct (includes roles (Auth.role u)) eqn:Hrole; cbn [negb].
  - right. exists u. apply includes_true in Hrole. split; [done|]. split; [done|].
    by destruct (handler db (handlerRequest u req)).
  - left. apply includes_false in Hrole. repeat split; [done..|].
    by intros ? [= <-].
Qed.

(** X24: [DELETE /:id] deletes an order exactly when the user is an
    admin or a manager, the id of the path casts to the id of an order
    of the user's restaurant, and that order is pending or cancelled;
    it then deletes that order, and in every other case the store is
    left as it is. *)
Theorem deleteRoute_grants (db : Collection) (req : RouteRequest unit) :
  (answered200 (deleteRoute castObjectId db req).2 = true
   ↔ ∃ u key order,
       user req = Some u ∧ (Auth.role u = "admin" ∨ Auth.role u = "manager")
       ∧ castObjectId (params_id req) = Some key
       ∧ db !! key = Some order
       ∧ restaurantId order = Auth.restaurantId u
       ∧ (status order = pending ∨ status order = cancelled))
  ∧ (deleteRoute castObjectId db req).1
    = if answered200 (deleteRoute castObjectId db req).2
      then from_option (λ key, delete key db) db (castObjectId (params_id req))
      else db.
Proof.
  unfold deleteRoute.
  destruct (authorized_cases [ "admin"; "manager" ]
              (OrderController.deleteOrder castObjectId) db req)
    as [(-> & -> & Hno) | (u & Huser & Hrole & ->)].
  { split; [|done]. split; [done|].
    intros (u & key & order & Huser & Hrole & _). exfalso. apply (Hno u Huser).
    rewrite !elem_of_cons. tauto. }
  rewrite !elem_of_cons, elem_of_nil in Hrole.
  cbn [fst snd answered200].
  assert (∀ key order,
            findOne castObjectId db (OrderController.params_id (handlerRequest u req))
              (OrderController.restaurantId
                 (OrderController.user (handlerRequest u req)))
            = Ok (Some (key, order))
            ↔ castObjectId (params_id req) = Some key ∧ db !! key = Some order
              ∧ restaurantId order = Auth.restaurantId u) as Hspec
    by (intros key order; apply findOne_spec).
  destruct (findOne castObjectId db (OrderController.params_id (handlerRequest u req))
              (OrderController.restaurantId
                 (OrderController.user (handlerRequest u req))))
    as [[[key order]|]|e] eqn:Hfind.
  - rewrite (controller_deleteOrder_by_status castObjectId db (handlerRequest u req)
               key order Hfind).
    destruct (proj1 (Hspec key order) eq_refl) as (Hcast & Hkey & Hrid).
    rewrite Hcast.
    case_bool_decide as Hstatus; cbn [fst snd from_option]; (split; [|done]);
      split; try done.
    + intros _. exists u, key, order. repeat split; try done. tauto.
    + intros (u' & key' & order' & Huser' & _ & Hcast' & Hkey' & _ & Hstatus').
      assert (key' = key) as -> by congruence.
      assert (order' = order) as -> by congruence. done.
  - unfold OrderController.deleteOrder. rewrite Hfind. cbn [fst snd].
    split; [|done]. split; [done|].
    intros (u' & key & order & Huser' & _ & Hcast & Hkey & Hrid & _).
    assert (u' = u) as -> by congruence.
    pose proof (proj2 (Hspec key order) (conj Hcast (conj Hkey Hrid))) as Hyes.
    discriminate Hyes.
  - unfold OrderController.deleteOrder. rewrite Hfind. cbn [fst snd].
    split; [|done]. split; [done|].
    intros (u' & key & order & Huser' & _ & Hcast & Hkey & Hrid & _).
    assert (u' = u) as -> by congruence.
    pose proof (proj2 (Hspec key order) (conj Hcast (conj Hkey Hrid))) as Hyes.
    discriminate Hyes.
Qed.

(** X25: [PATCH /:id/status] reaches the save of an order with a new
    status exactly when the user is an admin, a manager, a waiter or
    of the kitchen, the id of the path casts to the id of an order of
    the user's restaurant, and the transition table has the step from
    the order's status to the one the body names.  It then stores the
    order with the new status and answers with it when the order as it
    is stored passes the validators of the schema, and ends with the
    validation error of the save, the store left as it is, when it
    does not.  In every other case the store is left as it is and the
    answer is not 200. *)
Theorem patchStatus_grants (now : Date) (db : Collection)
    (req : RouteRequest (option string)) :
  (∀ u key order st,
     user req = Some u
     ∧ Auth.role u ∈ [ "admin"; "manager"; "waiter"; "kitchen" ]
     ∧ castObjectId (params_id req) = Some key
     ∧ db !! key = Some order
     ∧ restaurantId order = Auth.restaurantId u
     ∧ body req = Some (statusName st) ∧ Transition (status order) st →
     (validOrder order = true →
      ∃ o, patchStatus castObjectId now db req
           = (<[ key := o ]> db, Handled (OrderController.Json 200 (Some o)))
           ∧ status o = st ∧ o = set_status st order)
     ∧ (validOrder order = false →
        patchStatus castObjectId now db req
        = (db, Handled (OrderController.NextThrown "ValidationError"))))
  ∧ ((¬ ∃ u key order st,
          user req = Some u
          ∧ Auth.role u ∈ [ "admin"; "manager"; "waiter"; "kitchen" ]
          ∧ castObjectId (params_id req) = Some key
          ∧ db !! key = Some order
          ∧ restaurantId order = Auth.restaurantId u
          ∧ body req = Some (statusName st) ∧ Transition (status order) st) →
     (patchStatus castObjectId now db req).1 = db
     ∧ answered200 (patchStatus castObjectId now db req).2 = false).
Proof.
  unfold patchStatus.
  destruct (authorized_cases [ "admin"; "manager"; "waiter"; "kitchen" ]
              (λ db' req', OrderController.updateOrderStatus castObjectId db' now req')
              db req)
    as [(Hdb & Hout & Hno) | (u & Huser & Hrole & ->)].
  { split; [|done].
    intros u key order st (Huser & Hrole & _). by destruct (Hno u Huser). }
  split.
  - intros u' key order st (Huser' & _ & Hcast & Hkey & Hrid & Hbody & Ht).
    assert (u' = u) as -> by congruence.
    rewrite (updateOrderStatus_allowed castObjectId db now (handlerRequest u req)
               key order st); [| by apply findOne_spec | done | done].
    split; intros ->; [|done].
    exists (set_status st order). by repeat split.
  - intros Hnone.
    destruct (updateOrderStatus_cases castObjectId db now (handlerRequest u req))
      as [(key & order & st & Hcast & Hkey & Hrid & Hbody & Ht) | [Hdb Hout]].
    + exfalso. apply Hnone. by exists u, key, order, st.
    + cbn [fst snd answered200]. split; [done|].
      by destruct (OrderController.updateOrderStatus castObjectId db now
                     (handlerRequest u req)).2.
Qed.

End RouteFacts.

Section RouteWitness.
Import Js OrderModel OrderSpec OrdersRoutes SampleOrders.

Lemma deleteRoute_grants_witness :
  answered200
    (deleteRoute objectId sample_orders (route_request (Some "manager") id1_capitals ())).2
  = true
  ∧ (deleteRoute objectId sample_orders
       (route_request (Some "manager") id1_capitals ())).1
    = delete id1 sample_orders
  ∧ (deleteRoute objectId sample_orders (route_request (Some "waiter") id1 ())).1
    = sample_orders.
Proof.
  split; [|split].
  - destruct (deleteRoute_grants objectId sample_orders
                (route_request (Some "manager") id1_capitals ()))
      as [Hgranted _].
    apply Hgranted. exists (route_user "manager"), id1, first_order.
    split; [reflexivity|]. split; [by right|]. split; [reflexivity|].
    split; [reflexivity|]. split; [reflexivity | by left].
  - destruct (deleteRoute_grants objectId sample_orders
                (route_request (Some "manager") id1_capitals ()))
      as [_ Hstore].
    etrans; [exact Hstore|]. reflexivity.
  - destruct (deleteRoute_grants objectId sample_orders
                (route_request (Some "waiter") id1 ()))
      as [_ Hstore].
    etrans; [exact Hstore|]. reflexivity.
Defined.

Lemma patchStatus_grants_witness :
  (∃ o, patchStatus objectId may_first_noon sample_orders
          (route_request (Some "kitchen") id1 (Some "confirmed"))
        = (<[ id1 := o ]> sample_orders,
           Handled (OrderController.Json 200 (Some o)))
        ∧ status o = confirmed)
  ∧ patchStatus objectId may_first_noon overdiscounted_orders
      (route_request (Some "kitchen") id1 (Some "confirmed"))
    = (overdiscounted_orders, Handled (OrderController.NextThrown "ValidationError"))
  ∧ (patchStatus objectId may_first_noon sample_orders
       (route_request (Some "customer") id1 (Some "confirmed"))).1 = sample_orders.
Proof.
  assert ("kitchen" ∈ [ "admin"; "manager"; "waiter"; "kitchen" ]) as Hkitchen
    by (rewrite !elem_of_cons; tauto).
  split; [|split].
  - destruct (patchStatus_grants objectId may_first_noon sample_orders
                (route_request (Some "kitchen") id1 (Some "confirmed")))
      as [Hgranted _].
    destruct (Hgranted (route_user "kitchen") id1 first_order confirmed)
      as [Hvalid _].
    { split; [reflexivity|]. split; [exact Hkitchen|].
      split; [reflexivity|]. split; [reflexivity|]. split; [reflexivity|].
      split; [reflexivity | constructor]. }
    destruct (Hvalid eq_refl) as (o & Hout & Hstatus & _).
    exists o. by split.
  - destruct (patchStatus_grants objectId may_first_noon overdiscounted_orders
                (route_request (Some "kitchen") id1 (Some "confirmed")))
      as [Hgranted _].
    destruct (Hgranted (route_user "kitchen") id1 overdiscounted_order confirmed)
      as [_ Hinvalid].
    { split; [reflexivity|]. split; [exact Hkitchen|].
      split; [reflexivity|]. split; [reflexivity|]. split; [reflexivity|].
      split; [reflexivity | constructor]. }
    apply Hinvalid. reflexivity.
  - destruct (patchStatus_grants objectId may_first_noon sample_orders
                (route_request (Some "customer") id1 (Some "confirmed")))
      as [_ Hrefused].
    apply Hrefused.
    intros (u & key & order & st & Huser & Hrole & _).
    injection Huser as <-. cbn in Hrole.
    rewrite !elem_of_cons, elem_of_nil in Hrole.
    destruct Hrole as [H | [H | [H | [H | []]]]]; discriminate H.
Defined.

End RouteWitness.

(** ** services/orderService *)

Section OrderServiceFacts.
Import Js OrderModel OrderSpec OrderService.

Variable isValid : string → bool.
Variable castObjectId : string → option string.

(** X26: the order service changes the store only when it answers
    with success: [updateOrder] and [deleteOrder] leave the store as
    it is on every failure; on success the identifier is one
    [isValid] accepts and casts to the id of an order of the store,
    and that order alone is replaced by its update, or deleted. *)
Theorem service_failure_leaves_store (db : Collection) (orderId : string)
    (updates : OrderUpdate) :
  match (updateOrder isValid castObjectId db orderId updates).2 with
  | Failure _ _ => (updateOrder isValid castObjectId db orderId updates).1 = db
  | Success data =>
      isValid orderId = true
      ∧ ∃ key order u',
          castObjectId orderId = Some key ∧ db !! key = Some order
          ∧ castUpdate castObjectId updates = Ok u' ∧ validUpdate u' = true
          ∧ data = Some (applyUpdate u' order)
          ∧ (updateOrder isValid castObjectId db orderId updates).1
            = <[ key := applyUpdate u' order ]> db
  end
  ∧ match (deleteOrder isValid castObjectId db orderId).2 with
    | Failure _ _ => (deleteOrder isValid castObjectId db orderId).1 = db
    | Success _ =>
        isValid orderId = true
        ∧ ∃ key, castObjectId orderId = Some key ∧ is_Some (db !! key)
                 ∧ (deleteOrder isValid castObjectId db orderId).1 = delete key db
    end.
Proof.
  split.
  - unfold updateOrder, findByIdAndUpdate.
    destruct (isValid orderId); cbn [negb]; [|done].
    destruct (castObjectId orderId) as [key|]; [|done].
    destruct (castUpdate castObjectId updates) as [u'|e]; [|done].
    destruct (validUpdate u') eqn:Hvalid; cbn [negb]; [|done].
    destruct (db !! key) as [order|] eqn:Hfind; cbn [fst snd]; [|done].
    destruct (keepsId key u'); cbn [negb]; [|done].
    destruct (bool_decide (is_Some (upd_orderNumber u')) && _); [done|].
    cbn [fst snd]. split; [done|]. by exists key, order, u'.
  - unfold deleteOrder, findByIdAndDelete.
    destruct (isValid orderId); cbn [negb]; [|done].
    destruct (castObjectId orderId) as [key|]; [|done].
    destruct (db !! key) as [order|] eqn:Hfind; cbn [fst snd].
    + split; [done|]. exists key. by rewrite Hfind.
    + by apply delete_id.
Qed.

End OrderServiceFacts.

Section OrderServiceWitness.
Import Js OrderModel OrderSpec OrderService SampleOrders.

Lemma service_failure_leaves_store_witness :
  (deleteOrder hex24 objectId sample_orders id5).1 = sample_orders
  ∧ (updateOrder hex24 objectId sample_orders id1 (discount_update (-1))).1
    = sample_orders
  ∧ (deleteOrder hex24 objectId sample_orders id1_capitals).1
    = delete id1 sample_orders.
Proof.
  destruct (service_failure_leaves_store hex24 objectId sample_orders id5
              no_update) as [_ Habsent].
  destruct (service_failure_leaves_store hex24 objectId sample_orders id1
              (discount_update (-1))) as [Hupdate _].
  destruct (service_failure_leaves_store hex24 objectId sample_orders id1_capitals
              no_update) as [_ Hdelete].
  split; [exact Habsent|]. split; [exact Hupdate|].
  hnf in Hdelete. destruct Hdelete as (_ & key & Hcast & _ & Hstore).
  injection Hcast as <-. exact Hstore.
Defined.

End OrderServiceWitness.


(** ** An order stored with a negative total *)

Section NegativeTotalFacts.
Import Js OrderModel OrderSpec OrderController OrderCalls.

Variable castObjectId : string → option string.

(** X27: an order whose stored total is negative, as the total hook
    leaves it when the discount exceeds subtotal plus tax, cannot be
    saved again: every save of a document with that total throws a
    validation error, whatever the paths modified (the validators run
    before the hook that would recompute the total), and so
    [updateOrderStatus] on such an order never answers 200 and leaves
    the store as it is, whatever the status requested. *)
Theorem negative_total_locks (db : Collection) (order : Order) :
  minZero (total order) = false →
  (∀ now doc, fields doc = order → save db now doc = Throw "ValidationError")
  ∧ (∀ now req key,
       castObjectId (params_id req) = Some key → db !! key = Some order →
       (updateOrderStatus castObjectId db now req).1 = db
       ∧ succeeded (updateOrderStatus castObjectId db now req).2 = false).
Proof.
  intros Htotal.
  assert (validOrder order = false) as Hinvalid.
  { unfold validOrder. rewrite Htotal. by rewrite andb_false_r. }
  split.
  - intros now doc Hfields. unfold save. by rewrite Hfields, Hinvalid.
  - intros now req key Hcast Hkey.
    destruct (updateOrderStatus_cases castObjectId db now req)
      as [(key' & order' & st & Hcast' & Hkey' & Hrid & Hbody & Ht) | Hkept];
      [|exact Hkept].
    rewrite Hcast in Hcast'. injection Hcast' as <-.
    rewrite Hkey in Hkey'. injection Hkey' as <-.
    rewrite (updateOrderStatus_allowed castObjectId db now req key order st)
      by (by apply findOne_spec || done).
    by rewrite Hinvalid.
Qed.

End NegativeTotalFacts.

Section NegativeTotalWitness.
Import Js OrderModel OrderSpec OrderController OrderCalls SampleOrders.

Lemma negative_total_locks_witness :
  total overdiscounted_order = (-90)%float
  ∧ save overdiscounted_orders may_first_evening
      {| _id := id1; fields := set_discount 0 overdiscounted_order; isNew := false;
         modifiedPaths := [ "discount" ] |}
    = Throw "ValidationError"
  ∧ (updateOrderStatus objectId overdiscounted_orders may_first_evening
       (request "T" id1 (Some "cancelled"))).1 = overdiscounted_orders
  ∧ succeeded (updateOrderStatus objectId overdiscounted_orders may_first_evening
                 (request "T" id1 (Some "cancelled"))).2 = false.
Proof.
  split; [reflexivity|].
  split.
  - apply (proj1 (negative_total_locks objectId overdiscounted_orders
                    (set_discount 0 overdiscounted_order) eq_refl)).
    reflexivity.
  - apply (proj2 (negative_total_locks objectId overdiscounted_orders
                    overdiscounted_order eq_refl)
             may_first_evening (request "T" id1 (Some "cancelled")) id1);
      reflexivity.
Defined.

End NegativeTotalWitness.
